(** * shape-to-geojson: a model of [src/index.js] and its properties

    The script downloads RAR archives of shapefiles, groups the extracted
    members into shapefile component sets, reprojects every geometry to
    WGS84, simplifies lines and polygons and writes GeoJSON.

    The development follows the script function by function:
    [parsePrjFile], [transformGeometry] (with its inner [transformCoords]),
    [extractRarAndConvert] and [batchConvert].  JavaScript objects and
    arrays that are shared between the script and the libraries it calls
    live in an explicit heap; the libraries themselves (proj4, shapefile,
    node-unrar-js, @turf/simplify, fetch, fs, JSON) are fields of a record
    [World]: a statement holds for whatever these libraries answer,
    and one that needs more of a library says so in a hypothesis.

    [src/unnamed/part_000] is a variant of the same script: its
    [parsePrjFile], [transformGeometry], grouping and output steps are
    those of [src/index.js] line for line; it always fetches the archive
    (no local path) and its read loop keeps no size statistics.

    Part I is the model, Part II the properties of the four functions,
    Part III further properties: of the grouping loop and the read loop,
    of what a run does to the outside, of the top level of the script
    and of the variant. *)

From Stdlib Require Import ZArith NArith List String Ascii Strings.Byte Floats DecimalString.
From stdpp Require Import base tactics option list.

Set Warnings "-inexact-float,-register-all".

(* ===================================================================== *)
(** * Part I: the model *)
(* ===================================================================== *)

(* --------------------------------------------------------------------- *)
(** ** JavaScript strings *)
(* --------------------------------------------------------------------- *)

(** A JavaScript string is a sequence of UTF-16 code units. *)
Definition jsstring := list N.

(** A string literal of the script (all of them are ASCII). *)
Definition lit (s : string) : jsstring := map N_of_ascii (list_ascii_of_string s).

(** [text.startsWith(pat)]. *)
Fixpoint startsWith (text pat : jsstring) {struct pat} : bool :=
  match pat, text with
  | [], _ => true
  | _ :: _, [] => false
  | p :: pat', c :: text' => (c =? p)%N && startsWith text' pat'
  end.

(** [text.includes(pat)]: [pat] occurs at some position of [text]. *)
Fixpoint includes (text pat : jsstring) : bool :=
  startsWith text pat ||
  match text with
  | [] => false
  | _ :: text' => includes text' pat
  end.

(** [text.endsWith(pat)]. *)
Definition endsWith (text pat : jsstring) : bool :=
  startsWith (rev text) (rev pat).

(** Strict equality [===] of two strings. *)
Definition str_eqb (s t : jsstring) : bool := bool_decide (s = t).

(** [s.toLowerCase()], on the letters A-Z.  The script lower-cases a file
    extension only to look it up in a list of five ASCII extensions; no
    character outside A-Z lower-cases to one of the letters of these
    extensions, so the lookup sees the same answer as with the full
    Unicode mapping. *)
Definition lower_unit (c : N) : N :=
  if ((65 <=? c) && (c <=? 90))%N then (c + 32)%N else c.

Definition toLowerCase (s : jsstring) : jsstring := map lower_unit s.

(** The decimal digits of a non-negative integer, as in a template
    literal. *)
Definition number_toString (n : N) : jsstring :=
  lit (NilEmpty.string_of_uint (N.to_uint n)).

(* --------------------------------------------------------------------- *)
(** ** Exceptions *)
(* --------------------------------------------------------------------- *)

(** What is thrown: an [Error] or a [TypeError] with its message, or a
    bare string (proj4 throws the text "Could not parse to valid json:
    ..." itself when it cannot read a projection). *)
Inductive exn :=
| JsError (msg : jsstring)
| JsTypeError (msg : jsstring)
| JsString (text : jsstring).

(** The outcome of an expression that may throw. *)
Inductive result (A : Type) :=
| Ok (a : A)
| Throw (e : exn).
Arguments Ok {A} a.
Arguments Throw {A} e.

Definition is_Ok {A} (r : result A) : bool :=
  match r with Ok _ => true | Throw _ => false end.

(* --------------------------------------------------------------------- *)
(** ** Values and the heap *)
(* --------------------------------------------------------------------- *)

(** A [Buffer] (or [Uint8Array]): the bytes it holds. *)
Definition Buffer := list Byte.byte.

#[export] Instance byte_eq_decision : EqDecision Byte.byte.
Proof.
  intros x y. destruct (Byte.eqb x y) eqn:E.
  - left. by apply Byte.byte_dec_bl.
  - right. intros ->. by rewrite (Byte.byte_dec_lb eq_refl) in E.
Defined.

(** A reference is the index of its cell in the heap. *)
Abbreviation loc := nat.

(** Values: primitives and references to heap cells. Numbers are IEEE 754
    doubles. *)
Inductive value :=
| VUndefined
| VNull
| VBool (b : bool)
| VNumber (x : float)
| VString (s : jsstring)
| VRef (l : loc).

(** The own enumerable properties of an object, in the order
    [Object.entries] and [JSON.stringify] visit them. *)
Definition props (A : Type) := list (jsstring * A).

Inductive cell :=
| CObject (ps : props value)
| CArray (elems : list value).

(** The heap: cell [l] is the object or array that [VRef l] refers to.
    Cells are never freed. *)
Abbreviation heap := (list cell).

Definition alloc (c : cell) (h : heap) : loc * heap := (length h, h ++ [c]).

(** [ToBoolean]. *)
Definition truthy (v : value) : bool :=
  match v with
  | VUndefined | VNull => false
  | VBool b => b
  | VNumber x => negb (PrimFloat.eqb x 0 || PrimFloat.is_nan x)
  | VString s => negb (str_eqb s [])
  | VRef _ => true
  end.

(** [error.message] in a [catch] block: a thrown string has no such
    property. *)
Definition message (e : exn) : value :=
  match e with
  | JsError m => VString m
  | JsTypeError m => VString m
  | JsString _ => VUndefined
  end.

(** [v === "literal"]. *)
Definition is_string (v : value) (s : jsstring) : bool :=
  match v with
  | VString t => str_eqb t s
  | _ => false
  end.

(* --------------------------------------------------------------------- *)
(** ** Objects used as maps: property order, lookup, assignment *)
(* --------------------------------------------------------------------- *)

Definition digit_of (c : N) : option N :=
  if ((48 <=? c) && (c <=? 57))%N then Some (c - 48)%N else None.

Fixpoint parse_digits (acc : N) (s : jsstring) : option N :=
  match s with
  | [] => Some acc
  | c :: s' =>
      match digit_of c with
      | Some d => parse_digits (acc * 10 + d)%N s'
      | None => None
      end
  end.

(** A property key is an array index when it is the canonical decimal
    form of an integer below 2^32 - 1.  Such keys come first, in numeric
    order, when the properties of an object are enumerated. *)
Definition array_index (k : jsstring) : option N :=
  match k with
  | [] => None
  | [48%N] => Some 0%N
  | 48%N :: _ => None
  | _ =>
      match parse_digits 0 k with
      | Some n => if (n <? 4294967295)%N then Some n else None
      | None => None
      end
  end.

(** Own property lookup. *)
Fixpoint obj_lookup {A} (ps : props A) (k : jsstring) : option A :=
  match ps with
  | [] => None
  | (k', v) :: ps' => if str_eqb k' k then Some v else obj_lookup ps' k
  end.

Fixpoint obj_replace {A} (ps : props A) (k : jsstring) (v : A) : props A :=
  match ps with
  | [] => []
  | (k', v') :: ps' =>
      if str_eqb k' k then (k', v) :: ps' else (k', v') :: obj_replace ps' k v
  end.

(** Where a new array-index key [n] goes: before the first key that is
    not an array index or is a larger one. *)
Fixpoint obj_insert_index {A} (ps : props A) (n : N) (k : jsstring) (v : A) : props A :=
  match ps with
  | [] => [(k, v)]
  | (k', v') :: ps' =>
      match array_index k' with
      | Some m => if (m <? n)%N then (k', v') :: obj_insert_index ps' n k v
                  else (k, v) :: (k', v') :: ps'
      | None => (k, v) :: (k', v') :: ps'
      end
  end.

(** [o[k] = v] on an object whose property [k], if any, is its own: an
    existing property keeps its place, a new one is created. *)
Definition obj_set {A} (ps : props A) (k : jsstring) (v : A) : props A :=
  match obj_lookup ps k with
  | Some _ => obj_replace ps k v
  | None =>
      match array_index k with
      | Some n => obj_insert_index ps n k v
      | None => ps ++ [(k, v)]
      end
  end.

(** [Array.prototype.includes] on a list of strings. *)
Definition str_in (k : jsstring) (ks : list jsstring) : bool :=
  existsb (str_eqb k) ks.

(* --------------------------------------------------------------------- *)
(** ** Reading and writing properties of heap values *)
(* --------------------------------------------------------------------- *)

(** The cell behind a reference.  Every reference the script holds is
    allocated; for totality an unallocated one reads as an empty
    object. *)
Definition deref (h : heap) (l : loc) : cell :=
  match h !! l with
  | Some c => c
  | None => CObject []
  end.

(** [v.k] for one of the keys the script reads ("type", "coordinates",
    "geometry"): none of them is a property of a built-in prototype, so
    only own properties of objects answer; reading a property of
    [undefined] or [null] throws. *)
Definition get_prop (h : heap) (v : value) (k : jsstring) : result value :=
  match v with
  | VUndefined | VNull =>
      Throw (JsTypeError (lit "Cannot read properties of undefined or null"))
  | VRef l =>
      match deref h l with
      | CObject ps => Ok (default VUndefined (obj_lookup ps k))
      | CArray _ => Ok VUndefined
      end
  | _ => Ok VUndefined
  end.

(** [o.k = v] for a reference [l] to an object. *)
Definition set_prop (h : heap) (l : loc) (k : jsstring) (v : value) : heap :=
  match deref h l with
  | CObject ps => <[l := CObject (obj_set ps k v)]> h
  | CArray _ => h
  end.

(** The properties [{ ...v }] copies: the own enumerable properties of
    an object, the indexed elements of an array or of a string, nothing
    for the other primitives. *)
Definition indexed {A} (f : A -> value) (xs : list A) : props value :=
  imap (fun i x => (number_toString (N.of_nat i), f x)) xs.

Definition spread (h : heap) (v : value) : props value :=
  match v with
  | VRef l =>
      match deref h l with
      | CObject ps => ps
      | CArray elems => indexed id elems
      end
  | VString s => indexed (fun c => VString [c]) s
  | _ => []
  end.

(* --------------------------------------------------------------------- *)
(** ** Data built by a library *)
(* --------------------------------------------------------------------- *)

(** What a library hands back (a feature read from a shapefile, a
    simplified feature) is described as a tree; [build] allocates it as
    fresh objects and arrays. *)
Inductive tree :=
| TUndefined
| TNull
| TBool (b : bool)
| TNumber (x : float)
| TString (s : jsstring)
| TArray (elems : list tree)
| TObject (fields : list (jsstring * tree)).

Section Build.

Variable build : tree -> heap -> value * heap.

(** The elements of an array, left to right. *)
Fixpoint build_elems (ts : list tree) (h : heap) : list value * heap :=
  match ts with
  | [] => ([], h)
  | t :: ts' =>
      let '(v, h1) := build t h in
      let '(vs, h2) := build_elems ts' h1 in
      (v :: vs, h2)
  end.

(** The properties of an object, in the order they are set. *)
Fixpoint build_fields (fs : list (jsstring * tree)) (acc : props value) (h : heap)
    : props value * heap :=
  match fs with
  | [] => (acc, h)
  | (k, t) :: fs' =>
      let '(v, h1) := build t h in
      build_fields fs' (obj_set acc k v) h1
  end.

End Build.

Fixpoint build (t : tree) (h : heap) {struct t} : value * heap :=
  match t with
  | TUndefined => (VUndefined, h)
  | TNull => (VNull, h)
  | TBool b => (VBool b, h)
  | TNumber x => (VNumber x, h)
  | TString s => (VString s, h)
  | TArray elems =>
      let '(vs, h1) := build_elems build elems h in
      let '(l, h2) := alloc (CArray vs) h1 in
      (VRef l, h2)
  | TObject fields =>
      let '(ps, h1) := build_fields build fields [] h in
      let '(l, h2) := alloc (CObject ps) h1 in
      (VRef l, h2)
  end.

(* --------------------------------------------------------------------- *)
(** ** The libraries the script calls *)
(* --------------------------------------------------------------------- *)

(** What [transform.forward(coords)] hands back: an array (its elements)
    when it was given an array, a point object otherwise. *)
Inductive forwarded :=
| FwdArray (elems : list value)
| FwdObject.

(** The object [proj4(from, to)] returns, through its [forward] method:
    it reads its argument in the heap and throws on coordinates it
    rejects.  It does not write to its argument. *)
Definition converter := heap -> value -> result forwarded.

(** A [fetch] response. *)
Record Response := {
  resp_ok : bool;
  resp_status : N;
  resp_arrayBuffer : result Buffer;
}.

(** A member of an extracted archive: [file.fileHeader.name] and
    [file.extraction] ([undefined] for a directory). *)
Record ArchiveFile := {
  fileHeader_name : jsstring;
  extraction : option Buffer;
}.

(** Everything outside the script.  Each field answers as a function of
    its arguments; [Throw] is a thrown exception or a rejected promise. *)
Record World := {
  (** [buffer.toString("utf-8")] *)
  Buffer_toString : Buffer -> jsstring;
  (** [proj4(fromProjection, toProjection)] *)
  proj4 : jsstring -> jsstring -> result converter;
  (** [fetch(url)] *)
  fetch : jsstring -> result Response;
  (** [readFile(path)] *)
  readFile : jsstring -> result Buffer;
  (** [createExtractorFromData({ data })] and [extractor.extract()]; the
      inner result is the iteration of [extracted.files]. *)
  createExtractorFromData : Buffer -> result (result (list ArchiveFile));
  (** [mkdir(path, { recursive: true })] *)
  mkdir : jsstring -> result unit;
  (** [shapefile.open(shp, dbf, { encoding })]: the answers of the
      successive [source.read()] calls before [done]. *)
  shapefile_open : Buffer -> Buffer -> jsstring -> result (list (result tree));
  (** [simplify(feature, { tolerance, highQuality })] *)
  simplify : heap -> value -> float -> bool -> result tree;
  (** [JSON.stringify(value, null, indent)] *)
  JSON_stringify : heap -> value -> N -> result jsstring;
  (** [writeFile(path, data)] *)
  writeFile : jsstring -> jsstring -> result unit;
}.

(* --------------------------------------------------------------------- *)
(** ** Configuration constants (index.js, lines 8-15) *)
(* --------------------------------------------------------------------- *)

Definition SIMPLIFY_TOLERANCE : float := 0.001%float.
Definition ENABLE_SIMPLIFY : bool := true.

Definition UTM_ZONE_47N : jsstring := lit "+proj=utm +zone=47 +datum=WGS84 +units=m +no_defs".
Definition UTM_ZONE_48N : jsstring := lit "+proj=utm +zone=48 +datum=WGS84 +units=m +no_defs".
Definition WGS84 : jsstring := lit "EPSG:4326".

(* --------------------------------------------------------------------- *)
(** ** parsePrjFile (index.js, lines 18-36) *)
(* --------------------------------------------------------------------- *)

(** [prjBuffer] is a [Buffer] or [undefined]; a [Buffer] is truthy
    whatever it holds.  [None] in the result is [null]. *)
Definition parsePrjFile (w : World) (prjBuffer : option Buffer) : option jsstring :=
  match prjBuffer with
  | None => None
  | Some buf =>
      let prjText := Buffer_toString w buf in
      if includes prjText (lit "UTM_Zone_47") || includes prjText (lit "UTM Zone 47") then
        Some UTM_ZONE_47N
      else if includes prjText (lit "UTM_Zone_48") || includes prjText (lit "UTM Zone 48") then
        Some UTM_ZONE_48N
      else if includes prjText (lit "GCS_WGS_1984") || includes prjText (lit "WGS 84") then
        Some WGS84
      else
        Some prjText
  end.

(* --------------------------------------------------------------------- *)
(** ** transformGeometry (index.js, lines 39-77) *)
(* --------------------------------------------------------------------- *)

(** [xs.map(f)] where [f] may allocate and may throw: the elements are
    visited in order and the first exception ends the loop. *)
Fixpoint map_elems (f : heap -> value -> heap * result value)
    (h : heap) (xs : list value) : heap * result (list value) :=
  match xs with
  | [] => (h, Ok [])
  | x :: xs' =>
      match f h x with
      | (h1, Ok y) =>
          match map_elems f h1 xs' with
          | (h2, Ok ys) => (h2, Ok (y :: ys))
          | (h2, Throw e) => (h2, Throw e)
          end
      | (h1, Throw e) => (h1, Throw e)
      end
  end.

(** The inner function [transformCoords(coords, depth)].  At depth 0,
    [const [x, y] = transform.forward(coords)] takes the first two
    elements of the array handed back ([undefined] where it is shorter)
    and throws when the value handed back is not iterable; [[x, y]] is a
    new array.  Above, [coords.map] builds a new array and throws when
    [coords] has no [map] method. *)
Fixpoint transformCoords (transform : converter) (depth : nat)
    (h : heap) (coords : value) {struct depth} : heap * result value :=
  match depth with
  | 0 =>
      match transform h coords with
      | Ok (FwdArray out) =>
          let x := nth 0 out VUndefined in
          let y := nth 1 out VUndefined in
          let '(l, h1) := alloc (CArray [x; y]) h in
          (h1, Ok (VRef l))
      | Ok FwdObject => (h, Throw (JsTypeError (lit "object is not iterable")))
      | Throw e => (h, Throw e)
      end
  | S d =>
      match coords with
      | VRef l =>
          match deref h l with
          | CArray elems =>
              match map_elems (transformCoords transform d) h elems with
              | (h1, Ok out) =>
                  let '(l', h2) := alloc (CArray out) h1 in
                  (h2, Ok (VRef l'))
              | (h1, Throw e) => (h1, Throw e)
              end
          | CObject _ => (h, Throw (JsTypeError (lit "coords.map is not a function")))
          end
      | VUndefined | VNull =>
          (h, Throw (JsTypeError (lit "Cannot read properties of undefined or null")))
      | _ => (h, Throw (JsTypeError (lit "coords.map is not a function")))
      end
  end.

(** [!sourceCRS || sourceCRS === WGS84 || sourceCRS === "EPSG:4326"];
    [None] is [null] or [undefined], and the empty string is falsy
    too. *)
Definition no_transform (sourceCRS : option jsstring) : bool :=
  match sourceCRS with
  | None => true
  | Some crs => str_eqb crs [] || str_eqb crs WGS84 || str_eqb crs (lit "EPSG:4326")
  end.

(** The [switch (geometry.type)]: the depth [transformCoords] is called
    with, or [None] when no [case] matches. *)
Definition switch_depth (type : value) : option nat :=
  if is_string type (lit "Point") then Some 0
  else if is_string type (lit "LineString") || is_string type (lit "MultiPoint") then Some 1
  else if is_string type (lit "Polygon") || is_string type (lit "MultiLineString") then Some 2
  else if is_string type (lit "MultiPolygon") then Some 3
  else None.

Definition transformGeometry (w : World) (geometry : value)
    (sourceCRS : option jsstring) (h : heap) : heap * result value :=
  if no_transform sourceCRS then (h, Ok geometry)
  else
    match proj4 w (default [] sourceCRS) WGS84 with
    | Throw e => (h, Throw e)
    | Ok transform =>
        (* const transformed = { ...geometry }; *)
        let '(transformed, h1) := alloc (CObject (spread h geometry)) h in
        match get_prop h1 geometry (lit "type") with
        | Throw e => (h1, Throw e)
        | Ok type =>
            match switch_depth type with
            | Some depth =>
                match get_prop h1 geometry (lit "coordinates") with
                | Throw e => (h1, Throw e)
                | Ok coords =>
                    match transformCoords transform depth h1 coords with
                    | (h2, Ok coordinates) =>
                        (set_prop h2 transformed (lit "coordinates") coordinates,
                         Ok (VRef transformed))
                    | (h2, Throw e) => (h2, Throw e)
                    end
                end
            | None => (h1, Ok (VRef transformed))
            end
        end
    end.

(* --------------------------------------------------------------------- *)
(** ** File names: path.basename and path.extname (POSIX) *)
(* --------------------------------------------------------------------- *)

Definition is_slash (c : N) : bool := (c =? 47)%N.
Definition is_dot (c : N) : bool := (c =? 46)%N.

Fixpoint drop_while (p : N -> bool) (s : jsstring) : jsstring :=
  match s with
  | [] => []
  | c :: s' => if p c then drop_while p s' else s
  end.

Fixpoint take_until (p : N -> bool) (s : jsstring) : jsstring :=
  match s with
  | [] => []
  | c :: s' => if p c then [] else c :: take_until p s'
  end.

(** [path.basename(p)]: the last portion of [p], trailing slashes
    ignored. *)
Definition basename (p : jsstring) : jsstring :=
  rev (take_until is_slash (drop_while is_slash (rev p))).

(** [path.extname(p)]: from the last dot of the last portion to its end;
    empty when there is no dot, when the only dot is the first character
    of that portion, or when the portion is "..". *)
Definition extname (p : jsstring) : jsstring :=
  let base := basename p in
  let after := take_until is_dot (rev base) in
  if length after =? length base then []
  else if S (length after) =? length base then []
  else if str_eqb base (lit "..") then []
  else drop (length base - S (length after)) base.

(** [path.basename(fileName, suffix)] for a [fileName] without a slash
    (the script passes the result of [path.basename]).  The suffix is
    compared character by character, so its case matters: Node's
    documentation gives [path.basename("foo.HTML", ".html")] as
    ["foo.HTML"]. *)
Definition basename_suffix (fileName suffix : jsstring) : jsstring :=
  if str_eqb suffix [] || (length fileName <? length suffix) then basename fileName
  else if str_eqb suffix fileName then []
  else if endsWith fileName suffix then take (length fileName - length suffix) fileName
  else fileName.

(* --------------------------------------------------------------------- *)
(** ** The state of a run *)
(* --------------------------------------------------------------------- *)

(** What a run does to the outside, in order. *)
Inductive effect :=
| ESimplify (feature : value) (tolerance : float) (highQuality : bool)
| EMkdir (path : jsstring)
| EWriteFile (path : jsstring) (data : jsstring).

(** The heap, the properties the script has put on [Object.prototype]
    (see [group_file]), and the effects so far. *)
Record State := {
  heap_of : heap;
  prototype_of : props Buffer;
  effects_of : list effect;
}.

Definition initial_state : State :=
  {| heap_of := []; prototype_of := []; effects_of := [] |}.

(** A computation that reads and changes the state and may throw; the
    state changes made before a throw stay. *)
Definition M (A : Type) : Type := State -> State * result A.

#[export] Instance M_ret : MRet M := fun A a s => (s, Ok a).

#[export] Instance M_bind : MBind M := fun A B k m s =>
  match m s with
  | (s1, Ok a) => k a s1
  | (s1, Throw e) => (s1, Throw e)
  end.

Definition throw {A} (e : exn) : M A := fun s => (s, Throw e).

(** The answer of a library call. *)
Definition call {A} (r : result A) : M A := fun s => (s, r).

Definition get_heap : M heap := fun s => (s, Ok (heap_of s)).

Definition get_prototype : M (props Buffer) := fun s => (s, Ok (prototype_of s)).

Definition set_prototype (p : props Buffer) : M unit := fun s =>
  ({| heap_of := heap_of s; prototype_of := p; effects_of := effects_of s |}, Ok tt).

(** [s] with the heap [h]. *)
Definition with_heap (s : State) (h : heap) : State :=
  {| heap_of := h; prototype_of := prototype_of s; effects_of := effects_of s |}.

Definition on_heap {A} (f : heap -> heap * result A) : M A := fun s =>
  let '(h, r) := f (heap_of s) in (with_heap s h, r).

Definition new_cell (c : cell) : M value :=
  on_heap (fun h => let '(l, h1) := alloc c h in (h1, Ok (VRef l))).

Definition emit (e : effect) : M unit := fun s =>
  ({| heap_of := heap_of s; prototype_of := prototype_of s;
      effects_of := effects_of s ++ [e] |}, Ok tt).

(** [target.k = v] in a module (strict mode): only an object takes the
    property. *)
Definition assign_prop (target : value) (k : jsstring) (v : value) : M unit :=
  match target with
  | VRef l => on_heap (fun h => (set_prop h l k v, Ok tt))
  | VUndefined | VNull =>
      throw (JsTypeError (lit "Cannot set properties of undefined or null"))
  | _ => throw (JsTypeError (lit "Cannot create property on a primitive"))
  end.

(* --------------------------------------------------------------------- *)
(** ** Grouping the archive members (index.js, lines 109-124) *)
(* --------------------------------------------------------------------- *)

(** A shapefile component set: extension to contents. *)
Definition fileSet := props Buffer.

Definition SHAPE_EXTENSIONS : list jsstring :=
  [lit ".shp"; lit ".shx"; lit ".dbf"; lit ".prj"; lit ".cpg"].

(** [shapeFiles] starts as [{}], an object that inherits from
    [Object.prototype]: under these names [shapeFiles[baseName]] finds
    an inherited method, which is truthy. *)
Definition Object_prototype_methods : list jsstring :=
  [lit "constructor"; lit "__defineGetter__"; lit "__defineSetter__";
   lit "hasOwnProperty"; lit "__lookupGetter__"; lit "__lookupSetter__";
   lit "isPrototypeOf"; lit "propertyIsEnumerable"; lit "toString";
   lit "valueOf"; lit "toLocaleString"].

(** What [shapeFiles[baseName]] evaluates to. *)
Inductive found :=
| OwnFileSet (fs : fileSet)   (* an own property: a component set *)
| ThePrototype                (* [shapeFiles.__proto__], the prototype itself *)
| Inherited                   (* an inherited method or Buffer *)
| NotFound.                   (* [undefined] *)

Definition shapeFiles_get (prototype : props Buffer) (shapeFiles : props fileSet)
    (baseName : jsstring) : found :=
  match obj_lookup shapeFiles baseName with
  | Some fs => OwnFileSet fs
  | None =>
      if str_eqb baseName (lit "__proto__") then ThePrototype
      else if str_in baseName Object_prototype_methods then Inherited
      else if bool_decide (is_Some (obj_lookup prototype baseName)) then Inherited
      else NotFound
  end.

(** [fileSet[ext]]: an own property, or one inherited from the
    prototype. *)
Definition fileSet_get (prototype : props Buffer) (fs : fileSet) (ext : jsstring)
    : option Buffer :=
  match obj_lookup fs ext with
  | Some b => Some b
  | None => obj_lookup prototype ext
  end.

(** One iteration of [for (const file of files)].  The pair is
    [shapeFiles] and the properties put on [Object.prototype]. *)
Definition group_file (acc : props fileSet * props Buffer) (file : ArchiveFile)
    : props fileSet * props Buffer :=
  let '(shapeFiles, prototype) := acc in
  match extraction file with
  | None => acc
  | Some data =>
      let fileName := basename (fileHeader_name file) in
      let ext := toLowerCase (extname fileName) in
      if str_in ext SHAPE_EXTENSIONS then
        let baseName := basename_suffix fileName ext in
        match shapeFiles_get prototype shapeFiles baseName with
        | NotFound =>
            (* shapeFiles[baseName] = {}; shapeFiles[baseName][ext] = ... *)
            (obj_set shapeFiles baseName [(ext, data)], prototype)
        | OwnFileSet fs =>
            (obj_set shapeFiles baseName (obj_set fs ext data), prototype)
        | ThePrototype =>
            (shapeFiles, obj_set prototype ext data)
        | Inherited =>
            (* the property lands on a function or on a Buffer *)
            (shapeFiles, prototype)
        end
      else acc
  end.

Definition group_files (files : list ArchiveFile) (prototype : props Buffer)
    : props fileSet * props Buffer :=
  fold_left group_file files ([], prototype).

(** [fileSet[".shp"] && fileSet[".dbf"]]: a Buffer is truthy. *)
Definition is_complete (prototype : props Buffer) (fs : fileSet) : bool :=
  bool_decide (is_Some (fileSet_get prototype fs (lit ".shp"))) &&
  bool_decide (is_Some (fileSet_get prototype fs (lit ".dbf"))).

(* --------------------------------------------------------------------- *)
(** ** Converting one component set (index.js, lines 129-202) *)
(* --------------------------------------------------------------------- *)

(** [sourceCRS || UTM_ZONE_47N] on a string or [null]. *)
Definition or_default (sourceCRS : option jsstring) (fallback : jsstring) : jsstring :=
  match sourceCRS with
  | Some crs => if str_eqb crs [] then fallback else crs
  | None => fallback
  end.

(** The test that guards [simplify]; the four reads of
    [feature.geometry.type] see the same value. *)
Definition simplify_guard (type : value) : bool :=
  ENABLE_SIMPLIFY &&
  (is_string type (lit "Polygon") || is_string type (lit "MultiPolygon") ||
   is_string type (lit "LineString") || is_string type (lit "MultiLineString")).

(** [JSON.stringify(value).length] (lines 166 and 182).  Without an
    indent the text is that of [JSON.stringify(value, null, 0)].
    [JSON.stringify(undefined)] is [undefined], and reading its [length]
    throws. *)
Definition stringify_length (w : World) (h : heap) (v : value) : result nat :=
  match v with
  | VUndefined =>
      Throw (JsTypeError (lit "Cannot read properties of undefined (reading 'length')"))
  | _ =>
      match JSON_stringify w h v 0 with
      | Ok text => Ok (length text)
      | Throw e => Throw e
      end
  end.

(** The body of the read loop for one feature (lines 156-183).  The
    sums [originalSize] and [simplifiedSize] only reach the console, so
    the two lengths are computed and dropped. *)
Definition process_feature (w : World) (sourceCRS : option jsstring) (feature : value)
    : M unit :=
  h ← get_heap;
  geometry ← call (get_prop h feature (lit "geometry"));
  if truthy geometry then
    transformed ← on_heap (transformGeometry w geometry (Some (or_default sourceCRS UTM_ZONE_47N)));
    assign_prop feature (lit "geometry") transformed;;
    h ← get_heap;
    geometry ← call (get_prop h feature (lit "geometry"));
    call (stringify_length w h geometry);;
    type ← call (get_prop h geometry (lit "type"));
    (if simplify_guard type then
       emit (ESimplify feature SIMPLIFY_TOLERANCE true);;
       answer ← call (simplify w h feature SIMPLIFY_TOLERANCE true);
       simplified ← on_heap (fun h => let '(v, h1) := build answer h in (h1, Ok v));
       h ← get_heap;
       geometry ← call (get_prop h simplified (lit "geometry"));
       assign_prop feature (lit "geometry") geometry
     else mret tt);;
    h ← get_heap;
    geometry ← call (get_prop h feature (lit "geometry"));
    call (stringify_length w h geometry);;
    mret tt
  else mret tt.

(** The state with one call of [simplify] more. *)
Definition simplifying (s : State) (h : heap) (f : loc) : State :=
  {| heap_of := h; prototype_of := prototype_of s;
     effects_of := effects_of s ++ [ESimplify (VRef f) SIMPLIFY_TOLERANCE true] |}.

(** [while (!(result = await source.read()).done)]: [reads] are the
    answers still to come, [features] the array so far. *)
Fixpoint read_loop (w : World) (sourceCRS : option jsstring)
    (reads : list (result tree)) (features : list value) : M (list value) :=
  match reads with
  | [] => mret features
  | read :: reads' =>
      answer ← call read;
      feature ← on_heap (fun h => let '(v, h1) := build answer h in (h1, Ok v));
      process_feature w sourceCRS feature;;
      read_loop w sourceCRS reads' (features ++ [feature])
  end.

(** The body of [for (const [name, fileSet] of Object.entries(shapeFiles))]:
    [results] gets one more [{ name, geojson }] when the set is
    complete.  The array [features] becomes a heap cell when the
    collection that holds it is built. *)
Definition convert_set (w : World) (results : list (jsstring * value))
    (entry : jsstring * fileSet) : M (list (jsstring * value)) :=
  let '(name, fs) := entry in
  prototype ← get_prototype;
  if is_complete prototype fs then
    let sourceCRS := parsePrjFile w (fileSet_get prototype fs (lit ".prj")) in
    reads ← call (shapefile_open w
                    (default [] (fileSet_get prototype fs (lit ".shp")))
                    (default [] (fileSet_get prototype fs (lit ".dbf")))
                    (lit "tis-620"));
    features ← read_loop w sourceCRS reads [];
    features_array ← new_cell (CArray features);
    geojson ← new_cell (CObject [(lit "type", VString (lit "FeatureCollection"));
                                 (lit "features", features_array)]);
    mret (results ++ [(name, geojson)])
  else mret results.

Fixpoint convert_sets (w : World) (entries : list (jsstring * fileSet))
    (results : list (jsstring * value)) : M (list (jsstring * value)) :=
  match entries with
  | [] => mret results
  | entry :: entries' =>
      results1 ← convert_set w results entry;
      convert_sets w entries' results1
  end.

(* --------------------------------------------------------------------- *)
(** ** Writing the output (index.js, lines 204-217) *)
(* --------------------------------------------------------------------- *)

Definition do_mkdir (w : World) (path : jsstring) : M unit :=
  call (mkdir w path);; emit (EMkdir path).

Definition do_writeFile (w : World) (path data : jsstring) : M unit :=
  call (writeFile w path data);; emit (EWriteFile path data).

(** [for (const { name, geojson } of results) combined[name] = geojson]. *)
Definition combine (results : list (jsstring * value)) : props value :=
  fold_left (fun combined '(name, geojson) => obj_set combined name geojson) results [].

Definition write_output (w : World) (outputJsonPath : jsstring)
    (results : list (jsstring * value)) : M unit :=
  match results with
  | [(_, geojson)] =>
      h ← get_heap;
      data ← call (JSON_stringify w h geojson 2);
      do_writeFile w outputJsonPath data
  | _ =>
      combined ← new_cell (CObject (combine results));
      h ← get_heap;
      data ← call (JSON_stringify w h combined 2);
      do_writeFile w outputJsonPath data
  end.

(* --------------------------------------------------------------------- *)
(** ** extractRarAndConvert (index.js, lines 79-224) *)
(* --------------------------------------------------------------------- *)

(** Lines 81-95: the archive bytes, fetched or read from a local file. *)
Definition load_archive (w : World) (rarPath : jsstring) : M Buffer :=
  if startsWith rarPath (lit "http://") || startsWith rarPath (lit "https://") then
    response ← call (fetch w rarPath);
    if negb (resp_ok response) then
      throw (JsError (lit "HTTP error! status: " ++ number_toString (resp_status response)))
    else call (resp_arrayBuffer response)
  else call (readFile w rarPath).

(** Lines 97-202: everything before the output is written; the result
    is the array [results]. *)
Definition convert_archive (w : World) (rarPath : jsstring) : M (list (jsstring * value)) :=
  rarData ← load_archive w rarPath;
  extracted ← call (createExtractorFromData w rarData);
  do_mkdir w (lit "./temp_extracted");;
  files ← call extracted;
  prototype ← get_prototype;
  let '(shapeFiles, prototype1) := group_files files prototype in
  set_prototype prototype1;;
  convert_sets w shapeFiles [].

(** [try { body } catch (error) { handler }]. *)
Definition try_catch {A} (body : M A) (handler : exn -> M A) : M A := fun s =>
  match body s with
  | (s1, Ok a) => (s1, Ok a)
  | (s1, Throw error) => handler error s1
  end.

(** The whole body is a [try] block; the [catch] block logs the error
    and throws it again. *)
Definition extractRarAndConvert (w : World) (rarPath outputJsonPath : jsstring) : M unit :=
  try_catch
    (results ← convert_archive w rarPath;
     write_output w outputJsonPath results)
    (fun error => throw error).

(* --------------------------------------------------------------------- *)
(** ** batchConvert (index.js, lines 227-260) *)
(* --------------------------------------------------------------------- *)

Record Source := {
  url : jsstring;
  outputPath : jsstring;
}.

(** An element of the array [batchConvert] returns:
    [{ url, outputPath, status: "success" }] (no [error] property) or
    [{ url, outputPath, status: "failed", error: error.message }]. *)
Record Outcome := {
  outcome_url : jsstring;
  outcome_outputPath : jsstring;
  status : jsstring;
  error : option value;
}.

(** The body of the [for] loop: [try] the conversion and push a success,
    [catch] what it throws and push a failure.  [results] is the array
    so far. *)
Definition batch_step (w : World) (results : list Outcome) (source : Source)
    : M (list Outcome) :=
  try_catch
    (extractRarAndConvert w (url source) (outputPath source);;
     mret (results ++ [{| outcome_url := url source;
                          outcome_outputPath := outputPath source;
                          status := lit "success";
                          error := None |}]))
    (fun error =>
       mret (results ++ [{| outcome_url := url source;
                            outcome_outputPath := outputPath source;
                            status := lit "failed";
                            error := Some (message error) |}])).

Fixpoint batch_loop (w : World) (sources : list Source) (results : list Outcome)
    : M (list Outcome) :=
  match sources with
  | [] => mret results
  | source :: sources' =>
      results1 ← batch_step w results source;
      batch_loop w sources' results1
  end.

(** [batchConvert(sources)]: the loop from an empty array, then the
    summary on the console, then [return results]. *)
Definition batchConvert (w : World) (sources : list Source) : M (list Outcome) :=
  batch_loop w sources [].

(* --------------------------------------------------------------------- *)
(** ** Notions the statements use *)
(* --------------------------------------------------------------------- *)

(** [pat] occurs in [text]. *)
Definition contains (text pat : jsstring) : Prop :=
  exists pre post, text = pre ++ pat ++ post.

(** A coordinate position: an array whose first two elements are
    numbers. *)
Definition is_position (h : heap) (v : value) : bool :=
  match v with
  | VRef l =>
      match h !! l with
      | Some (CArray (VNumber _ :: VNumber _ :: _)) => true
      | _ => false
      end
  | _ => false
  end.

(** [v] is nested [depth] levels of arrays above positions: a position
    at depth 0, an array of values nested at [depth - 1] above. *)
Fixpoint nested (depth : nat) (h : heap) (v : value) : bool :=
  match depth with
  | 0 => is_position h v
  | S d =>
      match v with
      | VRef l =>
          match h !! l with
          | Some (CArray elems) => forallb (nested d h) elems
          | _ => false
          end
      | _ => false
      end
  end.

Definition cell_values (c : cell) : list value :=
  match c with
  | CObject ps => map snd ps
  | CArray elems => elems
  end.

(** [v] is no reference, or a reference to an allocated cell. *)
Definition allocated (h : heap) (v : value) : bool :=
  match v with
  | VRef l => l <? length h
  | _ => true
  end.

(** Every reference stored in the heap is allocated. *)
Definition heap_closed (h : heap) : bool :=
  forallb (fun c => forallb (allocated h) (cell_values c)) h.

(** [forward] hands back an array for [v], in every heap that extends
    [h]. *)
Definition accepts (transform : converter) (h : heap) (v : value) : Prop :=
  forall h', h `prefix_of` h' -> exists out, transform h' v = Ok (FwdArray out).

(** [v] is nested [depth] levels of arrays above values that [forward]
    accepts. *)
Fixpoint accepted (transform : converter) (depth : nat) (h : heap) (v : value) : Prop :=
  match depth with
  | 0 => accepts transform h v
  | S d =>
      exists l elems,
        v = VRef l /\ h !! l = Some (CArray elems) /\ Forall (accepted transform d h) elems
  end.

(** proj4 checks what [forward] is given (its [checkSanity] throws
    "coordinates must be finite numbers"): it hands back an array only
    for an array that starts with two numbers. *)
Definition proj4_checks_coordinates (w : World) : Prop :=
  forall from to transform h v elems,
    proj4 w from to = Ok transform ->
    transform h v = Ok (FwdArray elems) ->
    is_position h v = true.

(** *** States and what a computation keeps *)

(** Every cell of [h0] is in [h], unchanged. *)
Definition keeps (h0 h : heap) : Prop :=
  forall l c, h0 !! l = Some c -> h !! l = Some c.

(** [v], if a reference, is none of the cells of [h0]. *)
Definition outside (h0 : heap) (v : value) : Prop :=
  forall l, v = VRef l -> length h0 <= l.

(** [m] takes every state to one related to it by [R]. *)
Definition respects (R : relation State) {A} (m : M A) : Prop :=
  forall s, R s (m s).1.

(** The effects are as before. *)
Definition same_effects : relation State :=
  fun s s' => effects_of s' = effects_of s.

(** The properties put on [Object.prototype] are as before. *)
Definition same_prototype : relation State :=
  fun s s' => prototype_of s' = prototype_of s.

(** The cells of [h0], if they were kept so far, are kept. *)
Definition keeping (h0 : heap) : relation State :=
  fun s s' => keeps h0 (heap_of s) -> keeps h0 (heap_of s').

(** [v] is a FeatureCollection object:
    [{ type: "FeatureCollection", features: [...] }]. *)
Definition is_feature_collection (h : heap) (v : value) : Prop :=
  exists g a features,
    v = VRef g /\
    h !! g = Some (CObject [(lit "type", VString (lit "FeatureCollection"));
                            (lit "features", VRef a)]) /\
    h !! a = Some (CArray features).


(** *** The sets of an archive and the outcome of a source *)

(** The component sets of an archive and what they put on the
    prototype. *)
Definition archive_sets (files : list ArchiveFile) (s : State)
    : list (jsstring * fileSet) * props Buffer :=
  group_files files (prototype_of s).

(** The sets that get converted: those for which
    [fileSet[".shp"] && fileSet[".dbf"]] holds. *)
Definition complete_sets (files : list ArchiveFile) (s : State) : list (jsstring * fileSet) :=
  filter (fun e => is_complete (archive_sets files s).2 e.2 = true) (archive_sets files s).1.

(** The outcome [batchConvert] pushes for a source. *)
Definition outcome_of (source : Source) (r : result unit) : Outcome :=
  match r with
  | Ok _ =>
      {| outcome_url := url source; outcome_outputPath := outputPath source;
         status := lit "success"; error := None |}
  | Throw e =>
      {| outcome_url := url source; outcome_outputPath := outputPath source;
         status := lit "failed"; error := Some (message e) |}
  end.


(* --------------------------------------------------------------------- *)
(** ** A sample world, for the examples *)
(* --------------------------------------------------------------------- *)

Definition is_finite (x : float) : bool :=
  negb (PrimFloat.is_nan x || PrimFloat.is_infinity x).

(** A stand-in for [forward]: it checks its argument like proj4 does and
    scales the first two coordinates. *)
Definition sample_forward : converter := fun h v =>
  match v with
  | VRef l =>
      match h !! l with
      | Some (CArray (VNumber x :: VNumber y :: rest)) =>
          if is_finite x && is_finite y then
            Ok (FwdArray (VNumber (x / 100000) :: VNumber (y / 100000) :: rest))
          else Throw (JsTypeError (lit "coordinates must be finite numbers"))
      | Some (CObject ps) =>
          match obj_lookup ps (lit "x"), obj_lookup ps (lit "y") with
          | Some (VNumber x), Some (VNumber y) =>
              if is_finite x && is_finite y then Ok FwdObject
              else Throw (JsTypeError (lit "coordinates must be finite numbers"))
          | _, _ => Throw (JsTypeError (lit "coordinates must be finite numbers"))
          end
      | _ => Throw (JsTypeError (lit "coordinates must be finite numbers"))
      end
  | _ => Throw (JsTypeError (lit "coordinates must be finite numbers"))
  end.

(** A stand-in for [proj4]: it knows the three definitions the script
    names and rejects any other text. *)
Definition sample_proj4 (from to : jsstring) : result converter :=
  let known crs := str_eqb crs UTM_ZONE_47N || str_eqb crs UTM_ZONE_48N || str_eqb crs WGS84 in
  if negb (known from) then Throw (JsString (lit "Could not parse to valid json: " ++ from))
  else if negb (known to) then Throw (JsString (lit "Could not parse to valid json: " ++ to))
  else Ok sample_forward.

(** Decodes ASCII bytes. *)
Definition sample_toString (b : Buffer) : jsstring := map Byte.to_N b.

Definition bytes_of (s : string) : Buffer := list_byte_of_string s.

(** A stand-in for [JSON.stringify]: compact, strings unescaped, numbers
    not printed; an object without properties gives "{}". *)
Definition quote : jsstring := [34%N].

Fixpoint sample_stringify_value (fuel : nat) (h : heap) (v : value) : jsstring :=
  match fuel with
  | 0 => lit "null"
  | S fuel' =>
      match v with
      | VUndefined | VNull => lit "null"
      | VBool b => if b then lit "true" else lit "false"
      | VNumber _ => lit "0"
      | VString s => quote ++ s ++ quote
      | VRef l =>
          match deref h l with
          | CArray elems =>
              lit "[" ++ concat (map (fun v => sample_stringify_value fuel' h v ++ lit ",") elems)
                  ++ lit "]"
          | CObject ps =>
              lit "{" ++ concat (map (fun '(k, v) =>
                                        quote ++ k ++ quote ++ lit ":" ++
                                        sample_stringify_value fuel' h v ++ lit ",") ps)
                  ++ lit "}"
          end
      end
  end.

Definition sample_stringify (h : heap) (v : value) (indent : N) : result jsstring :=
  Ok (sample_stringify_value 8 h v).

(** Sample features, as the shapefile reader builds them. *)
Definition sample_geometry (type : string) (coordinates : tree) : tree :=
  TObject [(lit "type", TString (lit type)); (lit "coordinates", coordinates)].

Definition sample_feature (geometry : tree) : tree :=
  TObject [(lit "type", TString (lit "Feature"));
           (lit "properties", TObject [(lit "NAME", TString (lit "x"))]);
           (lit "geometry", geometry)].

Definition sample_point : tree :=
  sample_geometry "Point" (TArray [TNumber 600000; TNumber 1500000]).

Definition sample_line : tree :=
  sample_geometry "LineString"
    (TArray [TArray [TNumber 600000; TNumber 1500000];
             TArray [TNumber 600100; TNumber 1500100]]).

(** A sample shapefile reader: the bytes of the .shp member name what it
    holds. *)
Definition sample_shapefile_open (shp dbf : Buffer) (encoding : jsstring)
    : result (list (result tree)) :=
  if bool_decide (shp = bytes_of "points") then
    Ok [Ok (sample_feature sample_point); Ok (sample_feature TNull)]
  else if bool_decide (shp = bytes_of "lines") then
    Ok [Ok (sample_feature sample_line)]
  else if bool_decide (shp = bytes_of "truncated") then
    Ok [Ok (sample_feature sample_point); Throw (JsError (lit "unexpected end of file"))]
  else Throw (JsError (lit "unsupported shape type")).

Definition sample_simplify (h : heap) (feature : value) (tolerance : float)
    (highQuality : bool) : result tree :=
  match get_prop h feature (lit "geometry") with
  | Ok g =>
      match get_prop h g (lit "type") with
      | Ok (VString type) =>
          Ok (TObject [(lit "type", TString (lit "Feature"));
                       (lit "geometry",
                        TObject [(lit "type", TString type); (lit "coordinates", TArray [])])])
      | _ => Throw (JsError (lit "invalid geometry"))
      end
  | Throw e => Throw e
  end.

Definition member (name contents : string) : ArchiveFile :=
  {| fileHeader_name := lit name; extraction := Some (bytes_of contents) |}.

(** Sample archives: the bytes name the members. *)
Definition sample_extract (data : Buffer) : result (result (list ArchiveFile)) :=
  if bool_decide (data = bytes_of "one") then
    Ok (Ok [member "soil/a.shp" "points"; member "soil/a.dbf" "rows";
            member "soil/a.prj" "PROJCS[WGS_1984_UTM_Zone_48N]"; member "soil/b.shx" "index"])
  else if bool_decide (data = bytes_of "two") then
    Ok (Ok [member "a.shp" "points"; member "a.dbf" "rows";
            member "b.shp" "lines"; member "b.dbf" "rows"])
  else if bool_decide (data = bytes_of "upper") then
    Ok (Ok [member "A.SHP" "points"; member "A.DBF" "rows"])
  else if bool_decide (data = bytes_of "none") then
    Ok (Ok [member "readme.txt" "hello"; member "b.shx" "index";
            {| fileHeader_name := lit "soil"; extraction := None |}])
  else if bool_decide (data = bytes_of "truncated") then
    Ok (Ok [member "t.shp" "truncated"; member "t.dbf" "rows"])
  else Throw (JsError (lit "not a RAR archive")).

(** A sample server: five archives, anything else is a 404. *)
Definition sample_response (data : string) : result Response :=
  Ok {| resp_ok := true; resp_status := 200; resp_arrayBuffer := Ok (bytes_of data) |}.

Definition sample_fetch (url : jsstring) : result Response :=
  if str_eqb url (lit "https://example.org/one.rar") then sample_response "one"
  else if str_eqb url (lit "https://example.org/two.rar") then sample_response "two"
  else if str_eqb url (lit "https://example.org/upper.rar") then sample_response "upper"
  else if str_eqb url (lit "https://example.org/none.rar") then sample_response "none"
  else if str_eqb url (lit "https://example.org/truncated.rar") then sample_response "truncated"
  else Ok {| resp_ok := false; resp_status := 404;
             resp_arrayBuffer := Throw (JsError (lit "body unavailable")) |}.

Definition sample_world : World := {|
  Buffer_toString := sample_toString;
  proj4 := sample_proj4;
  fetch := sample_fetch;
  readFile := fun _ => Throw (JsError (lit "ENOENT: no such file or directory"));
  createExtractorFromData := sample_extract;
  mkdir := fun _ => Ok tt;
  shapefile_open := sample_shapefile_open;
  simplify := sample_simplify;
  JSON_stringify := sample_stringify;
  writeFile := fun _ _ => Ok tt;
|}.

Definition sample_source (name : string) : Source :=
  {| url := lit "https://example.org/" ++ lit name ++ lit ".rar";
     outputPath := lit "output/" ++ lit name ++ lit ".json" |}.

(** A line string in the heap, and a geometry that says "Point" above
    the coordinates of a line string. *)
Definition sample_line_heap : heap := snd (build sample_line []).
Definition sample_line_ref : loc := 3.

Definition sample_broken_point : tree :=
  sample_geometry "Point"
    (TArray [TArray [TNumber 600000; TNumber 1500000];
             TArray [TNumber 600100; TNumber 1500100]]).

Definition sample_broken_heap : heap := snd (build sample_broken_point []).

(** A geometry collection: a kind the [switch] has no case for. *)
Definition sample_collection_heap : heap :=
  [CObject [(lit "type", VString (lit "GeometryCollection")); (lit "geometries", VNull)]].

(** A world whose [forward] hands back an empty array whatever it is
    given. *)
Definition unchecked_world : World := {|
  Buffer_toString := sample_toString;
  proj4 := fun _ _ => Ok (fun _ _ => Ok (FwdArray []));
  fetch := sample_fetch;
  readFile := fun _ => Throw (JsError (lit "ENOENT: no such file or directory"));
  createExtractorFromData := sample_extract;
  mkdir := fun _ => Ok tt;
  shapefile_open := sample_shapefile_open;
  simplify := sample_simplify;
  JSON_stringify := sample_stringify;
  writeFile := fun _ _ => Ok tt;
|}.

(** A feature with a line string, as a read leaves it in the heap: the
    feature is cell 5 and its geometry cell 4. *)
Definition sample_feature_state : State :=
  {| heap_of := snd (build (sample_feature sample_line) []);
     prototype_of := [];
     effects_of := [] |}.

(** Archives with upper-case extensions, with the name of an inherited
    method, and with the name "__proto__". *)
Definition upper_case_files : list ArchiveFile :=
  [member "SOIL.SHP" "points"; member "SOIL.DBF" "rows"].

Definition lower_case_files : list ArchiveFile :=
  [member "soil.shp" "points"; member "soil.dbf" "rows"].

Definition inherited_name_files : list ArchiveFile :=
  [member "constructor.shp" "points"; member "constructor.dbf" "rows"].

Definition proto_name_files : list ArchiveFile :=
  [member "__proto__.shp" "points"; member "__proto__.dbf" "rows"; member "b.shx" "index"].

(** A batch whose second source is answered 404. *)
Definition sample_before : list Source := [sample_source "two"].
Definition sample_failing : Source := sample_source "missing".
Definition sample_after : list Source := [sample_source "none"].

(** The members of the specification's grouping example. *)
Definition example_files : list ArchiveFile :=
  [member "a.shp" "points"; member "a.dbf" "rows";
   member "a.prj" "PROJCS[WGS_1984_UTM_Zone_47N]"; member "b.shx" "index"].

(* --------------------------------------------------------------------- *)
(** ** The top level of index.js (lines 266-286) *)
(* --------------------------------------------------------------------- *)

Definition sources : list Source :=
  [{| url := lit "https://tswc.ldd.go.th/DownloadGIS/web_Soilgroup/DataSoilgroup/E/sg_pri.rar";
      outputPath := lit "output/soilgroup_pri.json" |};
   {| url := lit "https://tswc.ldd.go.th/DownloadGIS/web_Soilgroup/DataSoilgroup/C/sg_sbr.rar";
      outputPath := lit "output/soilgroup_sbr.json" |};
   {| url := lit "https://tswc.ldd.go.th/DownloadGIS/web_Soilgroup/DataSoilgroup/S/sg_plg.rar";
      outputPath := lit "output/soilgroup_plg.json" |};
   {| url := lit "https://tswc.ldd.go.th/DownloadGIS/web_Soilgroup/DataSoilgroup/N/sg_nan.rar";
      outputPath := lit "output/soilgroup_nan.json" |}].

(** [await mkdir("./output", { recursive: true }); batchConvert(sources);]
    The array the call resolves to is dropped. *)
Definition main (w : World) : M unit :=
  do_mkdir w (lit "./output");;
  batchConvert w sources;;
  mret tt.

(* --------------------------------------------------------------------- *)
(** ** The variant [src/unnamed/part_000] *)
(* --------------------------------------------------------------------- *)

(** Where the variant differs from [src/index.js]: the archive is always
    fetched, the read loop keeps no size statistics (so the two
    [JSON.stringify(feature.geometry).length] are not there to throw),
    the sources are computed from the object [soilgroup], and the batch
    loop is the top level of the module.  [parsePrjFile],
    [transformGeometry], the grouping loop and the output are the same
    code. *)
Module Part000.

(** Lines 79-85: the download. *)
Definition load_archive (w : World) (rarPath : jsstring) : M Buffer :=
  response ← call (fetch w rarPath);
  if negb (resp_ok response) then
    throw (JsError (lit "HTTP error! status: " ++ number_toString (resp_status response)))
  else call (resp_arrayBuffer response).

(** Lines 139-162: the body of the read loop for one feature.  The
    variant keeps no size statistics. *)
Definition process_feature (w : World) (sourceCRS : option jsstring) (feature : value)
    : M unit :=
  h ← get_heap;
  geometry ← call (get_prop h feature (lit "geometry"));
  if truthy geometry then
    transformed ← on_heap (transformGeometry w geometry (Some (or_default sourceCRS UTM_ZONE_47N)));
    assign_prop feature (lit "geometry") transformed;;
    h ← get_heap;
    geometry ← call (get_prop h feature (lit "geometry"));
    type ← call (get_prop h geometry (lit "type"));
    if simplify_guard type then
      emit (ESimplify feature SIMPLIFY_TOLERANCE true);;
      answer ← call (simplify w h feature SIMPLIFY_TOLERANCE true);
      simplified ← on_heap (fun h => let '(v, h1) := build answer h in (h1, Ok v));
      h ← get_heap;
      geometry ← call (get_prop h simplified (lit "geometry"));
      assign_prop feature (lit "geometry") geometry
    else mret tt
  else mret tt.

(** Lines 138-166: the read loop. *)
Fixpoint read_loop (w : World) (sourceCRS : option jsstring)
    (reads : list (result tree)) (features : list value) : M (list value) :=
  match reads with
  | [] => mret features
  | read :: reads' =>
      answer ← call read;
      feature ← on_heap (fun h => let '(v, h1) := build answer h in (h1, Ok v));
      process_feature w sourceCRS feature;;
      read_loop w sourceCRS reads' (features ++ [feature])
  end.

(** Lines 119-175: the body of the loop over
    [Object.entries(shapeFiles)]. *)
Definition convert_set (w : World) (results : list (jsstring * value))
    (entry : jsstring * fileSet) : M (list (jsstring * value)) :=
  let '(name, fs) := entry in
  prototype ← get_prototype;
  if is_complete prototype fs then
    let sourceCRS := parsePrjFile w (fileSet_get prototype fs (lit ".prj")) in
    reads ← call (shapefile_open w
                    (default [] (fileSet_get prototype fs (lit ".shp")))
                    (default [] (fileSet_get prototype fs (lit ".dbf")))
                    (lit "tis-620"));
    features ← read_loop w sourceCRS reads [];
    features_array ← new_cell (CArray features);
    geojson ← new_cell (CObject [(lit "type", VString (lit "FeatureCollection"));
                                 (lit "features", features_array)]);
    mret (results ++ [(name, geojson)])
  else mret results.

Fixpoint convert_sets (w : World) (entries : list (jsstring * fileSet))
    (results : list (jsstring * value)) : M (list (jsstring * value)) :=
  match entries with
  | [] => mret results
  | entry :: entries' =>
      results1 ← convert_set w results entry;
      convert_sets w entries' results1
  end.

(** Lines 77-175: everything before the output is written. *)
Definition convert_archive (w : World) (rarPath : jsstring) : M (list (jsstring * value)) :=
  rarData ← load_archive w rarPath;
  extracted ← call (createExtractorFromData w rarData);
  do_mkdir w (lit "./temp_extracted");;
  files ← call extracted;
  prototype ← get_prototype;
  let '(shapeFiles, prototype1) := group_files files prototype in
  set_prototype prototype1;;
  convert_sets w shapeFiles [].

(** Lines 75-195. *)
Definition extractRarAndConvert (w : World) (rarPath outputJsonPath : jsstring) : M unit :=
  try_catch
    (results ← convert_archive w rarPath;
     write_output w outputJsonPath results)
    (fun error => throw error).

(** Lines 197-275: the object [soilgroup]; every entry but the last is
    commented out. *)
Definition soilgroup : props jsstring := [(lit "S/sg_stn", lit "satun")].

(** Lines 277-284: the function given to
    [Object.entries(soilgroup).map]. *)
Definition source_of (entry : jsstring * jsstring) : Source :=
  let '(code, provinceSlug) := entry in
  {| url := lit "https://tswc.ldd.go.th/DownloadGIS/web_Soilgroup/DataSoilgroup/"
              ++ code ++ lit ".rar";
     outputPath := lit "output/" ++ provinceSlug ++ lit ".json" |}.

Definition sources_of (soilgroup : props jsstring) : list Source := map source_of soilgroup.

Definition sources : list Source := sources_of soilgroup.

(** Lines 292-309: the body of the [for] loop. *)
Definition batch_step (w : World) (results : list Outcome) (source : Source)
    : M (list Outcome) :=
  try_catch
    (extractRarAndConvert w (url source) (outputPath source);;
     mret (results ++ [{| outcome_url := url source;
                          outcome_outputPath := outputPath source;
                          status := lit "success";
                          error := None |}]))
    (fun error =>
       mret (results ++ [{| outcome_url := url source;
                            outcome_outputPath := outputPath source;
                            status := lit "failed";
                            error := Some (message error) |}])).

Fixpoint batch_loop (w : World) (sources : list Source) (results : list Outcome)
    : M (list Outcome) :=
  match sources with
  | [] => mret results
  | source :: sources' =>
      results1 ← batch_step w results source;
      batch_loop w sources' results1
  end.

(** Lines 286-313: the top level, for the sources computed from a
    [soilgroup] object; the result is the array [results]. *)
Definition main_of (w : World) (soilgroup : props jsstring) : M (list Outcome) :=
  do_mkdir w (lit "./output");;
  batch_loop w (sources_of soilgroup) [].

Definition main (w : World) : M (list Outcome) := main_of w soilgroup.

End Part000.

(* --------------------------------------------------------------------- *)
(** ** More notions the statements use *)
(* --------------------------------------------------------------------- *)

(** [v'] repeats the nesting of [v], [depth] levels of arrays with the
    same numbers of elements, in cells that [h] does not have; at the
    bottom, where [v] was handed to [forward] (in a heap [h0] that
    extends [h]), [v'] is an array of exactly the first two elements
    handed back. *)
Fixpoint reshaped (transform : converter) (depth : nat) (h h' : heap) (v v' : value) : Prop :=
  match depth with
  | 0 =>
      exists l' h0 out,
        v' = VRef l' /\ h !! l' = None /\
        h `prefix_of` h0 /\ transform h0 v = Ok (FwdArray out) /\
        h' !! l' = Some (CArray [nth 0 out VUndefined; nth 1 out VUndefined])
  | S d =>
      exists l elems l' elems',
        v = VRef l /\ h' !! l = Some (CArray elems) /\
        v' = VRef l' /\ h !! l' = None /\ h' !! l' = Some (CArray elems') /\
        Forall2 (reshaped transform d h h') elems elems'
  end.

(** What the grouping loop takes from a member: the base name, the
    lower-cased extension and the contents; nothing from a member
    without contents or with another extension. *)
Definition member_entry (file : ArchiveFile) : option (jsstring * jsstring * Buffer) :=
  match extraction file with
  | None => None
  | Some data =>
      let fileName := basename (fileHeader_name file) in
      let ext := toLowerCase (extname fileName) in
      if str_in ext SHAPE_EXTENSIONS then Some (basename_suffix fileName ext, ext, data)
      else None
  end.

(** The contents of the last member whose base name is [baseName] and
    whose extension is [ext]. *)
Definition last_entry (files : list ArchiveFile) (baseName ext : jsstring) : option Buffer :=
  last (omap (fun file =>
                match member_entry file with
                | Some (b, e, data) => if str_eqb b baseName && str_eqb e ext then Some data else None
                | None => None
                end) files).

(** [shapeFiles[baseName][ext]] on own properties. *)
Definition shapeFiles_lookup (shapeFiles : props fileSet) (baseName ext : jsstring)
    : option Buffer :=
  match obj_lookup shapeFiles baseName with
  | Some fs => obj_lookup fs ext
  | None => None
  end.

(** A base name under which an object without own properties has
    nothing. *)
Definition ordinary (prototype : props Buffer) (baseName : jsstring) : Prop :=
  shapeFiles_get prototype [] baseName = NotFound.

(** The member, moved to the top directory. *)
Definition flatten (file : ArchiveFile) : ArchiveFile :=
  {| fileHeader_name := basename (fileHeader_name file); extraction := extraction file |}.

(** [c'] is [c] but for its property [k]. *)
Definition same_but (k : jsstring) (c c' : cell) : Prop :=
  match c, c' with
  | CObject ps, CObject ps' => forall k', k' <> k -> obj_lookup ps' k' = obj_lookup ps k'
  | CArray elems, CArray elems' => elems' = elems
  | _, _ => False
  end.

(** Every cell of the first heap is in the second; cell [f] is the same
    but for its property [k], the others are unchanged. *)
Definition reassigning (f : loc) (k : jsstring) : relation State :=
  fun s s' =>
    forall l c, heap_of s !! l = Some c ->
      exists c', heap_of s' !! l = Some c' /\ (l <> f -> c' = c) /\ same_but k c c'.

(** The files written, path and data, in order. *)
Definition writes (effects : list effect) : list (jsstring * jsstring) :=
  omap (fun e => match e with EWriteFile path data => Some (path, data) | _ => None end) effects.

(** A call of [simplify]. *)
Definition is_simplify (e : effect) : Prop :=
  match e with
  | ESimplify _ _ _ => True
  | _ => False
  end.

(** Effects are added, each of them one that [P] allows. *)
Definition adding (P : effect -> Prop) : relation State :=
  fun s s' => exists added, effects_of s' = effects_of s ++ added /\ Forall P added.

(** The outcomes recorded as a success. *)
Definition succeeded (outcomes : list Outcome) : list Outcome :=
  filter (fun o => status o = lit "success") outcomes.

(** What the members with the base name "__proto__" bring: extension
    and contents, in order. *)
Definition proto_entries (files : list ArchiveFile) : list (jsstring * Buffer) :=
  omap (fun file =>
          match member_entry file with
          | Some (b, e, data) => if str_eqb b (lit "__proto__") then Some (e, data) else None
          | None => None
          end) files.

(** The member is taken by the loop and its base name is the name of a
    method of [Object.prototype]. *)
Definition method_named (file : ArchiveFile) : bool :=
  match member_entry file with
  | Some (b, _, _) => str_in b Object_prototype_methods
  | None => false
  end.

(** A path the script takes for a URL (index.js, line 84). *)
Definition is_url (rarPath : jsstring) : bool :=
  startsWith rarPath (lit "http://") || startsWith rarPath (lit "https://").

(* --------------------------------------------------------------------- *)
(** ** More sample data *)
(* --------------------------------------------------------------------- *)

(** The two members of one set in two directories, and at the top. *)
Definition scattered_files : list ArchiveFile :=
  [member "soil/a.shp" "points"; member "data/a.dbf" "rows"].

Definition gathered_files : list ArchiveFile :=
  [member "a.shp" "points"; member "a.dbf" "rows"].

(** A complete set without a .prj member. *)
Definition sample_fileSet : fileSet :=
  [(lit ".shp", bytes_of "points"); (lit ".dbf", bytes_of "rows")].

(** A feature without a geometry, as a read leaves it in the heap: the
    feature is cell 1. *)
Definition sample_null_state : State :=
  {| heap_of := snd (build (sample_feature TNull) []);
     prototype_of := [];
     effects_of := [] |}.

(** A set named after a method, for the examples. *)
Definition method_named_files : list ArchiveFile :=
  [member "toString.shp" "points"; member "a.shp" "points";
   member "toString.dbf" "rows"; member "a.dbf" "rows"].

(** A world in which [simplify] hands back a feature that has no
    [geometry]. *)
Definition bare_simplify_world : World := {|
  Buffer_toString := sample_toString;
  proj4 := sample_proj4;
  fetch := sample_fetch;
  readFile := fun _ => Throw (JsError (lit "ENOENT: no such file or directory"));
  createExtractorFromData := sample_extract;
  mkdir := fun _ => Ok tt;
  shapefile_open := sample_shapefile_open;
  simplify := fun _ _ _ _ => Ok (TObject [(lit "type", TString (lit "Feature"))]);
  JSON_stringify := sample_stringify;
  writeFile := fun _ _ => Ok tt;
|}.

(** A world with one archive more, [unreadable.rar]: a set of points
    whose .prj holds a text without any of the markers, and that proj4
    cannot read. *)
Definition unreadable_files : list ArchiveFile :=
  [member "a.shp" "points"; member "a.dbf" "rows"; member "a.prj" "not a projection"].

Definition unreadable_world : World := {|
  Buffer_toString := sample_toString;
  proj4 := sample_proj4;
  fetch := fun url =>
    if str_eqb url (lit "https://example.org/unreadable.rar") then sample_response "unreadable"
    else sample_fetch url;
  readFile := fun _ => Throw (JsError (lit "ENOENT: no such file or directory"));
  createExtractorFromData := fun data =>
    if bool_decide (data = bytes_of "unreadable") then Ok (Ok unreadable_files)
    else sample_extract data;
  mkdir := fun _ => Ok tt;
  shapefile_open := sample_shapefile_open;
  simplify := sample_simplify;
  JSON_stringify := sample_stringify;
  writeFile := fun _ _ => Ok tt;
|}.

(** A batch whose second source is that archive. *)
Definition unreadable_sources : list Source :=
  [sample_source "two"; sample_source "unreadable"; sample_source "none"].

(* ===================================================================== *)
(** * Part II: properties *)
(* ===================================================================== *)

(* --------------------------------------------------------------------- *)
(** ** Strings *)
(* --------------------------------------------------------------------- *)

Lemma str_eqb_eq (s t : jsstring) : str_eqb s t = true <-> s = t.
Proof. unfold str_eqb. by rewrite bool_decide_eq_true. Qed.

Lemma str_eqb_neq (s t : jsstring) : str_eqb s t = false <-> s <> t.
Proof. unfold str_eqb. by rewrite bool_decide_eq_false. Qed.

Lemma startsWith_prefix (text pat : jsstring) :
  startsWith text pat = true <-> exists post, text = pat ++ post.
Proof.
  revert text. induction pat as [|p pat IH]; intros text; simpl.
  - split; [intros _; by exists text | done].
  - destruct text as [|c text].
    + split; [done | intros [post Hpost]; discriminate].
    + rewrite andb_true_iff, N.eqb_eq, IH. split.
      * intros [-> [post ->]]. by exists post.
      * intros [post Hpost]. injection Hpost as -> ->. eauto.
Qed.

(** [includes] decides [contains]. *)
Lemma includes_contains (text pat : jsstring) :
  includes text pat = true <-> contains text pat.
Proof.
  unfold contains. induction text as [|c text IH]; simpl.
  - rewrite orb_false_r, startsWith_prefix. split.
    + intros [post Hpost]. by exists [], post.
    + intros (pre & post & Heq).
      destruct pre; [by exists post | discriminate].
  - rewrite orb_true_iff, startsWith_prefix, IH. split.
    + intros [[post Hpost] | (pre & post & ->)].
      * by exists [], post.
      * by exists (c :: pre), post.
    + intros (pre & post & Heq). destruct pre as [|c' pre]; simpl in Heq.
      * left. by exists post.
      * right. injection Heq as -> ->. by exists pre, post.
Qed.

Lemma includes_not_contains (text pat : jsstring) :
  includes text pat = false <-> ~ contains text pat.
Proof. rewrite <- includes_contains. by destruct (includes text pat). Qed.

(* --------------------------------------------------------------------- *)
(** ** Property assignment *)
(* --------------------------------------------------------------------- *)

Section Properties.

Context {A : Type}.
Implicit Types (ps : props A) (k : jsstring) (v : A).

Lemma obj_lookup_app ps1 ps2 k :
  obj_lookup (ps1 ++ ps2) k =
  match obj_lookup ps1 k with Some v => Some v | None => obj_lookup ps2 k end.
Proof.
  induction ps1 as [|[k1 v1] ps1 IH]; simpl; [done |].
  by destruct (str_eqb k1 k).
Qed.

Lemma obj_lookup_replace ps k v k' :
  obj_lookup (obj_replace ps k v) k' =
  if str_eqb k k' then match obj_lookup ps k with Some _ => Some v | None => None end
  else obj_lookup ps k'.
Proof.
  induction ps as [|[k1 v1] ps IH]; simpl.
  - by destruct (str_eqb k k').
  - destruct (str_eqb k1 k) eqn:E1; simpl.
    + apply str_eqb_eq in E1 as ->. by destruct (str_eqb k k').
    + rewrite IH. destruct (str_eqb k k') eqn:E2; [|done].
      apply str_eqb_eq in E2 as <-. by rewrite E1.
Qed.

Lemma obj_lookup_insert_index ps n k v k' :
  obj_lookup ps k = None ->
  obj_lookup (obj_insert_index ps n k v) k' =
  if str_eqb k k' then Some v else obj_lookup ps k'.
Proof.
  induction ps as [|[k1 v1] ps IH]; simpl; [done |].
  destruct (str_eqb k1 k) eqn:E1; [done |]. intros Hk.
  destruct (array_index k1) as [m|]; [destruct (m <? n)%N|]; simpl; try done.
  rewrite IH by done.
  destruct (str_eqb k1 k') eqn:E2, (str_eqb k k') eqn:E3; try done.
  apply str_eqb_eq in E2 as ->. apply str_eqb_eq in E3 as ->.
  apply str_eqb_neq in E1. done.
Qed.

(** Reading after [o[k] = v]. *)
Lemma obj_lookup_set ps k v k' :
  obj_lookup (obj_set ps k v) k' = if str_eqb k k' then Some v else obj_lookup ps k'.
Proof.
  unfold obj_set. destruct (obj_lookup ps k) eqn:Hk.
  - rewrite obj_lookup_replace, Hk. done.
  - destruct (array_index k) as [n|].
    + by apply obj_lookup_insert_index.
    + rewrite obj_lookup_app. simpl.
      destruct (str_eqb k k') eqn:E.
      * apply str_eqb_eq in E as <-. by rewrite Hk.
      * by destruct (obj_lookup ps k').
Qed.

Lemma obj_lookup_set_ne ps k v k' :
  k' <> k -> obj_lookup (obj_set ps k v) k' = obj_lookup ps k'.
Proof.
  intros Hne. rewrite obj_lookup_set.
  destruct (str_eqb k k') eqn:E; [|done]. apply str_eqb_eq in E. congruence.
Qed.

Lemma obj_lookup_set_eq ps k v : obj_lookup (obj_set ps k v) k = Some v.
Proof.
  rewrite obj_lookup_set. destruct (str_eqb k k) eqn:E; [done |].
  by apply str_eqb_neq in E.
Qed.

End Properties.

(* --------------------------------------------------------------------- *)
(** ** The heap only grows under transformCoords *)
(* --------------------------------------------------------------------- *)

Lemma alloc_spec c h : alloc c h = (length h, h ++ [c]).
Proof. done. Qed.

Lemma deref_prefix h h' l c :
  h `prefix_of` h' -> h !! l = Some c -> deref h' l = c.
Proof.
  intros Hpre Hl. unfold deref. by rewrite (prefix_lookup_Some _ _ _ _ Hl Hpre).
Qed.

Lemma deref_Some h l c : h !! l = Some c -> deref h l = c.
Proof. intros Hl. unfold deref. by rewrite Hl. Qed.

Lemma map_elems_prefix f h xs h' r :
  (forall h x h1 r1, f h x = (h1, r1) -> h `prefix_of` h1) ->
  map_elems f h xs = (h', r) -> h `prefix_of` h'.
Proof.
  intros Hf. revert h h' r. induction xs as [|x xs IH]; intros h h' r; simpl.
  - intros [= <- _]. done.
  - destruct (f h x) as [h1 [y|e]] eqn:Hx.
    + destruct (map_elems f h1 xs) as [h2 [ys|e]] eqn:Hxs; intros [= <- _];
        (etrans; [by eapply Hf | by eapply IH]).
    + intros [= <- _]. by eapply Hf.
Qed.

Lemma transformCoords_prefix transform depth h coords h' r :
  transformCoords transform depth h coords = (h', r) -> h `prefix_of` h'.
Proof.
  revert h coords h' r. induction depth as [|d IH]; intros h coords h' r; simpl.
  - destruct (transform h coords) as [[out|]|e]; intros [= <- _]; try done.
    by apply prefix_app_r.
  - destruct coords as [| | | | |l]; try (intros [= <- _]; done).
    destruct (deref h l) as [ps|elems]; [intros [= <- _]; done |].
    destruct (map_elems (transformCoords transform d) h elems) as [h1 [out|e]] eqn:Hmap;
      intros [= <- _].
    + etrans; [by eapply map_elems_prefix | by apply prefix_app_r].
    + by eapply map_elems_prefix.
Qed.

(** The value [transformCoords] returns is a new array. *)
Lemma transformCoords_new transform depth h coords h' out :
  transformCoords transform depth h coords = (h', Ok out) ->
  exists l, out = VRef l /\ h !! l = None /\ is_Some (h' !! l).
Proof.
  destruct depth as [|d]; simpl.
  - destruct (transform h coords) as [[elems|]|e]; intros [= <- <-].
    exists (length h). split; [done |]. split; [by apply lookup_ge_None_2 |].
    rewrite list_lookup_middle by done. by eexists.
  - destruct coords as [| | | | |l]; try done.
    destruct (deref h l) as [ps|elems]; [done |].
    destruct (map_elems (transformCoords transform d) h elems) as [h1 [elems'|e]] eqn:Hmap;
      intros [= <- <-].
    apply map_elems_prefix in Hmap; [|intros; by eapply transformCoords_prefix].
    exists (length h1). split; [done |]. split.
    + apply lookup_ge_None_2. by apply prefix_length.
    + rewrite list_lookup_middle by done. by eexists.
Qed.

Lemma map_elems_returns (f : heap -> value -> heap * result value) (P : value -> Prop)
    (h : heap) (xs : list value) :
  (forall h x h1 r1, f h x = (h1, r1) -> h `prefix_of` h1) ->
  (forall x, P x -> forall h', h `prefix_of` h' -> exists h1 y, f h' x = (h1, Ok y)) ->
  Forall P xs ->
  forall h', h `prefix_of` h' -> exists h1 ys, map_elems f h' xs = (h1, Ok ys).
Proof.
  intros Hf HP. induction 1 as [|x xs Hx _ IH]; intros h' Hh'; simpl; [by eauto |].
  destruct (HP x Hx h' Hh') as (h1 & y & Hy). rewrite Hy.
  destruct (IH h1) as (h2 & ys & ->); [|by eauto].
  etrans; [done | by eapply Hf].
Qed.

Lemma transformCoords_returns transform depth h coords :
  accepted transform depth h coords ->
  forall h', h `prefix_of` h' ->
    exists h1 out, transformCoords transform depth h' coords = (h1, Ok out).
Proof.
  revert coords. induction depth as [|d IH]; intros coords Hcoords h' Hh'; simpl in *.
  - destruct (Hcoords h' Hh') as [out ->]. by eauto.
  - destruct Hcoords as (l & elems & -> & Hl & Helems).
    rewrite (deref_prefix _ _ _ _ Hh' Hl).
    destruct (map_elems_returns (transformCoords transform d) (accepted transform d h) h elems)
      with (h' := h') as (h1 & ys & ->); try done; [|by eauto].
    intros. by eapply transformCoords_prefix.
Qed.

(* --------------------------------------------------------------------- *)
(** ** parsePrjFile *)
(* --------------------------------------------------------------------- *)

Section Resolver.

Variable w : World.

(** C1.  For a .prj buffer whose decoded text contains "UTM_Zone_47" or
    "UTM Zone 47", [parsePrjFile] answers the UTM zone 47N definition;
    otherwise, for a text that contains a zone 48 marker, the zone 48N
    definition; otherwise, for a text that contains "GCS_WGS_1984" or
    "WGS 84", the WGS84 code (so the earlier marker wins when several
    occur); for a text with none of the six markers, the decoded text
    itself; and for an absent buffer, [null]. *)
Theorem parsePrjFile_markers (prjBuffer : Buffer) :
  let prjText := Buffer_toString w prjBuffer in
  let zone47 := contains prjText (lit "UTM_Zone_47") \/ contains prjText (lit "UTM Zone 47") in
  let zone48 := contains prjText (lit "UTM_Zone_48") \/ contains prjText (lit "UTM Zone 48") in
  let wgs84 := contains prjText (lit "GCS_WGS_1984") \/ contains prjText (lit "WGS 84") in
  (zone47 -> parsePrjFile w (Some prjBuffer) = Some UTM_ZONE_47N) /\
  (~ zone47 -> zone48 -> parsePrjFile w (Some prjBuffer) = Some UTM_ZONE_48N) /\
  (~ zone47 -> ~ zone48 -> wgs84 -> parsePrjFile w (Some prjBuffer) = Some WGS84) /\
  (~ zone47 -> ~ zone48 -> ~ wgs84 -> parsePrjFile w (Some prjBuffer) = Some prjText) /\
  parsePrjFile w None = None.
Proof.
  intros prjText zone47 zone48 wgs84. subst zone47 zone48 wgs84. unfold parsePrjFile.
  fold prjText. rewrite <- !includes_contains.
  destruct (includes prjText (lit "UTM_Zone_47")), (includes prjText (lit "UTM Zone 47")),
    (includes prjText (lit "UTM_Zone_48")), (includes prjText (lit "UTM Zone 48")),
    (includes prjText (lit "GCS_WGS_1984")), (includes prjText (lit "WGS 84"));
    simpl; repeat split; try done; intros; exfalso; intuition congruence.
Qed.

End Resolver.

(** An ESRI .prj text for UTM zone 47N also names its datum
    "GCS_WGS_1984": the zone marker wins. *)
Lemma parsePrjFile_markers_witness :
  let prj := bytes_of "PROJCS[WGS_1984_UTM_Zone_47N,GEOGCS[GCS_WGS_1984]]" in
  (contains (Buffer_toString sample_world prj) (lit "UTM_Zone_47") \/
   contains (Buffer_toString sample_world prj) (lit "UTM Zone 47")) /\
  parsePrjFile sample_world (Some prj) = Some UTM_ZONE_47N.
Proof.
  assert (H : contains (Buffer_toString sample_world
                (bytes_of "PROJCS[WGS_1984_UTM_Zone_47N,GEOGCS[GCS_WGS_1984]]"))
                (lit "UTM_Zone_47") \/
              contains (Buffer_toString sample_world
                (bytes_of "PROJCS[WGS_1984_UTM_Zone_47N,GEOGCS[GCS_WGS_1984]]"))
                (lit "UTM Zone 47")).
  { left. apply includes_contains. vm_compute. reflexivity. }
  split; [exact H |].
  exact (proj1 (parsePrjFile_markers sample_world _) H).
Defined.

(* --------------------------------------------------------------------- *)
(** ** transformGeometry *)
(* --------------------------------------------------------------------- *)

Section Reprojector.

Variable w : World.

(** C2.  For every geometry, [transformGeometry(g, WGS84)] and
    [transformGeometry(g, null)] return [g] itself and leave the heap as
    it was. *)
Theorem transformGeometry_identity (geometry : value) (h : heap) :
  transformGeometry w geometry (Some WGS84) h = (h, Ok geometry) /\
  transformGeometry w geometry None h = (h, Ok geometry).
Proof. split; reflexivity. Qed.

Lemma set_prop_new_object (h ext : heap) (ps : props value) (k : jsstring) (v : value) :
  set_prop (h ++ CObject ps :: ext) (length h) k v = h ++ CObject (obj_set ps k v) :: ext.
Proof.
  unfold set_prop, deref.
  rewrite (list_lookup_middle h ext (CObject ps) (length h) eq_refl).
  by rewrite (insert_app_r_alt h _ (length h)), Nat.sub_diag by lia.
Qed.

(** The heap a successful call leaves: the input heap, then the new
    object, then the new coordinate arrays. *)
Lemma transformGeometry_result (geometry : value) (sourceCRS : option jsstring)
    (h h' : heap) (out : value) :
  no_transform sourceCRS = false ->
  transformGeometry w geometry sourceCRS h = (h', Ok out) ->
  out = VRef (length h) /\
  exists ps' ext,
    h' = h ++ CObject ps' :: ext /\
    forall k, k <> lit "coordinates" -> obj_lookup ps' k = obj_lookup (spread h geometry) k.
Proof.
  intros Hcrs. unfold transformGeometry. rewrite Hcrs.
  destruct (proj4 w (default [] sourceCRS) WGS84) as [transform|e]; [|done].
  rewrite alloc_spec.
  destruct (get_prop (h ++ [CObject (spread h geometry)]) geometry (lit "type"))
    as [type|e]; [|done].
  destruct (switch_depth type) as [depth|].
  - destruct (get_prop (h ++ [CObject (spread h geometry)]) geometry (lit "coordinates"))
      as [coords|e]; [|done].
    destruct (transformCoords transform depth (h ++ [CObject (spread h geometry)]) coords)
      as [h2 [coordinates|e]] eqn:Hcoords; [|done].
    apply transformCoords_prefix in Hcoords as [ext ->].
    intros [= <- <-]. split; [done |].
    rewrite <- app_assoc. simpl. rewrite set_prop_new_object.
    eexists _, ext. split; [done |].
    intros k Hk. by apply obj_lookup_set_ne.
  - intros [= <- <-]. split; [done |]. by exists (spread h geometry), [].
Qed.

(** Whether it returns or throws, a call only adds cells to the heap. *)
Lemma transformGeometry_prefix (geometry : value) (sourceCRS : option jsstring) (h : heap) :
  h `prefix_of` (transformGeometry w geometry sourceCRS h).1.
Proof.
  unfold transformGeometry.
  destruct (no_transform sourceCRS); [done |].
  destruct (proj4 w (default [] sourceCRS) WGS84) as [transform|e]; [|done].
  rewrite alloc_spec.
  destruct (get_prop _ geometry (lit "type")) as [type|e]; [|by apply prefix_app_r].
  destruct (switch_depth type) as [depth|]; [|by apply prefix_app_r].
  destruct (get_prop _ geometry (lit "coordinates")) as [coords|e]; [|by apply prefix_app_r].
  destruct (transformCoords transform depth (h ++ [CObject (spread h geometry)]) coords)
    as [h2 [coordinates|e]] eqn:Hcoords;
    apply transformCoords_prefix in Hcoords as [ext ->]; simpl.
  - rewrite <- app_assoc. simpl. rewrite set_prop_new_object. by apply prefix_app_r.
  - rewrite <- app_assoc. by apply prefix_app_r.
Qed.

(** The object a successful call returns: a new object with the
    properties of the input, [coordinates] apart; its [coordinates] are
    a new array when the type is one of the six kinds and those of the
    input otherwise. *)
Lemma transformGeometry_copy (g : loc) (ps : props value)
    (sourceCRS : option jsstring) (h h' : heap) (out : value) :
  h !! g = Some (CObject ps) ->
  no_transform sourceCRS = false ->
  transformGeometry w (VRef g) sourceCRS h = (h', Ok out) ->
  exists transformed ps',
    out = VRef transformed /\
    h !! transformed = None /\
    h' !! transformed = Some (CObject ps') /\
    (forall k, k <> lit "coordinates" -> obj_lookup ps' k = obj_lookup ps k) /\
    match switch_depth (default VUndefined (obj_lookup ps (lit "type"))) with
    | Some _ =>
        exists coordinates,
          obj_lookup ps' (lit "coordinates") = Some (VRef coordinates) /\
          h !! coordinates = None /\ coordinates <> transformed
    | None => obj_lookup ps' (lit "coordinates") = obj_lookup ps (lit "coordinates")
    end.
Proof.
  intros Hg Hcrs. unfold transformGeometry. rewrite Hcrs.
  destruct (proj4 w (default [] sourceCRS) WGS84) as [transform|e]; [|done].
  rewrite alloc_spec. simpl. rewrite (deref_Some _ _ _ Hg).
  assert (Hg' : deref (h ++ [CObject ps]) g = CObject ps).
  { apply deref_Some. by apply lookup_app_l_Some. }
  rewrite Hg'.
  destruct (switch_depth (default VUndefined (obj_lookup ps (lit "type")))) as [depth|].
  - destruct (transformCoords transform depth (h ++ [CObject ps]) _)
      as [h2 [coordinates|e]] eqn:Hcoords; [|done].
    destruct (transformCoords_new _ _ _ _ _ _ Hcoords) as (c & -> & Hc & _).
    apply transformCoords_prefix in Hcoords as [ext ->].
    intros [= <- <-]. rewrite <- app_assoc. simpl. rewrite set_prop_new_object.
    apply lookup_ge_None_1 in Hc. rewrite length_app in Hc. simpl in Hc.
    exists (length h), (obj_set ps (lit "coordinates") (VRef c)).
    split; [done |]. split; [by apply lookup_ge_None_2 |].
    split; [by apply list_lookup_middle |].
    split; [intros k Hk; by apply obj_lookup_set_ne |].
    exists c. split; [apply obj_lookup_set_eq |].
    split; [apply lookup_ge_None_2 |]; lia.
  - intros [= <- <-]. exists (length h), ps.
    split; [done |]. split; [by apply lookup_ge_None_2 |].
    split; [by apply list_lookup_middle |]. split; done.
Qed.

(** C5, as the code has it.  For a geometry object whose [type] is none
    of the six kinds: without a transform to apply the geometry itself
    is returned; otherwise the projection is built first, and when proj4
    rejects the source CRS its exception is thrown whatever the kind;
    when proj4 accepts it, the result is a new object with exactly the
    properties of the input, [coordinates] included and shared, the rest
    of the heap is as before and nothing is thrown. *)
Theorem transformGeometry_unrecognized (g : loc) (ps : props value)
    (sourceCRS : option jsstring) (h : heap) :
  h !! g = Some (CObject ps) ->
  switch_depth (default VUndefined (obj_lookup ps (lit "type"))) = None ->
  transformGeometry w (VRef g) sourceCRS h =
    if no_transform sourceCRS then (h, Ok (VRef g))
    else match proj4 w (default [] sourceCRS) WGS84 with
         | Ok _ => (h ++ [CObject ps], Ok (VRef (length h)))
         | Throw e => (h, Throw e)
         end.
Proof.
  intros Hg Htype. unfold transformGeometry.
  destruct (no_transform sourceCRS); [done |].
  destruct (proj4 w (default [] sourceCRS) WGS84) as [transform|e]; [|done].
  rewrite alloc_spec. simpl. rewrite (deref_Some _ _ _ Hg).
  assert (Hg' : deref (h ++ [CObject ps]) g = CObject ps).
  { apply deref_Some. by apply lookup_app_l_Some. }
  rewrite Hg'. by rewrite Htype.
Qed.

(** When proj4 reads the source CRS and accepts every position of the
    coordinates, [transformGeometry] returns. *)
Lemma transformGeometry_returns (g : loc) (ps : props value) (sourceCRS : option jsstring)
    (h : heap) (transform : converter) :
  h !! g = Some (CObject ps) ->
  proj4 w (default [] sourceCRS) WGS84 = Ok transform ->
  (forall depth,
     switch_depth (default VUndefined (obj_lookup ps (lit "type"))) = Some depth ->
     accepted transform depth h (default VUndefined (obj_lookup ps (lit "coordinates")))) ->
  exists h' out, transformGeometry w (VRef g) sourceCRS h = (h', Ok out).
Proof.
  intros Hg Hproj Hcoords. unfold transformGeometry.
  destruct (no_transform sourceCRS); [by eauto |].
  rewrite Hproj, alloc_spec. simpl. rewrite (deref_Some _ _ _ Hg).
  assert (Hg' : deref (h ++ [CObject ps]) g = CObject ps).
  { apply deref_Some. by apply lookup_app_l_Some. }
  rewrite Hg'.
  destruct (switch_depth (default VUndefined (obj_lookup ps (lit "type")))) as [depth|];
    [|by eauto].
  destruct (transformCoords_returns transform depth h _ (Hcoords depth eq_refl)
              (h ++ [CObject ps])) as (h1 & out & ->); [by apply prefix_app_r |].
  by eauto.
Qed.

(** C4.  For a geometry object and a source CRS that asks for a
    transform: every cell of the heap before the call, the input
    geometry among them, is unchanged after it, whether the call returns
    or throws; the call returns when proj4 reads the source CRS and, for
    a type among the six kinds, accepts every position of the
    coordinates; and the value it returns is a reference to a new object
    (not allocated before the call), each of whose properties other than
    [coordinates] has the value the input geometry has for it,
    references included, the input having no other property; its
    [coordinates] are a new array when the type is one of the six kinds
    and those of the input otherwise. *)
Theorem transformGeometry_frame (g : loc) (ps : props value)
    (sourceCRS : option jsstring) (h : heap) :
  h !! g = Some (CObject ps) ->
  no_transform sourceCRS = false ->
  let type := default VUndefined (obj_lookup ps (lit "type")) in
  let coords := default VUndefined (obj_lookup ps (lit "coordinates")) in
  let run := transformGeometry w (VRef g) sourceCRS h in
  (forall l c, h !! l = Some c -> run.1 !! l = Some c) /\
  (forall transform,
     proj4 w (default [] sourceCRS) WGS84 = Ok transform ->
     (forall depth, switch_depth type = Some depth -> accepted transform depth h coords) ->
     is_Ok run.2 = true) /\
  (forall out,
     run.2 = Ok out ->
     exists transformed ps',
       out = VRef transformed /\
       h !! transformed = None /\
       run.1 !! transformed = Some (CObject ps') /\
       (forall k, k <> lit "coordinates" -> obj_lookup ps' k = obj_lookup ps k) /\
       match switch_depth type with
       | Some _ =>
           exists coordinates,
             obj_lookup ps' (lit "coordinates") = Some (VRef coordinates) /\
             h !! coordinates = None /\ coordinates <> transformed
       | None => obj_lookup ps' (lit "coordinates") = obj_lookup ps (lit "coordinates")
       end).
Proof.
  intros Hg Hcrs type coords run. split; [|split].
  - intros l c Hl. eapply prefix_lookup_Some; [done |]. apply transformGeometry_prefix.
  - intros transform Hproj Haccepted.
    destruct (transformGeometry_returns g ps sourceCRS h transform Hg Hproj Haccepted)
      as (h' & out & Hrun).
    subst run. by rewrite Hrun.
  - intros out Hout. apply (transformGeometry_copy g ps sourceCRS h run.1 out Hg Hcrs).
    subst run. destruct (transformGeometry w (VRef g) sourceCRS h) as [h' r].
    simpl in Hout. by subst r.
Qed.

(** *** Depth mismatch *)

Lemma heap_closed_allocated (h : heap) (l : loc) (c : cell) (v : value) :
  heap_closed h = true -> h !! l = Some c -> v ∈ cell_values c -> allocated h v = true.
Proof.
  unfold heap_closed. rewrite forallb_forall. intros Hclosed Hl Hv.
  specialize (Hclosed c). rewrite forallb_forall in Hclosed.
  apply Hclosed.
  - apply list_elem_of_In. by eapply list_elem_of_lookup_2.
  - by apply list_elem_of_In.
Qed.

Lemma is_position_prefix (h h' : heap) (v : value) :
  h `prefix_of` h' -> allocated h v = true -> is_position h' v = is_position h v.
Proof.
  intros [ext ->] Hv. destruct v as [| | | | |l]; try done. simpl in *.
  apply Nat.ltb_lt in Hv. by rewrite lookup_app_l.
Qed.

Lemma map_elems_mismatch (f : heap -> value -> heap * result value) (P : value -> bool)
    (h : heap) (xs : list value) :
  (forall h x h1 r1, f h x = (h1, r1) -> h `prefix_of` h1) ->
  (forall x, x ∈ xs -> P x = false ->
     forall h', h `prefix_of` h' -> exists h1 e, f h' x = (h1, Throw e)) ->
  forallb P xs = false ->
  forall h', h `prefix_of` h' -> exists h1 e, map_elems f h' xs = (h1, Throw e).
Proof.
  intros Hf. induction xs as [|x xs IH]; simpl; [done |].
  intros Hthrows Hall h' Hh'.
  destruct (f h' x) as [h1 [y|e]] eqn:Hx; [|by eauto].
  destruct (P x) eqn:HP.
  - simpl in Hall.
    destruct (IH (fun x' Hx' => Hthrows x' (list_elem_of_further _ _ _ Hx')) Hall h1)
      as (h2 & e & ->).
    + etrans; [done | by eapply Hf].
    + by eauto.
  - destruct (Hthrows x (list_elem_of_here _ _) HP h' Hh') as (h2 & e & Heq). congruence.
Qed.

Section Mismatch.

Variable transform : converter.
Hypothesis transform_checks :
  forall h v elems, transform h v = Ok (FwdArray elems) -> is_position h v = true.

(** Coordinates that are not nested as deep as the traversal goes make
    it throw: below, at the check of [forward]; above, at [coords.map]. *)
Lemma transformCoords_mismatch (depth : nat) (h : heap) (coords : value) :
  heap_closed h = true ->
  allocated h coords = true ->
  nested depth h coords = false ->
  forall h', h `prefix_of` h' ->
    exists h1 e, transformCoords transform depth h' coords = (h1, Throw e).
Proof.
  intros Hclosed. revert coords.
  induction depth as [|d IH]; intros coords Halloc Hnested h' Hh'.
  - simpl in *. destruct (transform h' coords) as [[out|]|e] eqn:Hfwd; try by eauto.
    apply transform_checks in Hfwd. rewrite (is_position_prefix h h') in Hfwd by done.
    congruence.
  - simpl in *. destruct coords as [| | | | |l]; try by eauto.
    simpl in Halloc. apply Nat.ltb_lt in Halloc.
    destruct (lookup_lt_is_Some_2 h l Halloc) as [c Hc].
    rewrite Hc in Hnested. rewrite (deref_prefix _ _ _ _ Hh' Hc).
    destruct c as [ps|elems]; [by eauto |].
    destruct (map_elems_mismatch (transformCoords transform d) (nested d h) h elems)
      with (h' := h') as (h1 & e & ->); try done; [| |by eauto].
    + intros. by eapply transformCoords_prefix.
    + intros x Hx Hnx h'' Hh''. apply IH; try done.
      by eapply (heap_closed_allocated h l (CArray elems)).
Qed.

End Mismatch.

(** C3.  With proj4 checking the coordinates it is given, in a heap
    whose references are all allocated: for a geometry object of one of
    the six kinds whose [coordinates] are not nested to the depth of its
    kind (0 for Point, 1 for LineString and MultiPoint, 2 for Polygon
    and MultiLineString, 3 for MultiPolygon), [transformGeometry] with a
    source CRS that asks for a transform throws. *)
Theorem transformGeometry_depth_mismatch (g : loc) (ps : props value)
    (sourceCRS : option jsstring) (h : heap) (type : value) (depth : nat) :
  proj4_checks_coordinates w ->
  heap_closed h = true ->
  h !! g = Some (CObject ps) ->
  obj_lookup ps (lit "type") = Some type ->
  switch_depth type = Some depth ->
  nested depth h (default VUndefined (obj_lookup ps (lit "coordinates"))) = false ->
  no_transform sourceCRS = false ->
  exists h' e, transformGeometry w (VRef g) sourceCRS h = (h', Throw e).
Proof.
  intros Hchecks Hclosed Hg Htype Hdepth Hnested Hcrs.
  unfold transformGeometry. rewrite Hcrs.
  destruct (proj4 w (default [] sourceCRS) WGS84) as [transform|e] eqn:Hproj; [|by eauto].
  rewrite alloc_spec. simpl. rewrite (deref_Some _ _ _ Hg).
  assert (Hg' : deref (h ++ [CObject ps]) g = CObject ps).
  { apply deref_Some. by apply lookup_app_l_Some. }
  rewrite Hg', Htype. simpl. rewrite Hdepth.
  destruct (transformCoords_mismatch transform) with
    (depth := depth) (h := h) (coords := default VUndefined (obj_lookup ps (lit "coordinates")))
    (h' := h ++ [CObject ps]) as (h1 & e & ->); try done; [| | |by eauto].
  - intros h0 v elems. by apply (Hchecks _ _ _ _ _ _ Hproj).
  - destruct (obj_lookup ps (lit "coordinates")) as [coords|] eqn:Hcoords; [|done].
    apply (heap_closed_allocated h g (CObject ps)); try done. simpl.
    clear -Hcoords. induction ps as [|[k v] ps IH]; simpl in *; [done |].
    destruct (str_eqb k (lit "coordinates")).
    + injection Hcoords as ->. by left.
    + right. by apply IH.
  - by apply prefix_app_r.
Qed.

End Reprojector.

(** The sample [forward] checks its argument. *)
Lemma sample_world_checks_coordinates : proj4_checks_coordinates sample_world.
Proof.
  intros from to transform h v elems. simpl. unfold sample_proj4.
  repeat case_match; try done. intros [= <-]. unfold sample_forward, is_position.
  repeat case_match; done.
Qed.

(** The type of the geometry says "Point", its coordinates are those of
    a line string: the call throws. *)
Lemma transformGeometry_depth_mismatch_witness :
  nested 0 sample_broken_heap (VRef 2) = false /\
  exists h' e,
    transformGeometry sample_world (VRef 3) (Some UTM_ZONE_47N) sample_broken_heap
    = (h', Throw e).
Proof.
  split; [reflexivity |].
  eapply (transformGeometry_depth_mismatch sample_world 3 _ _ sample_broken_heap _ 0).
  - exact sample_world_checks_coordinates.
  - reflexivity.
  - reflexivity.
  - reflexivity.
  - reflexivity.
  - reflexivity.
  - reflexivity.
Defined.

(** The check is proj4's, not the script's: with a [forward] that
    accepts anything, the same call returns a geometry whose coordinates
    are [[undefined, undefined]]. *)
Example transformGeometry_mismatch_unchecked :
  exists h' out coordinates,
    transformGeometry unchecked_world (VRef 3) (Some UTM_ZONE_47N) sample_broken_heap
    = (h', Ok out) /\
    get_prop h' out (lit "coordinates") = Ok (VRef coordinates) /\
    h' !! coordinates = Some (CArray [VUndefined; VUndefined]).
Proof. eexists _, _, _. repeat split; vm_compute; reflexivity. Qed.

(** The sample [forward] accepts the positions of the sample line
    string. *)
Lemma sample_line_accepted : accepted sample_forward 1 sample_line_heap (VRef 2).
Proof.
  exists 2, [VRef 0; VRef 1]. split; [done |]. split; [reflexivity |].
  repeat constructor; intros h' Hpre; unfold sample_forward.
  - rewrite (prefix_lookup_Some sample_line_heap h' 0 _ eq_refl Hpre). by eexists.
  - rewrite (prefix_lookup_Some sample_line_heap h' 1 _ eq_refl Hpre). by eexists.
Qed.

(** A line string under the zone 47N definition. *)
Lemma transformGeometry_frame_witness :
  let run :=
    transformGeometry sample_world (VRef sample_line_ref) (Some UTM_ZONE_47N) sample_line_heap in
  is_Ok run.2 = true /\
  (forall l c, sample_line_heap !! l = Some c -> run.1 !! l = Some c) /\
  exists transformed ps' coordinates,
    run.2 = Ok (VRef transformed) /\
    sample_line_heap !! transformed = None /\
    run.1 !! transformed = Some (CObject ps') /\
    obj_lookup ps' (lit "type") = Some (VString (lit "LineString")) /\
    obj_lookup ps' (lit "coordinates") = Some (VRef coordinates) /\
    sample_line_heap !! coordinates = None.
Proof.
  intros run.
  destruct (transformGeometry_frame sample_world sample_line_ref
              [(lit "type", VString (lit "LineString")); (lit "coordinates", VRef 2)]
              (Some UTM_ZONE_47N) sample_line_heap eq_refl eq_refl)
    as (Hkept & Hreturns & Hcopy).
  split; [apply (Hreturns sample_forward eq_refl); intros depth [= <-];
          exact sample_line_accepted |].
  split; [exact Hkept |].
  destruct (Hcopy (VRef 4) eq_refl)
    as (transformed & ps' & Hout & Hnew & Hcell & Hrest & coordinates & Hcoords & Hfresh & _).
  exists transformed, ps', coordinates.
  split; [by rewrite <- Hout |]. split; [exact Hnew |]. split; [exact Hcell |].
  split; [by rewrite Hrest |]. split; [exact Hcoords | exact Hfresh].
Defined.

(** A geometry collection under a text proj4 cannot read: the exception
    of proj4 comes out, although the kind is none of the six. *)
Lemma transformGeometry_unrecognized_throws :
  switch_depth (VString (lit "GeometryCollection")) = None /\
  transformGeometry sample_world (VRef 0) (Some (lit "not a projection"))
    sample_collection_heap
  = (sample_collection_heap,
     Throw (JsString (lit "Could not parse to valid json: not a projection"))).
Proof. split; reflexivity. Qed.

Lemma transformGeometry_unrecognized_witness :
  transformGeometry sample_world (VRef 0) (Some UTM_ZONE_48N) sample_collection_heap
  = (sample_collection_heap ++
       [CObject [(lit "type", VString (lit "GeometryCollection")); (lit "geometries", VNull)]],
     Ok (VRef 1)).
Proof.
  exact (transformGeometry_unrecognized sample_world 0 _ (Some UTM_ZONE_48N)
           sample_collection_heap eq_refl eq_refl).
Defined.

(* --------------------------------------------------------------------- *)
(** ** Running a computation *)
(* --------------------------------------------------------------------- *)

Lemma run_bind {A B} (m : M A) (k : A -> M B) (s : State) :
  (m ≫= k) s =
  match m s with
  | (s1, Ok a) => k a s1
  | (s1, Throw e) => (s1, Throw e)
  end.
Proof. done. Qed.

Lemma run_ret {A} (a : A) (s : State) : (mret a : M A) s = (s, Ok a).
Proof. done. Qed.

Lemma bind_get_heap {B} (k : heap -> M B) (s : State) :
  (get_heap ≫= k) s = k (heap_of s) s.
Proof. done. Qed.

Lemma bind_call {A B} (r : result A) (k : A -> M B) (s : State) :
  (call r ≫= k) s = match r with Ok a => k a s | Throw e => (s, Throw e) end.
Proof. rewrite run_bind. unfold call. by destruct r. Qed.

Lemma bind_on_heap {A B} (f : heap -> heap * result A) (k : A -> M B) (s : State) :
  (on_heap f ≫= k) s =
  match f (heap_of s) with
  | (h, Ok a) => k a (with_heap s h)
  | (h, Throw e) => (with_heap s h, Throw e)
  end.
Proof. rewrite run_bind. unfold on_heap. by destruct (f (heap_of s)) as [h [a|e]]. Qed.

Lemma bind_emit {B} (e : effect) (k : unit -> M B) (s : State) :
  (emit e ≫= k) s =
  k tt {| heap_of := heap_of s; prototype_of := prototype_of s;
          effects_of := effects_of s ++ [e] |}.
Proof. done. Qed.

Lemma heap_of_with_heap (s : State) (h : heap) : heap_of (with_heap s h) = h.
Proof. done. Qed.

Lemma with_heap_with_heap (s : State) (h1 h2 : heap) :
  with_heap (with_heap s h1) h2 = with_heap s h2.
Proof. done. Qed.

(** *** What a computation keeps *)

#[local] Instance keeps_preorder : PreOrder keeps.
Proof. split; [by intros h l c | intros h1 h2 h3 H12 H23 l c Hl; by apply H23, H12]. Qed.

#[local] Instance same_effects_preorder : PreOrder same_effects.
Proof. split; [done | intros s1 s2 s3 H12 H23; unfold same_effects in *; congruence]. Qed.

#[local] Instance same_prototype_preorder : PreOrder same_prototype.
Proof. split; [done | intros s1 s2 s3 H12 H23; unfold same_prototype in *; congruence]. Qed.

#[local] Instance keeping_preorder (h0 : heap) : PreOrder (keeping h0).
Proof. split; [by intros s Hs | intros s1 s2 s3 H12 H23 H; by apply H23, H12]. Qed.

Section Respects.

Context (R : relation State) `{!PreOrder R}.

Lemma respects_bind {A B} (m : M A) (k : A -> M B) :
  respects R m -> (forall a, respects R (k a)) -> respects R (m ≫= k).
Proof.
  intros Hm Hk s. rewrite run_bind. specialize (Hm s).
  destruct (m s) as [s1 [a|e]]; simpl in *; [|done].
  etrans; [done | apply Hk].
Qed.

Lemma respects_ret {A} (a : A) : respects R (mret a).
Proof. intros s. simpl. reflexivity. Qed.

Lemma respects_call {A} (r : result A) : respects R (call r).
Proof. intros s. simpl. reflexivity. Qed.

Lemma respects_throw {A} (e : exn) : respects R (@throw A e).
Proof. intros s. simpl. reflexivity. Qed.

Lemma respects_get_heap : respects R get_heap.
Proof. intros s. simpl. reflexivity. Qed.

Lemma respects_get_prototype : respects R get_prototype.
Proof. intros s. simpl. reflexivity. Qed.

End Respects.

Lemma same_effects_on_heap {A} (f : heap -> heap * result A) :
  respects same_effects (on_heap f).
Proof. intros s. unfold on_heap. by destruct (f (heap_of s)). Qed.

Lemma same_effects_assign_prop target k v : respects same_effects (assign_prop target k v).
Proof. destruct target; first [done | apply same_effects_on_heap]. Qed.

Lemma same_prototype_on_heap {A} (f : heap -> heap * result A) :
  respects same_prototype (on_heap f).
Proof. intros s. unfold on_heap. by destruct (f (heap_of s)). Qed.

Lemma same_prototype_assign_prop target k v : respects same_prototype (assign_prop target k v).
Proof. destruct target; first [done | apply same_prototype_on_heap]. Qed.

Lemma same_prototype_emit e : respects same_prototype (emit e).
Proof. done. Qed.

Lemma keeping_emit h0 e : respects (keeping h0) (emit e).
Proof. by intros s Hs. Qed.

Lemma keeping_set_prototype h0 p : respects (keeping h0) (set_prototype p).
Proof. by intros s Hs. Qed.

Lemma keeping_on_heap h0 {A} (f : heap -> heap * result A) :
  (forall h, keeps h0 h -> keeps h0 (f h).1) -> respects (keeping h0) (on_heap f).
Proof.
  intros Hf s Hs. specialize (Hf _ Hs). unfold on_heap.
  by destruct (f (heap_of s)).
Qed.

Create HintDb respects.

#[local] Hint Resolve respects_ret respects_call respects_throw respects_get_heap
  respects_get_prototype same_effects_on_heap same_effects_assign_prop
  same_prototype_on_heap same_prototype_assign_prop same_prototype_emit
  keeping_emit keeping_set_prototype : respects.

#[local] Hint Extern 0 (PreOrder _) => apply _ : respects.

Ltac respects :=
  repeat first
    [ apply respects_bind; [apply _ | | intros ?]
    | solve [eauto with respects]
    | match goal with |- respects _ (if ?b then _ else _) => destruct b end
    | match goal with |- respects _ (match ?r with _ => _ end) => destruct r end ].

(* --------------------------------------------------------------------- *)
(** ** The read loop: one feature *)
(* --------------------------------------------------------------------- *)

Lemma get_prop_object h l ps k :
  h !! l = Some (CObject ps) -> get_prop h (VRef l) k = Ok (default VUndefined (obj_lookup ps k)).
Proof. intros Hl. simpl. by rewrite (deref_Some _ _ _ Hl). Qed.

Lemma set_prop_object h l ps k v :
  h !! l = Some (CObject ps) -> set_prop h l k v = <[l := CObject (obj_set ps k v)]> h.
Proof. intros Hl. unfold set_prop. by rewrite (deref_Some _ _ _ Hl). Qed.

Lemma lit_type_not_coordinates : lit "type" <> lit "coordinates".
Proof. done. Qed.

Lemma lit_type_not_geometry : lit "type" <> lit "geometry".
Proof. done. Qed.

Section Feature.

Variable w : World.

(** After [feature.geometry = transformGeometry(feature.geometry, crs)],
    [feature.geometry] is the value returned and its [type] is the
    [type] of the geometry read. *)
Lemma reprojected_type (h h1 : heap) (f g : loc) (fps gps : props value)
    (crs : option jsstring) (transformed : value) :
  h !! f = Some (CObject fps) ->
  h !! g = Some (CObject gps) ->
  transformGeometry w (VRef g) crs h = (h1, Ok transformed) ->
  let h2 := set_prop h1 f (lit "geometry") transformed in
  get_prop h2 (VRef f) (lit "geometry") = Ok transformed /\
  get_prop h2 transformed (lit "type") = Ok (default VUndefined (obj_lookup gps (lit "type"))).
Proof.
  intros Hf Hg Hrun h2. subst h2.
  assert (Hflt : f < length h) by by eapply lookup_lt_Some.
  destruct (no_transform crs) eqn:Hcrs.
  - unfold transformGeometry in Hrun. rewrite Hcrs in Hrun. injection Hrun as <- <-.
    rewrite (set_prop_object _ _ _ _ _ Hf). split.
    + erewrite get_prop_object by by apply list_lookup_insert_eq.
      by rewrite obj_lookup_set_eq.
    + destruct (decide (g = f)) as [->|Hne].
      * erewrite get_prop_object by by apply list_lookup_insert_eq.
        rewrite obj_lookup_set_ne by done. congruence.
      * erewrite get_prop_object by by rewrite list_lookup_insert_ne.
        done.
  - destruct (transformGeometry_result _ _ _ _ _ _ Hcrs Hrun) as (-> & ps' & ext & -> & Hps').
    assert (Hf1 : (h ++ CObject ps' :: ext) !! f = Some (CObject fps))
      by by apply lookup_app_l_Some.
    rewrite (set_prop_object _ _ _ _ _ Hf1). split.
    + erewrite get_prop_object; [|apply list_lookup_insert_eq; by eapply lookup_lt_Some].
      by rewrite obj_lookup_set_eq.
    + erewrite get_prop_object;
        [|rewrite list_lookup_insert_ne by lia; by apply list_lookup_middle].
      rewrite Hps' by done. simpl. by rewrite (deref_Some _ _ _ Hg).
Qed.


End Feature.

(* --------------------------------------------------------------------- *)
(** ** Cells that stay as they are *)
(* --------------------------------------------------------------------- *)

Lemma prefix_keeps (h h' : heap) : h `prefix_of` h' -> keeps h h'.
Proof. intros Hpre l c Hl. by eapply prefix_lookup_Some. Qed.

Lemma keeps_length (h0 h : heap) : keeps h0 h -> length h0 <= length h.
Proof.
  intros Hkeeps. destruct h0 as [|c h0 _] using rev_ind; [simpl; lia |].
  rewrite length_app. simpl.
  assert (Hl : (h0 ++ [c]) !! length h0 = Some c) by by apply list_lookup_middle.
  apply Hkeeps, lookup_lt_Some in Hl. lia.
Qed.

Lemma keeps_set_prop (h0 h : heap) (l : loc) (k : jsstring) (v : value) :
  keeps h0 h -> length h0 <= l -> keeps h0 (set_prop h l k v).
Proof.
  intros Hkeeps Hl l' c Hl'. unfold set_prop.
  destruct (deref h l); [|by apply Hkeeps].
  rewrite list_lookup_insert_ne; [by apply Hkeeps |].
  apply lookup_lt_Some in Hl'. lia.
Qed.

Lemma outside_keeps (h0 h : heap) (v : value) :
  keeps h0 h -> outside h v -> outside h0 v.
Proof. intros Hkeeps Hv l ->. specialize (Hv l eq_refl). apply keeps_length in Hkeeps. lia. Qed.

(** *** [build] allocates above the heap it is given *)

(** Induction on trees, with the hypothesis for every element of an
    array and every field of an object. *)
Lemma tree_nested_ind (P : tree -> Prop) :
  P TUndefined -> P TNull -> (forall b, P (TBool b)) -> (forall x, P (TNumber x)) ->
  (forall s, P (TString s)) ->
  (forall elems, Forall P elems -> P (TArray elems)) ->
  (forall fields, Forall (fun kt => P kt.2) fields -> P (TObject fields)) ->
  forall t, P t.
Proof.
  intros Hundefined Hnull Hbool Hnumber Hstring Harray Hobject.
  fix IH 1. intros [| |b|x|s|elems|fields].
  - exact Hundefined.
  - exact Hnull.
  - apply Hbool.
  - apply Hnumber.
  - apply Hstring.
  - apply Harray. induction elems as [|t elems IHelems]; constructor;
      [apply IH | exact IHelems].
  - apply Hobject. induction fields as [|[k t] fields IHfields]; constructor;
      [apply IH | exact IHfields].
Qed.

Lemma build_prefix (t : tree) (h : heap) :
  h `prefix_of` (build t h).2 /\ outside h (build t h).1.
Proof.
  revert h. induction t as [| | | | |elems IH|fields IH] using tree_nested_ind; intros h;
    try (split; [done | by intros l]).
  - simpl.
    assert (Helems : forall h, h `prefix_of` (build_elems build elems h).2).
    { clear h. induction IH as [|t ts Ht _ IHts]; intros h; simpl; [done |].
      destruct (build t h) as [v h1] eqn:Hb.
      specialize (IHts h1). destruct (build_elems build ts h1) as [vs h2]. simpl in *.
      etrans; [|done]. destruct (Ht h) as [Hp _]. by rewrite Hb in Hp. }
    specialize (Helems h). destruct (build_elems build elems h) as [vs h1]. simpl in *.
    split.
    + etrans; [done | by apply prefix_app_r].
    + intros l [= <-]. by apply prefix_length.
  - simpl.
    assert (Hfields : forall acc h, h `prefix_of` (build_fields build fields acc h).2).
    { clear h. induction IH as [|[k t] fs Ht _ IHfs]; intros acc h; simpl; [done |].
      destruct (build t h) as [v h1] eqn:Hb.
      etrans; [|apply IHfs]. simpl in Ht. destruct (Ht h) as [Hp _]. by rewrite Hb in Hp. }
    specialize (Hfields [] h). destruct (build_fields build fields [] h) as [ps h1]. simpl in *.
    split.
    + etrans; [done | by apply prefix_app_r].
    + intros l [= <-]. by apply prefix_length.
Qed.

(* --------------------------------------------------------------------- *)
(** ** The read loop: simplification *)
(* --------------------------------------------------------------------- *)

Lemma get_set_prop (h : heap) (l : loc) (ps : props value) (k : jsstring) (v : value) :
  h !! l = Some (CObject ps) -> get_prop (set_prop h l k v) (VRef l) k = Ok v.
Proof.
  intros Hl. rewrite (set_prop_object _ _ _ _ _ Hl).
  erewrite get_prop_object; [|apply list_lookup_insert_eq; by eapply lookup_lt_Some].
  by rewrite obj_lookup_set_eq.
Qed.

Section Simplification.

Variable w : World.

(** One pass of the read loop over a feature whose [geometry] is an
    object, step by step. *)
Lemma process_feature_run (sourceCRS : option jsstring) (s : State)
    (f g : loc) (fps gps : props value) :
  heap_of s !! f = Some (CObject fps) ->
  obj_lookup fps (lit "geometry") = Some (VRef g) ->
  heap_of s !! g = Some (CObject gps) ->
  process_feature w sourceCRS (VRef f) s =
  match transformGeometry w (VRef g) (Some (or_default sourceCRS UTM_ZONE_47N)) (heap_of s) with
  | (h1, Throw e) => (with_heap s h1, Throw e)
  | (h1, Ok transformed) =>
      let reprojected := set_prop h1 f (lit "geometry") transformed in
      match stringify_length w reprojected transformed with
      | Throw e => (with_heap s reprojected, Throw e)
      | Ok _ =>
          if simplify_guard (default VUndefined (obj_lookup gps (lit "type"))) then
            match simplify w reprojected (VRef f) SIMPLIFY_TOLERANCE true with
            | Throw e => (simplifying s reprojected f, Throw e)
            | Ok answer =>
                let built := build answer reprojected in
                match get_prop built.2 built.1 (lit "geometry") with
                | Throw e => (simplifying s built.2 f, Throw e)
                | Ok geometry =>
                    let final := set_prop built.2 f (lit "geometry") geometry in
                    (simplifying s final f,
                     match stringify_length w final geometry with
                     | Ok _ => Ok tt
                     | Throw e => Throw e
                     end)
                end
            end
          else (with_heap s reprojected, Ok tt)
      end
  end.
Proof.
  intros Hf Hgeom Hg. unfold process_feature.
  rewrite bind_get_heap, bind_call, (get_prop_object _ _ _ _ Hf), Hgeom.
  cbn [default from_option id truthy]. rewrite bind_on_heap.
  pose proof (transformGeometry_prefix w (VRef g) (Some (or_default sourceCRS UTM_ZONE_47N))
                (heap_of s)) as Hpre.
  destruct (transformGeometry w (VRef g) (Some (or_default sourceCRS UTM_ZONE_47N)) (heap_of s))
    as [h1 [transformed|e]] eqn:Hrun; [|done].
  simpl in Hpre.
  destruct (reprojected_type w _ _ _ _ _ _ _ _ Hf Hg Hrun) as [Hread Htype].
  cbn [assign_prop]. rewrite bind_on_heap, bind_get_heap.
  rewrite !heap_of_with_heap, with_heap_with_heap.
  rewrite bind_call, Hread, bind_call. cbv zeta.
  destruct (stringify_length w (set_prop h1 f (lit "geometry") transformed) transformed)
    as [n|e] eqn:Hsize; [|done].
  rewrite bind_call, Htype.
  destruct (simplify_guard (default VUndefined (obj_lookup gps (lit "type")))).
  - rewrite run_bind, bind_emit, bind_call.
    destruct (simplify w (set_prop h1 f (lit "geometry") transformed) (VRef f)
                SIMPLIFY_TOLERANCE true) as [answer|e]; [|done].
    rewrite bind_on_heap. cbn [heap_of with_heap].
    pose proof (build_prefix answer (set_prop h1 f (lit "geometry") transformed)) as [Hbuild _].
    destruct (build answer (set_prop h1 f (lit "geometry") transformed))
      as [simplified h3] eqn:Hb.
    simpl in Hbuild. cbn [fst snd]. rewrite bind_get_heap.
    cbn [heap_of prototype_of effects_of with_heap]. rewrite bind_call.
    destruct (get_prop h3 simplified (lit "geometry")) as [geometry|e] eqn:Hsimplified; [|done].
    cbn [assign_prop]. unfold on_heap.
    cbn [heap_of prototype_of effects_of with_heap].
    rewrite bind_get_heap. cbn [heap_of]. rewrite bind_call.
    assert (Hf1 : h1 !! f = Some (CObject fps)) by by eapply prefix_lookup_Some.
    assert (Hf3 : h3 !! f = Some (CObject (obj_set fps (lit "geometry") transformed))).
    { eapply prefix_lookup_Some; [|done]. rewrite (set_prop_object _ _ _ _ _ Hf1).
      apply list_lookup_insert_eq. by eapply lookup_lt_Some. }
    rewrite !heap_of_with_heap, !with_heap_with_heap.
    rewrite (get_set_prop _ _ _ _ _ Hf3). rewrite run_bind. unfold call at 1.
    unfold simplifying, with_heap. cbn [heap_of prototype_of effects_of].
    by destruct (stringify_length w (set_prop h3 f (lit "geometry") geometry) geometry).
  - rewrite run_bind, run_ret, bind_get_heap. rewrite heap_of_with_heap.
    rewrite bind_call, Hread, run_bind. unfold call at 1. by rewrite Hsize.
Qed.


End Simplification.

(* --------------------------------------------------------------------- *)
(** ** Converting the component sets *)
(* --------------------------------------------------------------------- *)

Lemma is_feature_collection_keeps h h' v :
  keeps h h' -> is_feature_collection h v -> is_feature_collection h' v.
Proof. intros Hk (g & a & fs & -> & Hg & Ha). exists g, a, fs. auto. Qed.

Section Conversion.

Variable w : World.

Lemma keeping_assign_prop h0 target k v :
  outside h0 target -> respects (keeping h0) (assign_prop target k v).
Proof.
  intros Hout. destruct target as [| | | | |l]; try (intros s0 Hs0; exact Hs0).
  apply keeping_on_heap. intros h Hh. simpl. apply keeps_set_prop; [done |].
  by apply Hout.
Qed.

Lemma keeping_build h0 answer :
  respects (keeping h0) (on_heap (fun h => let '(v, h1) := build answer h in (h1, Ok v))).
Proof.
  apply keeping_on_heap. intros h Hh.
  destruct (build_prefix answer h) as [Hpre _].
  destruct (build answer h) as [v h1]. simpl in *.
  etrans; [done | by apply prefix_keeps].
Qed.

Lemma process_feature_keeping h0 sourceCRS feature :
  outside h0 feature -> respects (keeping h0) (process_feature w sourceCRS feature).
Proof.
  intros Hout. unfold process_feature.
  respects; try (by apply keeping_assign_prop); try apply keeping_build.
  apply keeping_on_heap. intros h Hh. etrans; [done |].
  apply prefix_keeps, transformGeometry_prefix.
Qed.

Lemma process_feature_same_prototype sourceCRS feature :
  respects same_prototype (process_feature w sourceCRS feature).
Proof. unfold process_feature. respects. Qed.

Lemma read_loop_keeping h0 sourceCRS reads features :
  respects (keeping h0) (read_loop w sourceCRS reads features).
Proof.
  revert features. induction reads as [|read reads IH]; intros features; simpl.
  - respects.
  - intros s Hs. rewrite bind_call. destruct read as [answer|e]; [|done].
    rewrite bind_on_heap.
    destruct (build_prefix answer (heap_of s)) as [Hpre Hout].
    destruct (build answer (heap_of s)) as [feature h1]. simpl in Hpre, Hout.
    assert (Hh1 : keeps h0 h1) by (etrans; [done | by apply prefix_keeps]).
    rewrite run_bind.
    pose proof (process_feature_keeping h0 sourceCRS feature
                  (outside_keeps _ _ _ Hs Hout) (with_heap s h1) Hh1) as Hstep.
    destruct (process_feature w sourceCRS feature (with_heap s h1)) as [s2 [[]|e]];
      simpl in *; [|done].
    by apply IH.
Qed.

Lemma read_loop_same_prototype sourceCRS reads features :
  respects same_prototype (read_loop w sourceCRS reads features).
Proof.
  revert features. induction reads as [|read reads IH]; intros features; simpl.
  - respects.
  - respects; first [apply process_feature_same_prototype | apply IH].
Qed.


Lemma bind_get_prototype {B} (k : props Buffer -> M B) (s : State) :
  (get_prototype ≫= k) s = k (prototype_of s) s.
Proof. done. Qed.

Lemma bind_new_cell {B} (c : cell) (k : value -> M B) (s : State) :
  (new_cell c ≫= k) s = k (VRef (length (heap_of s))) (with_heap s (heap_of s ++ [c])).
Proof. unfold new_cell. by rewrite bind_on_heap. Qed.

(** One entry of [shapeFiles]: a complete set adds its name and a
    FeatureCollection to [results], an incomplete one adds nothing. *)
Lemma convert_set_results results name fs s s' results' :
  convert_set w results (name, fs) s = (s', Ok results') ->
  keeps (heap_of s) (heap_of s') /\
  prototype_of s' = prototype_of s /\
  if is_complete (prototype_of s) fs then
    exists geojson,
      results' = results ++ [(name, geojson)] /\ is_feature_collection (heap_of s') geojson
  else results' = results.
Proof.
  unfold convert_set. rewrite bind_get_prototype.
  destruct (is_complete (prototype_of s) fs).
  - rewrite bind_call. destruct (shapefile_open w _ _ _) as [reads|e]; [|done].
    rewrite run_bind.
    pose proof (read_loop_keeping (heap_of s) (parsePrjFile w (fileSet_get (prototype_of s) fs (lit ".prj")))
                  reads [] s) as Hkeeps.
    pose proof (read_loop_same_prototype (parsePrjFile w (fileSet_get (prototype_of s) fs (lit ".prj")))
                  reads [] s) as Hproto.
    destruct (read_loop w _ reads [] s) as [s1 [features|e]]; [|done].
    simpl in Hkeeps, Hproto. rewrite !bind_new_cell. rewrite run_ret.
    intros [= <- <-]. unfold with_heap. simpl. split; [|split; [done |]].
    + etrans; [by apply Hkeeps |]. rewrite <- app_assoc. by apply prefix_keeps, prefix_app_r.
    + eexists. split; [done |].
      exists (length (heap_of s1 ++ [CArray features])), (length (heap_of s1)), features.
      split; [done |]. split.
      * by apply list_lookup_middle.
      * rewrite <- app_assoc. by apply list_lookup_middle.
  - rewrite run_ret. intros [= <- <-]. done.
Qed.

(** The loop over [Object.entries(shapeFiles)]: [results] gets the
    complete sets, in order, each with a FeatureCollection. *)
Lemma convert_sets_results entries results s s' results' :
  convert_sets w entries results s = (s', Ok results') ->
  Forall (fun r => is_feature_collection (heap_of s) r.2) results ->
  keeps (heap_of s) (heap_of s') /\
  prototype_of s' = prototype_of s /\
  Forall (fun r => is_feature_collection (heap_of s') r.2) results' /\
  map fst results' =
    map fst results ++ map fst (filter (fun e => is_complete (prototype_of s) e.2 = true) entries).
Proof.
  revert results s. induction entries as [|[name fs] entries IH]; intros results s.
  - simpl. rewrite run_ret. intros [= <- <-] Hfc.
    split; [reflexivity |]. split; [done |]. split; [exact Hfc |]. symmetry. apply app_nil_r.
  - change (convert_sets w ((name, fs) :: entries) results)
      with (convert_set w results (name, fs) ≫= convert_sets w entries).
    rewrite run_bind.
    destruct (convert_set w results (name, fs) s) as [s1 [results1|e]] eqn:Hset; [|done].
    intros Hsets Hfc.
    destruct (convert_set_results _ _ _ _ _ _ Hset) as (Hk1 & Hp1 & Hres1).
    assert (Hfc1 : Forall (fun r => is_feature_collection (heap_of s1) r.2) results1).
    { destruct (is_complete (prototype_of s) fs).
      - destruct Hres1 as (geojson & -> & Hg). apply Forall_app. split.
        + eapply Forall_impl; [done |]. intros r. by apply is_feature_collection_keeps.
        + by constructor.
      - subst results1. eapply Forall_impl; [done |].
        intros r. by apply is_feature_collection_keeps. }
    destruct (IH _ _ Hsets Hfc1) as (Hk2 & Hp2 & Hfc2 & Hnames).
    split; [by etrans |]. split; [congruence |]. split; [done |].
    rewrite Hnames, Hp1. rewrite filter_cons. simpl.
    destruct (is_complete (prototype_of s) fs) eqn:Hc.
    + destruct Hres1 as (geojson & -> & _).
      rewrite decide_True by done. rewrite map_app. simpl. by rewrite <- app_assoc.
    + subst results1. rewrite decide_False by done. done.
Qed.

End Conversion.

(* --------------------------------------------------------------------- *)
(** ** Property names stay distinct *)
(* --------------------------------------------------------------------- *)

Section Keys.

Context {A : Type}.
Implicit Types (ps : props A) (k : jsstring) (v : A).

Lemma obj_lookup_None ps k : obj_lookup ps k = None <-> k ∉ map fst ps.
Proof.
  induction ps as [|[k1 v1] ps IH]; simpl.
  - split; [intros _; apply not_elem_of_nil | done].
  - rewrite not_elem_of_cons. destruct (str_eqb k1 k) eqn:E.
    + apply str_eqb_eq in E as ->. split; [done | by intros [? _]].
    + apply str_eqb_neq in E. rewrite IH. split; [by intros ? | by intros [_ ?]].
Qed.

Lemma obj_lookup_elem_of ps k v :
  NoDup (map fst ps) -> obj_lookup ps k = Some v <-> (k, v) ∈ ps.
Proof.
  induction ps as [|[k1 v1] ps IH]; simpl.
  - intros _. split; [done | by intros ?%elem_of_nil].
  - intros [Hk1 Hnd]%NoDup_cons. rewrite elem_of_cons.
    destruct (str_eqb k1 k) eqn:E.
    + apply str_eqb_eq in E as ->. split.
      * intros [= ->]. by left.
      * intros [[= ->]|Hin]; [done |]. destruct Hk1.
        apply list_elem_of_fmap. by exists (k, v).
    + apply str_eqb_neq in E. rewrite IH by done. split; [by right |].
      intros [[= -> ->]|Hin]; done.
Qed.

Lemma obj_replace_keys ps k v : map fst (obj_replace ps k v) = map fst ps.
Proof.
  induction ps as [|[k1 v1] ps IH]; simpl; [done |].
  destruct (str_eqb k1 k); simpl; [done | by rewrite IH].
Qed.

Lemma obj_insert_index_keys ps n k v :
  map fst (obj_insert_index ps n k v) ≡ₚ k :: map fst ps.
Proof.
  induction ps as [|[k1 v1] ps IH]; simpl; [done |].
  destruct (array_index k1) as [m|]; [destruct (m <? n)%N|]; simpl; try done.
  rewrite IH. apply Permutation_swap.
Qed.

Lemma obj_set_NoDup ps k v : NoDup (map fst ps) -> NoDup (map fst (obj_set ps k v)).
Proof.
  intros Hnd. unfold obj_set. destruct (obj_lookup ps k) eqn:Hk.
  - by rewrite obj_replace_keys.
  - apply obj_lookup_None in Hk. destruct (array_index k) as [n|].
    + rewrite obj_insert_index_keys. by apply NoDup_cons.
    + rewrite map_app. simpl. apply NoDup_app. split; [done |]. split.
      * intros k' Hk' ->%list_elem_of_singleton. done.
      * apply NoDup_singleton.
Qed.

End Keys.

Lemma group_file_NoDup acc file :
  NoDup (map fst acc.1) -> NoDup (map fst (group_file acc file).1).
Proof.
  destruct acc as [shapeFiles prototype]. unfold group_file. simpl.
  intros Hnd. repeat case_match; simpl; auto using @obj_set_NoDup.
Qed.

Lemma group_files_NoDup files prototype :
  NoDup (map fst (group_files files prototype).1).
Proof.
  unfold group_files.
  assert (H : forall acc, NoDup (map fst acc.1) ->
            NoDup (map fst (fold_left group_file files acc).1)).
  { induction files as [|file files IH]; intros acc Hacc; simpl; [done |].
    by apply IH, group_file_NoDup. }
  apply H. simpl. apply NoDup_nil_2.
Qed.

Lemma filter_keys_NoDup {A} (P : jsstring * A -> Prop) `{!forall x, Decision (P x)}
    (ps : list (jsstring * A)) :
  NoDup (map fst ps) -> NoDup (map fst (filter P ps)).
Proof.
  induction ps as [|[k v] ps IH]; [done |].
  intros Hnd. simpl in Hnd. apply NoDup_cons in Hnd as [Hk Hnd]. rewrite filter_cons.
  destruct (decide (P (k, v))); simpl; [|by apply IH].
  apply NoDup_cons. split; [|by apply IH].
  intros Hin. apply Hk. apply list_elem_of_fmap in Hin as ([k' v'] & -> & Hin).
  apply list_elem_of_filter in Hin as [_ Hin]. apply list_elem_of_fmap. by exists (k', v').
Qed.

(** [combined] maps each name of [results] to its collection. *)
Lemma combine_lookup results name v :
  NoDup (map fst results) ->
  obj_lookup (combine results) name = Some v <-> (name, v) ∈ results.
Proof.
  unfold combine.
  assert (H : forall acc,
    NoDup (map fst results) ->
    obj_lookup (fold_left (fun combined '(name, geojson) => obj_set combined name geojson)
                  results acc) name = Some v <->
    (name, v) ∈ results \/ ((name ∉ map fst results) /\ obj_lookup acc name = Some v)).
  { induction results as [|[n g] results IH]; intros acc Hnd; simpl.
    - split; [intros ?; right; split; [apply not_elem_of_nil | done] |].
      intros [?%elem_of_nil|[_ ?]]; done.
    - apply NoDup_cons in Hnd as [Hn Hnd]. rewrite IH by done.
      rewrite obj_lookup_set, elem_of_cons, not_elem_of_cons.
      destruct (str_eqb n name) eqn:E.
      + apply str_eqb_eq in E as ->. split.
        * intros [Hin|[_ [= ->]]]; [|by left; left].
          destruct Hn. apply list_elem_of_fmap. by exists (name, v).
        * intros [[[= ->]|Hin]|[[? _] _]]; [by right | | done].
          destruct Hn. apply list_elem_of_fmap. by exists (name, v).
      + apply str_eqb_neq in E. split.
        * intros [Hin|[Hnot Hacc]]; [by left; right | by right].
        * intros [[[= -> ->]|Hin]|[[_ Hnot] Hacc]]; [done | by left | by right]. }
  intros Hnd. rewrite H by done. split; [|by left].
  intros [?|[_ ?]]; done.
Qed.

(* --------------------------------------------------------------------- *)
(** ** extractRarAndConvert *)
(* --------------------------------------------------------------------- *)

Section Pipeline.

Variable w : World.

Lemma load_archive_state rarPath s : (load_archive w rarPath s).1 = s.
Proof.
  unfold load_archive. destruct (_ || _); [|done].
  rewrite bind_call. destruct (fetch w rarPath) as [response|e]; [|done].
  by destruct (negb (resp_ok response)).
Qed.

(** A successful conversion read an archive, converted exactly its
    complete sets, in the order of [Object.entries], and holds one
    FeatureCollection for each. *)
Lemma convert_archive_results rarPath s s1 results :
  convert_archive w rarPath s = (s1, Ok results) ->
  exists rarData files,
    (load_archive w rarPath s).2 = Ok rarData /\
    createExtractorFromData w rarData = Ok (Ok files) /\
    mkdir w (lit "./temp_extracted") = Ok tt /\
    map fst results = map fst (complete_sets files s) /\
    NoDup (map fst results) /\
    Forall (fun r => is_feature_collection (heap_of s1) r.2) results.
Proof.
  unfold convert_archive. rewrite run_bind.
  pose proof (load_archive_state rarPath s) as Hload.
  destruct (load_archive w rarPath s) as [s0 [rarData|e]]; [|done]. simpl in Hload. subst s0.
  rewrite bind_call.
  destruct (createExtractorFromData w rarData) as [extracted|e] eqn:Hextract; [|done].
  unfold do_mkdir. rewrite run_bind, bind_call.
  destruct (mkdir w (lit "./temp_extracted")) as [[]|e] eqn:Hmkdir; [|done].
  unfold emit at 1. cbn iota beta.
  rewrite bind_call. destruct extracted as [files|e]; [|done].
  rewrite bind_get_prototype. cbn [prototype_of].
  pose proof (group_files_NoDup files (prototype_of s)) as Hnd.
  destruct (group_files files (prototype_of s)) as [shapeFiles prototype1] eqn:Hgroup.
  simpl in Hnd.
  rewrite run_bind. unfold set_prototype at 1. cbn iota beta.
  intros Hsets. apply convert_sets_results in Hsets as (_ & _ & Hfc & Hnames); [|by constructor].
  simpl in Hnames. exists rarData, files.
  unfold complete_sets, archive_sets. rewrite Hgroup. simpl.
  split; [done |]. split; [done |]. split; [done |]. split; [done |]. split; [|done].
  rewrite Hnames. by apply filter_keys_NoDup.
Qed.

Lemma extractRarAndConvert_body rarPath outputJsonPath s :
  extractRarAndConvert w rarPath outputJsonPath s =
  (convert_archive w rarPath ≫= write_output w outputJsonPath) s.
Proof.
  unfold extractRarAndConvert, try_catch.
  by destruct ((convert_archive w rarPath ≫= write_output w outputJsonPath) s) as [s1 [[]|e]].
Qed.

(** C8.  When the conversion of the archive throws, [extractRarAndConvert]
    throws the same and writes nothing.  When it leaves the array
    [results]: with exactly one converted set, the value serialised is
    the [geojson] of that set and no other object is made; otherwise it
    is a new object [combined] whose properties are exactly the names of
    the converted sets, each with the [geojson] of its set.  Every
    [geojson] is a FeatureCollection object in the final heap.  The run
    returns when [JSON.stringify(value, null, 2)] gives the data and
    [writeFile] takes them, and has then written one file, the data at
    the output path; when either throws, the run throws the same and
    has written nothing. *)
Theorem extractRarAndConvert_output (rarPath outputJsonPath : jsstring) (s : State) :
  let run := extractRarAndConvert w rarPath outputJsonPath s in
  match convert_archive w rarPath s with
  | (s1, Throw e) => run = (s1, Throw e)
  | (s1, Ok results) =>
      exists target,
        match results with
        | [(name, geojson)] => target = geojson /\ heap_of run.1 = heap_of s1
        | _ =>
            exists combined ps,
              target = VRef combined /\
              heap_of s1 !! combined = None /\
              heap_of run.1 !! combined = Some (CObject ps) /\
              (forall name geojson,
                 obj_lookup ps name = Some geojson <-> (name, geojson) ∈ results)
        end /\
        Forall (fun r => is_feature_collection (heap_of run.1) r.2) results /\
        match JSON_stringify w (heap_of run.1) target 2 with
        | Ok data =>
            match writeFile w outputJsonPath data with
            | Ok _ =>
                run.2 = Ok tt /\
                effects_of run.1 = effects_of s1 ++ [EWriteFile outputJsonPath data]
            | Throw e => run.2 = Throw e /\ effects_of run.1 = effects_of s1
            end
        | Throw e => run.2 = Throw e /\ effects_of run.1 = effects_of s1
        end
  end.
Proof.
  intros run. subst run. rewrite extractRarAndConvert_body, run_bind.
  destruct (convert_archive w rarPath s) as [s1 [results|e]] eqn:Harchive; [|done].
  destruct (convert_archive_results _ _ _ _ Harchive)
    as (rarData & files & _ & _ & _ & _ & Hnd & Hfc).
  assert (Hmulti :
    let run := (new_cell (CObject (combine results)) ≫= fun combined =>
       get_heap ≫= fun h =>
       call (JSON_stringify w h combined 2) ≫= fun data =>
       do_writeFile w outputJsonPath data) s1 in
    exists target,
      (exists combined ps,
         target = VRef combined /\
         heap_of s1 !! combined = None /\
         heap_of run.1 !! combined = Some (CObject ps) /\
         (forall name geojson,
            obj_lookup ps name = Some geojson <-> (name, geojson) ∈ results)) /\
      Forall (fun r => is_feature_collection (heap_of run.1) r.2) results /\
      match JSON_stringify w (heap_of run.1) target 2 with
      | Ok data =>
          match writeFile w outputJsonPath data with
          | Ok _ =>
              run.2 = Ok tt /\
              effects_of run.1 = effects_of s1 ++ [EWriteFile outputJsonPath data]
          | Throw e => run.2 = Throw e /\ effects_of run.1 = effects_of s1
          end
      | Throw e => run.2 = Throw e /\ effects_of run.1 = effects_of s1
      end).
  { intros run. subst run. rewrite bind_new_cell, bind_get_heap. unfold with_heap.
    cbn [heap_of prototype_of effects_of]. rewrite bind_call.
    exists (VRef (length (heap_of s1))).
    assert (Hheap : forall r : State * result unit,
              heap_of r.1 = heap_of s1 ++ [CObject (combine results)] ->
              (exists combined ps,
                 VRef (length (heap_of s1)) = VRef combined /\
                 heap_of s1 !! combined = None /\
                 heap_of r.1 !! combined = Some (CObject ps) /\
                 (forall name geojson,
                    obj_lookup ps name = Some geojson <-> (name, geojson) ∈ results)) /\
              Forall (fun x => is_feature_collection (heap_of r.1) x.2) results).
    { intros r ->. split.
      - exists (length (heap_of s1)), (combine results). split; [done |].
        split; [by apply lookup_ge_None_2 |]. split; [by apply list_lookup_middle |].
        intros name geojson. by apply combine_lookup.
      - eapply Forall_impl; [done |]. intros x. apply is_feature_collection_keeps.
        by apply prefix_keeps, prefix_app_r. }
    destruct (JSON_stringify w (heap_of s1 ++ [CObject (combine results)])
                (VRef (length (heap_of s1))) 2) as [data|e] eqn:Hjson.
    - unfold do_writeFile. rewrite bind_call.
      destruct (writeFile w outputJsonPath data) as [[]|e] eqn:Hwrite.
      + destruct (Hheap (emit (EWriteFile outputJsonPath data)
           {| heap_of := heap_of s1 ++ [CObject (combine results)];
              prototype_of := prototype_of s1; effects_of := effects_of s1 |}) eq_refl)
          as [H1 H2].
        split; [exact H1 |]. split; [exact H2 |].
        cbn [emit fst snd heap_of effects_of]. by rewrite Hjson, Hwrite.
      + destruct (Hheap ({| heap_of := heap_of s1 ++ [CObject (combine results)];
              prototype_of := prototype_of s1; effects_of := effects_of s1 |},
              Throw e) eq_refl) as [H1 H2].
        split; [exact H1 |]. split; [exact H2 |].
        cbn [fst snd heap_of effects_of]. by rewrite Hjson, Hwrite.
    - destruct (Hheap ({| heap_of := heap_of s1 ++ [CObject (combine results)];
              prototype_of := prototype_of s1; effects_of := effects_of s1 |},
              Throw e) eq_refl) as [H1 H2].
      split; [exact H1 |]. split; [exact H2 |].
      cbn [fst snd heap_of effects_of]. by rewrite Hjson. }
  destruct results as [|[name geojson] [|r results]].
  - destruct Hmulti as (target & H1 & H2 & H3). exists target. done.
  - exists geojson. cbn [write_output]. rewrite bind_get_heap, bind_call.
    destruct (JSON_stringify w (heap_of s1) geojson 2) as [data|e] eqn:Hjson.
    + unfold do_writeFile. rewrite bind_call.
      destruct (writeFile w outputJsonPath data) as [[]|e] eqn:Hwrite;
        cbn [emit fst snd heap_of effects_of]; rewrite Hjson, Hwrite; done.
    + cbn [fst snd heap_of effects_of]. rewrite Hjson. done.
  - destruct Hmulti as (target & H1 & H2 & H3). exists target. done.
Qed.




Lemma batch_step_outcome s results source :
  batch_step w results source s =
  let '(s1, r) := extractRarAndConvert w (url source) (outputPath source) s in
  (s1, Ok (results ++ [outcome_of source r])).
Proof.
  unfold batch_step, try_catch. rewrite run_bind.
  by destruct (extractRarAndConvert w (url source) (outputPath source) s) as [s1 [[]|e]].
Qed.

(** The loop returns, whatever the conversions do. *)
Lemma batch_loop_returns sources results s :
  exists s' outcomes,
    batch_loop w sources results s = (s', Ok (results ++ outcomes)) /\
    batchConvert w sources s = (s', Ok outcomes).
Proof.
  unfold batchConvert. revert results s.
  induction sources as [|source sources IH]; intros results s.
  - exists s, []. by rewrite app_nil_r.
  - cbn [batch_loop]. rewrite !run_bind, !batch_step_outcome.
    destruct (extractRarAndConvert w (url source) (outputPath source) s) as [s1 r].
    destruct (IH (results ++ [outcome_of source r]) s1) as (s' & outcomes & Hloop & Hbatch).
    destruct (IH ([] ++ [outcome_of source r]) s1) as (s'' & outcomes' & Hloop' & Hbatch').
    rewrite Hbatch in Hbatch'. injection Hbatch' as <- <-.
    exists s', (outcome_of source r :: outcomes). split.
    + rewrite Hloop. by rewrite <- app_assoc.
    + by rewrite Hloop'.
Qed.

Lemma batchConvert_returns sources s :
  exists s' outcomes, batchConvert w sources s = (s', Ok outcomes).
Proof. destruct (batch_loop_returns sources [] s) as (s' & outcomes & _ & H). eauto. Qed.

Lemma batchConvert_cons source sources s s1 r s2 outcomes :
  extractRarAndConvert w (url source) (outputPath source) s = (s1, r) ->
  batchConvert w sources s1 = (s2, Ok outcomes) ->
  batchConvert w (source :: sources) s = (s2, Ok (outcome_of source r :: outcomes)).
Proof.
  intros Hrun Hrest. unfold batchConvert at 1. cbn [batch_loop].
  rewrite run_bind, batch_step_outcome, Hrun.
  destruct (batch_loop_returns sources ([] ++ [outcome_of source r]) s1)
    as (s' & outcomes' & -> & Hbatch).
  rewrite Hrest in Hbatch. by injection Hbatch as <- <-.
Qed.

Lemma batchConvert_app sources1 sources2 s s1 s2 outcomes1 outcomes2 :
  batchConvert w sources1 s = (s1, Ok outcomes1) ->
  batchConvert w sources2 s1 = (s2, Ok outcomes2) ->
  batchConvert w (sources1 ++ sources2) s = (s2, Ok (outcomes1 ++ outcomes2)).
Proof.
  revert s outcomes1. induction sources1 as [|source sources1 IH]; intros s outcomes1.
  - intros [= <- <-]. done.
  - intros Hcons Hrest.
    destruct (extractRarAndConvert w (url source) (outputPath source) s) as [s0 r] eqn:Hrun.
    destruct (batchConvert_returns sources1 s0) as (s1' & outcomes1' & Hrest1).
    rewrite (batchConvert_cons _ _ _ _ _ _ _ Hrun Hrest1) in Hcons.
    injection Hcons as <- <-.
    simpl. by apply (batchConvert_cons _ _ _ _ _ _ _ Hrun), IH.
Qed.

(** One outcome per source, in the order of the sources. *)
Lemma batchConvert_order sources s s' outcomes :
  batchConvert w sources s = (s', Ok outcomes) ->
  map (fun o => (outcome_url o, outcome_outputPath o)) outcomes =
  map (fun source => (url source, outputPath source)) sources.
Proof.
  revert s outcomes. induction sources as [|source sources IH]; intros s outcomes.
  - by intros [= <- <-].
  - intros Hcons.
    destruct (extractRarAndConvert w (url source) (outputPath source) s) as [s0 r] eqn:Hrun.
    destruct (batchConvert_returns sources s0) as (s1 & outcomes1 & Hrest).
    rewrite (batchConvert_cons _ _ _ _ _ _ _ Hrun Hrest) in Hcons.
    injection Hcons as <- <-. simpl. rewrite (IH _ _ Hrest). by destruct r.
Qed.

Lemma batchConvert_length sources s s' outcomes :
  batchConvert w sources s = (s', Ok outcomes) -> length outcomes = length sources.
Proof.
  intros Hbatch.
  rewrite <- (length_map (fun o => (outcome_url o, outcome_outputPath o)) outcomes).
  by rewrite (batchConvert_order _ _ _ _ Hbatch), length_map.
Qed.

(** A response that is not [ok] ends the run before anything else
    happens. *)
Lemma extractRarAndConvert_http_error rarPath outputJsonPath response s :
  startsWith rarPath (lit "http://") || startsWith rarPath (lit "https://") = true ->
  fetch w rarPath = Ok response ->
  resp_ok response = false ->
  extractRarAndConvert w rarPath outputJsonPath s =
  (s, Throw (JsError (lit "HTTP error! status: " ++ number_toString (resp_status response)))).
Proof.
  intros Hhttp Hfetch Hok.
  rewrite extractRarAndConvert_body. unfold convert_archive, load_archive.
  rewrite !run_bind, Hhttp, bind_call, Hfetch, Hok. done.
Qed.

(** [batchConvert] returns for every list of sources, whatever the
    conversions do.  When the conversion of one source throws [e]: the
    sources before it give the outcomes they give as a batch of their
    own; the failing source gives the outcome "failed" with
    [e.message], which is [undefined] when [e] is not an Error object
    ([message]); the sources after it are then converted, from the
    state the failed run left, as a batch of their own; there is one
    outcome per source, in the order of the sources; and when the failed
    run left the state as it found it (as a response that is not [ok]
    does, [extractRarAndConvert_http_error]), the final state and the
    other outcomes are those of the batch without the failing source. *)
Lemma batchConvert_failure (before : list Source) (failing : Source) (after : list Source)
    (s : State) :
  exists s1 outcomes1,
    batchConvert w before s = (s1, Ok outcomes1) /\
    forall s2 e,
      extractRarAndConvert w (url failing) (outputPath failing) s1 = (s2, Throw e) ->
      exists s3 outcomes2,
        batchConvert w after s2 = (s3, Ok outcomes2) /\
        let failed :=
          {| outcome_url := url failing; outcome_outputPath := outputPath failing;
             status := lit "failed"; error := Some (message e) |} in
        let outcomes := outcomes1 ++ failed :: outcomes2 in
        batchConvert w (before ++ failing :: after) s = (s3, Ok outcomes) /\
        length outcomes = length (before ++ failing :: after) /\
        map (fun o => (outcome_url o, outcome_outputPath o)) outcomes =
          map (fun source => (url source, outputPath source)) (before ++ failing :: after) /\
        outcomes !! length before = Some failed /\
        (s2 = s1 -> batchConvert w (before ++ after) s = (s3, Ok (outcomes1 ++ outcomes2))).
Proof.
  destruct (batchConvert_returns before s) as (s1 & outcomes1 & Hbefore).
  exists s1, outcomes1. split; [done |]. intros s2 e Hfailing.
  destruct (batchConvert_returns after s2) as (s3 & outcomes2 & Hafter).
  exists s3, outcomes2. split; [done |]. intros failed outcomes.
  assert (Hall : batchConvert w (before ++ failing :: after) s = (s3, Ok outcomes)).
  { apply (batchConvert_app _ _ _ _ _ _ _ Hbefore).
    by apply (batchConvert_cons _ _ _ _ _ _ _ Hfailing). }
  split; [done |]. split; [by eapply batchConvert_length |].
  split; [by eapply batchConvert_order |]. split.
  - subst outcomes. rewrite <- (batchConvert_length _ _ _ _ Hbefore).
    by apply list_lookup_middle.
  - intros ->. by apply (batchConvert_app _ _ _ _ _ _ _ Hbefore).
Qed.


End Pipeline.

(* --------------------------------------------------------------------- *)
(** ** Examples *)
(* --------------------------------------------------------------------- *)

Example configuration : SIMPLIFY_TOLERANCE = 0.001%float /\ ENABLE_SIMPLIFY = true.
Proof. done. Qed.


(** The archive with the two sets [a] and [b]: one object with the
    properties [a] and [b] is written. *)
Lemma extractRarAndConvert_output_witness :
  let run :=
    extractRarAndConvert sample_world (lit "https://example.org/two.rar")
      (lit "output/two.json") initial_state in
  exists s1 results combined ps data,
    convert_archive sample_world (lit "https://example.org/two.rar") initial_state
    = (s1, Ok results) /\
    map fst results = [lit "a"; lit "b"] /\
    Forall (fun r => is_feature_collection (heap_of run.1) r.2) results /\
    heap_of s1 !! combined = None /\
    heap_of run.1 !! combined = Some (CObject ps) /\
    (forall name geojson, obj_lookup ps name = Some geojson <-> (name, geojson) ∈ results) /\
    JSON_stringify sample_world (heap_of run.1) (VRef combined) 2 = Ok data /\
    run.2 = Ok tt /\
    effects_of run.1 = effects_of s1 ++ [EWriteFile (lit "output/two.json") data].
Proof.
  intros run.
  pose proof (extractRarAndConvert_output sample_world (lit "https://example.org/two.rar")
                (lit "output/two.json") initial_state) as H.
  cbv zeta in H. fold run in H.
  destruct (convert_archive sample_world (lit "https://example.org/two.rar") initial_state)
    as [s1 [results|e]] eqn:Harchive.
  - pose proof Harchive as Hnames. vm_compute in Hnames.
    injection Hnames as Hs1 Hresults.
    rewrite <- Hresults in H.
    destruct H as (target & (combined & ps & -> & Hnew & Hcell & Hps) & Hfc & Hrun).
    change (JSON_stringify sample_world (heap_of run.1) (VRef combined) 2)
      with (Ok (A := jsstring) (sample_stringify_value 8 (heap_of run.1) (VRef combined))) in Hrun.
    cbv beta iota in Hrun.
    change (writeFile sample_world (lit "output/two.json")
              (sample_stringify_value 8 (heap_of run.1) (VRef combined)))
      with (Ok (A := unit) tt) in Hrun.
    cbv beta iota in Hrun. destruct Hrun as [Hok Heffects].
    exists s1, results, combined, ps, (sample_stringify_value 8 (heap_of run.1) (VRef combined)).
    rewrite <- Hresults.
    split; [reflexivity |]. split; [reflexivity |]. split; [exact Hfc |].
    split; [exact Hnew |]. split; [exact Hcell |]. split; [exact Hps |].
    split; [reflexivity |]. split; [exact Hok | exact Heffects].
  - vm_compute in Harchive. discriminate Harchive.
Defined.

(** Three sources, the second of which is answered 404: its outcome is
    "failed" with the message of the error, and the two others fare as
    in a batch of their own. *)
Lemma batchConvert_failure_witness :
  exists s3,
    batchConvert sample_world (sample_before ++ sample_failing :: sample_after) initial_state
    = (s3,
       Ok [{| outcome_url := lit "https://example.org/two.rar";
              outcome_outputPath := lit "output/two.json";
              status := lit "success"; error := None |};
           {| outcome_url := lit "https://example.org/missing.rar";
              outcome_outputPath := lit "output/missing.json";
              status := lit "failed";
              error := Some (VString (lit "HTTP error! status: 404")) |};
           {| outcome_url := lit "https://example.org/none.rar";
              outcome_outputPath := lit "output/none.json";
              status := lit "success"; error := None |}]).
Proof.
  destruct (batchConvert_failure sample_world sample_before sample_failing sample_after
              initial_state) as (s1 & outcomes1 & Hbefore & Hrest).
  vm_compute in Hbefore. injection Hbefore as <- <-.
  match type of Hrest with
  | forall s2 e, extractRarAndConvert _ _ _ ?s1 = _ -> _ =>
      destruct (Hrest s1 (JsError (lit "HTTP error! status: 404")))
        as (s3 & outcomes2 & Hafter & Hall & _)
  end.
  { vm_compute. reflexivity. }
  vm_compute in Hafter. injection Hafter as <- <-.
  eexists. exact Hall.
Defined.

(** C9.  A failure recorded without its message.  The second of three
    sources is an archive with a complete set whose .prj holds a text
    that proj4 cannot read.  [parsePrjFile] hands the text on as it is;
    proj4 throws a string; [extractRarAndConvert] throws it again; and
    [batchConvert], which records [error: error.message], finds no
    [message] on a string: the outcome is "failed" and its [error] is
    [undefined].  The batch returns, with one outcome per source in the
    order of the sources, and the two other sources are converted. *)
Theorem batchConvert_loses_message :
  let failing := sample_source "unreadable" in
  let before := batchConvert unreadable_world [sample_source "two"] initial_state in
  parsePrjFile unreadable_world (Some (bytes_of "not a projection")) =
    Some (lit "not a projection") /\
  proj4 unreadable_world (lit "not a projection") WGS84 =
    Throw (JsString (lit "Could not parse to valid json: not a projection")) /\
  (extractRarAndConvert unreadable_world (url failing) (outputPath failing) before.1).2 =
    Throw (JsString (lit "Could not parse to valid json: not a projection")) /\
  (batchConvert unreadable_world unreadable_sources initial_state).2 =
    Ok [{| outcome_url := lit "https://example.org/two.rar";
           outcome_outputPath := lit "output/two.json";
           status := lit "success"; error := None |};
        {| outcome_url := lit "https://example.org/unreadable.rar";
           outcome_outputPath := lit "output/unreadable.json";
           status := lit "failed"; error := Some VUndefined |};
        {| outcome_url := lit "https://example.org/none.rar";
           outcome_outputPath := lit "output/none.json";
           status := lit "success"; error := None |}].
Proof. repeat split; vm_compute; reflexivity. Qed.



(* --------------------------------------------------------------------- *)
(** ** Grouping *)
(* --------------------------------------------------------------------- *)

(** Without a .prj member, and with no .prj property on the prototype,
    the CRS handed to [transformGeometry] is UTM zone 47N. *)
Lemma missing_prj_defaults_to_zone_47 (w : World) (prototype : props Buffer) (fs : fileSet) :
  fileSet_get prototype fs (lit ".prj") = None ->
  or_default (parsePrjFile w (fileSet_get prototype fs (lit ".prj"))) UTM_ZONE_47N
  = UTM_ZONE_47N.
Proof. by intros ->. Qed.

(** The grouping example of the specification: of [a.shp], [a.dbf],
    [a.prj] and [b.shx], the set [a] is the one converted. *)
Example grouping_example :
  map fst (archive_sets example_files initial_state).1 = [lit "a"; lit "b"] /\
  map fst (complete_sets example_files initial_state) = [lit "a"].
Proof. split; vm_compute; reflexivity. Qed.

(** C6, where the code departs from it.  The extension is lower-cased
    for the test against the five extensions, and the lower-cased
    extension is what [path.basename] is asked to strip; [SOIL.SHP] does
    not end in ".shp", so its base name is [SOIL.SHP] and that of
    [SOIL.DBF] is [SOIL.DBF]: two sets, neither complete, and nothing is
    converted, where [soil.shp] and [soil.dbf] make the one set
    [soil]. *)
Theorem upper_case_extensions_not_grouped :
  toLowerCase (extname (lit "SOIL.SHP")) = lit ".shp" /\
  basename_suffix (lit "SOIL.SHP") (lit ".shp") = lit "SOIL.SHP" /\
  (archive_sets upper_case_files initial_state).1 =
    [(lit "SOIL.SHP", [(lit ".shp", bytes_of "points")]);
     (lit "SOIL.DBF", [(lit ".dbf", bytes_of "rows")])] /\
  complete_sets upper_case_files initial_state = [] /\
  complete_sets lower_case_files initial_state =
    [(lit "soil", [(lit ".shp", bytes_of "points"); (lit ".dbf", bytes_of "rows")])].
Proof. repeat split; vm_compute; reflexivity. Qed.

(** From the server to the file: the archive with [A.SHP] and [A.DBF]
    is converted to "{}" and recorded as a success. *)
Example upper_case_archive_writes_empty_object :
  exists s',
    batchConvert sample_world [sample_source "upper"] initial_state =
      (s', Ok [{| outcome_url := lit "https://example.org/upper.rar";
                  outcome_outputPath := lit "output/upper.json";
                  status := lit "success"; error := None |}]) /\
    effects_of s' =
      [EMkdir (lit "./temp_extracted"); EWriteFile (lit "output/upper.json") (lit "{}")].
Proof. eexists. split; vm_compute; reflexivity. Qed.

(** [shapeFiles] is a plain object.  Under the name of an inherited
    method, [shapeFiles[baseName]] is that method, no set is made, and
    the members are dropped. *)
Example inherited_name_not_grouped :
  archive_sets inherited_name_files initial_state = ([], []).
Proof. vm_compute. reflexivity. Qed.

(** Under the name "__proto__" the members land on [Object.prototype],
    where every set finds them: [b], with a .shx member only, is
    converted. *)
Example proto_name_completes_every_set :
  archive_sets proto_name_files initial_state =
    ([(lit "b", [(lit ".shx", bytes_of "index")])],
     [(lit ".shp", bytes_of "points"); (lit ".dbf", bytes_of "rows")]) /\
  map fst (complete_sets proto_name_files initial_state) = [lit "b"].
Proof. split; vm_compute; reflexivity. Qed.

(* ===================================================================== *)
(** * Part III: more of the code *)
(* ===================================================================== *)

(* --------------------------------------------------------------------- *)
(** ** transformCoords keeps the nesting *)
(* --------------------------------------------------------------------- *)

Lemma reshaped_mono transform depth h0 h1 h2 h3 v v' :
  h0 `prefix_of` h1 ->
  (forall l elems, h2 !! l = Some (CArray elems) -> h3 !! l = Some (CArray elems)) ->
  reshaped transform depth h1 h2 v v' -> reshaped transform depth h0 h3 v v'.
Proof.
  intros H01 H23. revert v v'. induction depth as [|d IH]; intros v v'; simpl.
  - intros (l' & hm & out & -> & Hnew & Hlo & Hfwd & Hcell).
    exists l', hm, out. split; [done |]. split.
    { apply lookup_ge_None_2. apply lookup_ge_None_1 in Hnew.
      apply prefix_length in H01. lia. }
    split; [by etrans |]. split; [done |]. by apply H23.
  - intros (l & elems & l' & elems' & -> & Hl & -> & Hnew & Hl' & Hall).
    exists l, elems, l', elems'. split; [done |].
    split; [by apply H23 |]. split; [done |]. split.
    { apply lookup_ge_None_2. apply lookup_ge_None_1 in Hnew.
      apply prefix_length in H01. lia. }
    split; [by apply H23 |].
    eapply Forall2_impl; [done |]. intros x y. apply IH.
Qed.

Lemma reshaped_prefix transform depth h0 h1 h2 h3 v v' :
  h0 `prefix_of` h1 -> h2 `prefix_of` h3 ->
  reshaped transform depth h1 h2 v v' -> reshaped transform depth h0 h3 v v'.
Proof.
  intros H01 H23. apply reshaped_mono; [done |].
  intros l elems Hl. by eapply prefix_lookup_Some.
Qed.

(** What [map] does with a callback that relates each element to its
    image. *)
Lemma map_elems_Forall2 (f : heap -> value -> heap * result value)
    (R : heap -> heap -> value -> value -> Prop) (xs : list value) :
  (forall h x h1 r1, f h x = (h1, r1) -> h `prefix_of` h1) ->
  (forall h0 h1 h2 h3 x y, h0 `prefix_of` h1 -> h2 `prefix_of` h3 -> R h1 h2 x y -> R h0 h3 x y) ->
  (forall h x h1 y, f h x = (h1, Ok y) -> R h h1 x y) ->
  forall h h' ys, map_elems f h xs = (h', Ok ys) -> Forall2 (R h h') xs ys.
Proof.
  intros Hf Hmono HR. induction xs as [|x xs IH]; intros h h' ys; simpl.
  - intros [= <- <-]. constructor.
  - destruct (f h x) as [h1 [y|e]] eqn:Hx; [|done].
    destruct (map_elems f h1 xs) as [h2 [ys'|e]] eqn:Hxs; [|done].
    intros [= <- <-].
    pose proof (Hf _ _ _ _ Hx) as H1.
    pose proof (map_elems_prefix _ _ _ _ _ Hf Hxs) as H2.
    constructor.
    + apply (Hmono h h h1 h2); [done | done |]. by apply HR.
    + eapply Forall2_impl; [by apply IH |]. intros a b. by apply Hmono.
Qed.

Lemma deref_array h l elems : deref h l = CArray elems -> h !! l = Some (CArray elems).
Proof. unfold deref. destruct (h !! l); [by intros -> | done]. Qed.

Lemma transformCoords_reshaped transform depth h coords h' out :
  transformCoords transform depth h coords = (h', Ok out) ->
  reshaped transform depth h h' coords out.
Proof.
  revert h coords h' out. induction depth as [|d IH]; intros h coords h' out; simpl.
  - destruct (transform h coords) as [[elems|]|e] eqn:Hfwd; intros [= <- <-].
    exists (length h), h, elems. split; [done |]. split; [by apply lookup_ge_None_2 |].
    split; [done |]. split; [done |]. by apply list_lookup_middle.
  - destruct coords as [| | | | |l]; try done.
    destruct (deref h l) as [ps|elems] eqn:Hl; [done |].
    destruct (map_elems (transformCoords transform d) h elems) as [h1 [elems'|e]] eqn:Hmap;
      intros [= <- <-].
    pose proof (map_elems_prefix _ _ _ _ _
                  (fun h x h1 r1 => transformCoords_prefix transform d h x h1 r1) Hmap) as Hpre.
    exists l, elems, (length h1), elems'. split; [done |]. split.
    { apply lookup_app_l_Some. eapply prefix_lookup_Some; [|done]. by apply deref_array. }
    split; [done |]. split; [apply lookup_ge_None_2; by apply prefix_length |].
    split; [by apply list_lookup_middle |].
    eapply Forall2_impl.
    + eapply (map_elems_Forall2 _ (reshaped transform d)); [| |exact IH|exact Hmap].
      * intros. by eapply transformCoords_prefix.
      * intros. by eapply reshaped_prefix.
    + intros x y. apply reshaped_prefix; [done | by apply prefix_app_r].
Qed.

Section Reshaping.

Variable w : World.

(** X1.  When [transformGeometry] returns for a geometry object of one
    of the six kinds and a source CRS that asks for a transform, the
    [coordinates] of the result repeat the nesting of the input
    coordinates to the depth of the kind, level by level with the same
    number of elements, in arrays that are all new; each position of
    the result is an array of exactly two elements, the first two that
    [forward] handed back for the input position, whatever else the
    input position or the answer of [forward] held. *)
Theorem transformGeometry_reshapes (g : loc) (ps : props value) (sourceCRS : option jsstring)
    (h h' : heap) (out : value) (depth : nat) :
  h !! g = Some (CObject ps) ->
  no_transform sourceCRS = false ->
  switch_depth (default VUndefined (obj_lookup ps (lit "type"))) = Some depth ->
  transformGeometry w (VRef g) sourceCRS h = (h', Ok out) ->
  exists transform coordinates,
    proj4 w (default [] sourceCRS) WGS84 = Ok transform /\
    get_prop h' out (lit "coordinates") = Ok coordinates /\
    reshaped transform depth h h'
      (default VUndefined (obj_lookup ps (lit "coordinates"))) coordinates.
Proof.
  intros Hg Hcrs Hdepth. unfold transformGeometry. rewrite Hcrs.
  destruct (proj4 w (default [] sourceCRS) WGS84) as [transform|e]; [|done].
  rewrite alloc_spec. simpl. rewrite (deref_Some _ _ _ Hg).
  assert (Hg' : deref (h ++ [CObject ps]) g = CObject ps).
  { apply deref_Some. by apply lookup_app_l_Some. }
  rewrite Hg', Hdepth.
  destruct (transformCoords transform depth (h ++ [CObject ps]) _)
    as [h2 [coordinates|e]] eqn:Hcoords; [|done].
  pose proof (transformCoords_reshaped _ _ _ _ _ _ Hcoords) as Hshape.
  apply transformCoords_prefix in Hcoords as [ext ->].
  intros [= <- <-]. exists transform, coordinates. split; [done |].
  rewrite <- app_assoc in *. simpl in *. rewrite set_prop_new_object. split.
  - simpl. rewrite (deref_Some _ _ (CObject (obj_set ps (lit "coordinates") coordinates)))
      by by apply list_lookup_middle.
    by rewrite obj_lookup_set_eq.
  - eapply reshaped_mono; [by apply prefix_app_r | | exact Hshape].
    intros l elems Hl.
    destruct (decide (l = length h)) as [->|Hne].
    + rewrite list_lookup_middle in Hl by done. done.
    + destruct (decide (l < length h)).
      * rewrite lookup_app_l in Hl |- * by done. done.
      * rewrite lookup_app_r in Hl |- * by lia.
        destruct (l - length h) as [|i] eqn:Hi; [lia | done].
Qed.

End Reshaping.

(** The sample line string: two positions in, two positions out. *)
Lemma transformGeometry_reshapes_witness :
  let run :=
    transformGeometry sample_world (VRef sample_line_ref) (Some UTM_ZONE_47N) sample_line_heap in
  exists transform coordinates,
    proj4 sample_world UTM_ZONE_47N WGS84 = Ok transform /\
    get_prop run.1 (VRef 4) (lit "coordinates") = Ok coordinates /\
    reshaped transform 1 sample_line_heap run.1 (VRef 2) coordinates.
Proof.
  apply (transformGeometry_reshapes sample_world sample_line_ref
           [(lit "type", VString (lit "LineString")); (lit "coordinates", VRef 2)]
           (Some UTM_ZONE_47N) sample_line_heap _ (VRef 4) 1 eq_refl eq_refl eq_refl).
  vm_compute. reflexivity.
Defined.

(* --------------------------------------------------------------------- *)
(** ** The CRS a set is converted from *)
(* --------------------------------------------------------------------- *)

Section SourceCRS.

Variable w : World.

(** [sourceCRS || UTM_ZONE_47N] after [parsePrjFile], on the markers. *)
Lemma or_default_parsePrjFile (buf : Buffer) :
  let prjText := Buffer_toString w buf in
  let crs := or_default (parsePrjFile w (Some buf)) UTM_ZONE_47N in
  crs <> [] /\
  no_transform (Some crs) =
    negb (includes prjText (lit "UTM_Zone_47") || includes prjText (lit "UTM Zone 47")) &&
    negb (includes prjText (lit "UTM_Zone_48") || includes prjText (lit "UTM Zone 48")) &&
    (includes prjText (lit "GCS_WGS_1984") || includes prjText (lit "WGS 84") ||
     str_eqb prjText (lit "EPSG:4326")).
Proof.
  intros prjText crs. subst crs. unfold parsePrjFile. fold prjText.
  destruct (includes prjText (lit "UTM_Zone_47") || includes prjText (lit "UTM Zone 47"));
    [done |].
  destruct (includes prjText (lit "UTM_Zone_48") || includes prjText (lit "UTM Zone 48"));
    [done |].
  destruct (includes prjText (lit "GCS_WGS_1984") || includes prjText (lit "WGS 84"));
    [done |].
  unfold or_default, no_transform. destruct (str_eqb prjText []) eqn:Hempty.
  - split; [done |]. apply str_eqb_eq in Hempty. by rewrite Hempty.
  - split; [by apply str_eqb_neq |]. rewrite Hempty. simpl. apply orb_diag.
Qed.

(** [transformGeometry] hands its argument back, in the heap as it was,
    exactly when the source CRS asks for no transform. *)
Lemma transformGeometry_identity_iff (sourceCRS : option jsstring) :
  (forall geometry h, transformGeometry w geometry sourceCRS h = (h, Ok geometry)) <->
  no_transform sourceCRS = true.
Proof.
  split.
  - intros Hid. destruct (no_transform sourceCRS) eqn:Hcrs; [done |].
    specialize (Hid VNull []).
    destruct (transformGeometry_result w _ _ _ _ _ Hcrs Hid) as (Hout & _). done.
  - intros Hcrs geometry h. unfold transformGeometry. by rewrite Hcrs.
Qed.

(** X2.  The CRS the read loop hands to [transformGeometry],
    [parsePrjFile(fileSet[".prj"]) || UTM_ZONE_47N], is never the empty
    string, and the geometries of a set are handed back as they are
    (same object, nothing allocated, proj4 not needed) exactly when the
    set has a .prj member whose text has no zone 47 and no zone 48
    marker and either has a WGS84 marker or is "EPSG:4326" itself.  A
    set without .prj member, or with an empty one, is never passed
    through. *)
Theorem reprojection_skipped (prj : option Buffer) :
  let crs := or_default (parsePrjFile w prj) UTM_ZONE_47N in
  crs <> [] /\
  ((forall geometry h, transformGeometry w geometry (Some crs) h = (h, Ok geometry)) <->
   exists buf,
     prj = Some buf /\
     let prjText := Buffer_toString w buf in
     ~ (contains prjText (lit "UTM_Zone_47") \/ contains prjText (lit "UTM Zone 47")) /\
     ~ (contains prjText (lit "UTM_Zone_48") \/ contains prjText (lit "UTM Zone 48")) /\
     (contains prjText (lit "GCS_WGS_1984") \/ contains prjText (lit "WGS 84") \/
      prjText = lit "EPSG:4326")).
Proof.
  intros crs. subst crs. rewrite transformGeometry_identity_iff.
  destruct prj as [buf|].
  2: { split; [done |]. split; [done | by intros (buf & ? & _)]. }
  destruct (or_default_parsePrjFile buf) as [Hne Hskip].
  split; [exact Hne |]. rewrite Hskip.
  rewrite !andb_true_iff, !negb_true_iff, !orb_false_iff, !orb_true_iff,
    !includes_not_contains, !includes_contains, str_eqb_eq.
  split.
  - intros [[[? ?] [? ?]] Hany]. exists buf. split; [done |].
    split; [by intros [?|?] |]. split; [by intros [?|?] |]. tauto.
  - intros (b & [= <-] & H47 & H48 & Hany). tauto.
Qed.

End SourceCRS.

(* --------------------------------------------------------------------- *)
(** ** Grouping the members *)
(* --------------------------------------------------------------------- *)

(** [group_file] through [member_entry]. *)
Lemma group_file_entry (acc : props fileSet * props Buffer) (file : ArchiveFile) :
  group_file acc file =
  match member_entry file with
  | None => acc
  | Some (baseName, ext, data) =>
      match shapeFiles_get acc.2 acc.1 baseName with
      | NotFound => (obj_set acc.1 baseName [(ext, data)], acc.2)
      | OwnFileSet fs => (obj_set acc.1 baseName (obj_set fs ext data), acc.2)
      | ThePrototype => (acc.1, obj_set acc.2 ext data)
      | Inherited => acc
      end
  end.
Proof.
  destruct acc as [shapeFiles prototype]. unfold group_file, member_entry.
  destruct (extraction file) as [data|]; [|done].
  destruct (str_in _ SHAPE_EXTENSIONS); [|done]. simpl.
  by destruct (shapeFiles_get prototype shapeFiles _).
Qed.

Lemma group_files_snoc files file prototype :
  group_files (files ++ [file]) prototype = group_file (group_files files prototype) file.
Proof. unfold group_files. by rewrite fold_left_app. Qed.

Lemma last_entry_snoc files file baseName ext :
  last_entry (files ++ [file]) baseName ext =
  match member_entry file with
  | Some (b, e, data) =>
      if str_eqb b baseName && str_eqb e ext then Some data else last_entry files baseName ext
  | None => last_entry files baseName ext
  end.
Proof.
  unfold last_entry. rewrite omap_app. simpl.
  destruct (member_entry file) as [[[b e] data]|]; simpl.
  - destruct (str_eqb b baseName && str_eqb e ext); simpl.
    + by rewrite last_snoc.
    + by rewrite app_nil_r.
  - by rewrite app_nil_r.
Qed.

Lemma shapeFiles_get_ordinary prototype (shapeFiles : props fileSet) baseName :
  ordinary prototype baseName ->
  shapeFiles_get prototype shapeFiles baseName =
  match obj_lookup shapeFiles baseName with Some fs => OwnFileSet fs | None => NotFound end.
Proof.
  unfold ordinary, shapeFiles_get. simpl. by destruct (obj_lookup shapeFiles baseName).
Qed.

(** On own properties: what the loop has stored under a base name and
    an extension is the contents of the last such member. *)
Lemma group_files_own (files : list ArchiveFile) (prototype : props Buffer) :
  (forall file baseName ext data,
     file ∈ files -> member_entry file = Some (baseName, ext, data) ->
     ordinary prototype baseName) ->
  (group_files files prototype).2 = prototype /\
  forall baseName ext,
    shapeFiles_lookup (group_files files prototype).1 baseName ext =
    last_entry files baseName ext.
Proof.
  induction files as [|file files IH] using rev_ind; intros Hordinary; [done |].
  destruct IH as [IHproto IHlookup].
  { intros f b e d Hf. apply Hordinary. apply elem_of_app. by left. }
  rewrite group_files_snoc, group_file_entry.
  destruct (group_files files prototype) as [shapeFiles prototype1]. simpl in *. subst prototype1.
  destruct (member_entry file) as [[[b e] data]|] eqn:Hentry.
  2: { split; [done |]. intros baseName ext. by rewrite last_entry_snoc, Hentry. }
  assert (Hb : ordinary prototype b).
  { eapply Hordinary; [|done]. apply elem_of_app. right. by apply list_elem_of_singleton. }
  rewrite (shapeFiles_get_ordinary _ _ _ Hb).
  assert (Hstep : forall fs,
    match obj_lookup shapeFiles b with
    | Some fs0 => fs = obj_set fs0 e data
    | None => fs = [(e, data)]
    end ->
    forall baseName ext,
      shapeFiles_lookup (obj_set shapeFiles b fs) baseName ext =
      last_entry (files ++ [file]) baseName ext).
  { intros fs Hfs baseName ext. rewrite last_entry_snoc, Hentry, <- IHlookup.
    unfold shapeFiles_lookup. rewrite obj_lookup_set.
    destruct (str_eqb b baseName) eqn:Hbase; simpl; [|done].
    apply str_eqb_eq in Hbase as <-.
    destruct (obj_lookup shapeFiles b) as [fs0|]; subst fs.
    - by rewrite obj_lookup_set.
    - simpl. by destruct (str_eqb e ext). }
  destruct (obj_lookup shapeFiles b) as [fs0|] eqn:Hlookup; simpl.
  - split; [done |]. by apply Hstep.
  - split; [done |]. by apply Hstep.
Qed.

(** No set is stored without a property. *)
Lemma group_files_inhabited (files : list ArchiveFile) (prototype : props Buffer)
    (baseName : jsstring) (fs : fileSet) :
  obj_lookup (group_files files prototype).1 baseName = Some fs ->
  exists ext data, obj_lookup fs ext = Some data.
Proof.
  revert fs. induction files as [|file files IH] using rev_ind; intros fs; [done |].
  rewrite group_files_snoc, group_file_entry.
  destruct (group_files files prototype) as [shapeFiles prototype1]. cbn [fst snd] in *.
  destruct (member_entry file) as [[[b e] data]|]; [|apply IH].
  assert (Hset : forall new,
    obj_lookup new e = Some data ->
    obj_lookup (obj_set shapeFiles b new) baseName = Some fs ->
    exists ext data, obj_lookup fs ext = Some data).
  { intros new Hnew. rewrite obj_lookup_set. destruct (str_eqb b baseName); [|apply IH].
    intros [= <-]. eauto. }
  destruct (shapeFiles_get prototype1 shapeFiles b) as [fs0| | |]; cbn [fst snd];
    [| apply IH | apply IH |].
  - apply Hset. rewrite obj_lookup_set. by rewrite (proj2 (str_eqb_eq e e) eq_refl).
  - apply Hset. simpl. by rewrite (proj2 (str_eqb_eq e e) eq_refl).
Qed.

(** X3.  For an archive none of whose base names is "__proto__", the
    name of a method of [Object.prototype] or a property put on it
    earlier: the grouping loop puts nothing on [Object.prototype], and
    for every such base name, [shapeFiles[baseName]] is a set exactly
    when the archive has a member with that base name, and [undefined]
    otherwise; on that set the read [shapeFiles[baseName][ext]] gives
    the contents of the last member with that base name and that
    (lower-cased) extension, and when there is no such member what
    [Object.prototype] has under [ext]: [undefined], unless a property
    of that name was put there earlier. *)
Theorem group_files_lookup (files : list ArchiveFile) (prototype : props Buffer) :
  (forall file baseName ext data,
     file ∈ files -> member_entry file = Some (baseName, ext, data) ->
     ordinary prototype baseName) ->
  let grouped := group_files files prototype in
  grouped.2 = prototype /\
  forall baseName,
    ordinary prototype baseName ->
    match shapeFiles_get grouped.2 grouped.1 baseName with
    | OwnFileSet fs =>
        (exists ext, is_Some (last_entry files baseName ext)) /\
        forall ext,
          fileSet_get grouped.2 fs ext =
          match last_entry files baseName ext with
          | Some data => Some data
          | None => obj_lookup prototype ext
          end
    | NotFound => forall ext, last_entry files baseName ext = None
    | ThePrototype | Inherited => False
    end.
Proof.
  intros Hordinary grouped. subst grouped.
  destruct (group_files_own files prototype Hordinary) as [Hproto Hown].
  split; [done |]. intros baseName Hb. rewrite Hproto.
  rewrite (shapeFiles_get_ordinary _ _ _ Hb).
  pose proof (group_files_inhabited files prototype baseName) as Hinhabited.
  unfold shapeFiles_lookup in Hown. specialize (Hown baseName).
  destruct (obj_lookup (group_files files prototype).1 baseName) as [fs|].
  - split.
    + destruct (Hinhabited fs eq_refl) as (ext & data & Hext).
      exists ext. rewrite <- Hown, Hext. by eexists.
    + intros ext. unfold fileSet_get. rewrite Hown.
      by destruct (last_entry files baseName ext).
  - intros ext. by rewrite <- Hown.
Qed.

Lemma example_files_ordinary (file : ArchiveFile) (baseName ext : jsstring) (data : Buffer) :
  file ∈ example_files -> member_entry file = Some (baseName, ext, data) -> ordinary [] baseName.
Proof.
  intros Hin Hentry. unfold example_files in Hin.
  repeat (apply elem_of_cons in Hin as [->|Hin]); [..|by apply elem_of_nil in Hin];
    vm_compute in Hentry; injection Hentry as <- <- <-; reflexivity.
Qed.

(** The members [a.shp], [a.dbf], [a.prj] and [b.shx]: the set [a] has
    no [.shx], and there is no set [c]. *)
Lemma group_files_lookup_witness :
  (group_files example_files []).2 = [] /\
  (exists fs,
     shapeFiles_get [] (group_files example_files []).1 (lit "a") = OwnFileSet fs /\
     fileSet_get [] fs (lit ".prj") = Some (bytes_of "PROJCS[WGS_1984_UTM_Zone_47N]") /\
     fileSet_get [] fs (lit ".shx") = None) /\
  shapeFiles_get [] (group_files example_files []).1 (lit "c") = NotFound.
Proof.
  destruct (group_files_lookup example_files [] example_files_ordinary) as [Hproto Hlookup].
  split; [exact Hproto |]. split.
  - specialize (Hlookup (lit "a") eq_refl). rewrite Hproto in Hlookup.
    destruct (shapeFiles_get [] (group_files example_files []).1 (lit "a")) as [fs| | |];
      [| done | done | discriminate (Hlookup (lit ".shp"))].
    destruct Hlookup as [_ Hread]. exists fs. split; [done |].
    split; rewrite Hread; reflexivity.
  - reflexivity.
Defined.

(** X4.  Members without contents (directories) and members whose
    extension, lower-cased, is none of the five are ignored: the
    grouping loop gives for an archive what it gives for the archive
    without them, whatever the names and whatever was put on
    [Object.prototype] before. *)
Theorem group_files_ignores (files : list ArchiveFile) (prototype : props Buffer) :
  group_files (filter (fun file => is_Some (member_entry file)) files) prototype =
  group_files files prototype.
Proof.
  unfold group_files. generalize (@nil (jsstring * fileSet), prototype).
  induction files as [|file files IH]; intros acc; [done |].
  rewrite filter_cons. simpl. destruct (decide (is_Some (member_entry file))) as [Hsome|Hnone].
  - simpl. apply IH.
  - rewrite IH. f_equal. rewrite group_file_entry.
    destruct (member_entry file); [|done]. destruct Hnone. by eexists.
Qed.

Lemma take_until_none (p : N -> bool) (s : jsstring) :
  Forall (fun c => p c = false) (take_until p s).
Proof.
  induction s as [|c s IH]; simpl; [done |].
  destruct (p c) eqn:Hc; [done | by constructor].
Qed.

Lemma take_until_all (p : N -> bool) (s : jsstring) :
  Forall (fun c => p c = false) s -> take_until p s = s.
Proof. induction 1 as [|c s Hc _ IH]; simpl; [done |]. by rewrite Hc, IH. Qed.

Lemma drop_while_all (p : N -> bool) (s : jsstring) :
  Forall (fun c => p c = false) s -> drop_while p s = s.
Proof. destruct 1 as [|c s Hc _]; simpl; [done |]. by rewrite Hc. Qed.

(** The last portion of a path has no directory of its own. *)
Lemma basename_basename (p : jsstring) : basename (basename p) = basename p.
Proof.
  unfold basename. rewrite rev_involutive.
  pose proof (take_until_none is_slash (drop_while is_slash (rev p))) as Hnone.
  by rewrite (drop_while_all _ _ Hnone), (take_until_all _ _ Hnone).
Qed.

Lemma group_files_flatten (files : list ArchiveFile) (prototype : props Buffer) :
  group_files (map flatten files) prototype = group_files files prototype.
Proof.
  unfold group_files. generalize (@nil (jsstring * fileSet), prototype).
  induction files as [|file files IH]; intros acc; simpl; [done |].
  rewrite IH. f_equal. destruct acc as [shapeFiles prototype1].
  unfold group_file, flatten. cbn [fileHeader_name extraction].
  by rewrite basename_basename.
Qed.

(** X5.  The directory of a member plays no role in the grouping: two
    archives whose members have, in order, the same file names (last
    path portions) and the same contents give the same sets, so members
    of different directories with one file name fall into one set. *)
Theorem group_files_by_file_name (files1 files2 : list ArchiveFile) (prototype : props Buffer) :
  map flatten files1 = map flatten files2 ->
  group_files files1 prototype = group_files files2 prototype.
Proof.
  intros Hsame. rewrite <- (group_files_flatten files1), <- (group_files_flatten files2).
  by rewrite Hsame.
Qed.

(** [soil/a.shp] and [data/a.dbf] make the set [a]. *)
Lemma group_files_by_file_name_witness :
  group_files scattered_files [] = group_files gathered_files [].
Proof. apply group_files_by_file_name. vm_compute. reflexivity. Defined.

(* --------------------------------------------------------------------- *)
(** ** The read loop *)
(* --------------------------------------------------------------------- *)

Lemma same_but_refl k c : same_but k c c.
Proof. by destruct c. Qed.

Lemma same_but_trans k c1 c2 c3 : same_but k c1 c2 -> same_but k c2 c3 -> same_but k c1 c3.
Proof.
  destruct c1, c2, c3; simpl; try done.
  - intros H12 H23 k' Hk'. by rewrite H23, H12.
  - congruence.
Qed.

#[local] Instance reassigning_preorder (f : loc) (k : jsstring) : PreOrder (reassigning f k).
Proof.
  split.
  - intros s l c Hl. exists c. split; [done |]. split; [done | apply same_but_refl].
  - intros s1 s2 s3 H12 H23 l c Hl.
    destruct (H12 _ _ Hl) as (c2 & Hl2 & Hne2 & Hsame2).
    destruct (H23 _ _ Hl2) as (c3 & Hl3 & Hne3 & Hsame3).
    exists c3. split; [done |]. split.
    + intros Hne. by rewrite Hne3, Hne2.
    + by eapply same_but_trans.
Qed.

Lemma reassigning_on_heap (f : loc) (k : jsstring) {A} (g : heap -> heap * result A) :
  (forall h, h `prefix_of` (g h).1) -> respects (reassigning f k) (on_heap g).
Proof.
  intros Hg s l c Hl. specialize (Hg (heap_of s)). unfold on_heap.
  destruct (g (heap_of s)) as [h r]. simpl in *.
  exists c. split; [by eapply prefix_lookup_Some |]. split; [done | apply same_but_refl].
Qed.

Lemma reassigning_assign_prop (f : loc) (k : jsstring) (v : value) :
  respects (reassigning f k) (assign_prop (VRef f) k v).
Proof.
  intros s l c Hl. simpl. unfold on_heap, set_prop, deref. simpl.
  destruct (heap_of s !! f) as [[ps|elems]|] eqn:Hf; simpl.
  - destruct (decide (l = f)) as [->|Hne].
    + exists (CObject (obj_set ps k v)). split.
      * apply list_lookup_insert_eq. by eapply lookup_lt_Some.
      * split; [done |]. rewrite Hf in Hl. injection Hl as <-. simpl.
        intros k' Hk'. by apply obj_lookup_set_ne.
    + exists c. split; [by rewrite list_lookup_insert_ne |].
      split; [done | apply same_but_refl].
  - exists c. split; [done |]. split; [done | apply same_but_refl].
  - exists c. split.
    + rewrite list_insert_ge; [done |]. by apply lookup_ge_None_1.
    + split; [done | apply same_but_refl].
Qed.

Lemma reassigning_emit f k e : respects (reassigning f k) (emit e).
Proof. intros s l c Hl. exists c. split; [done |]. split; [done | apply same_but_refl]. Qed.

Section ReadLoop.

Variable w : World.

Lemma build_on_heap_prefix answer h :
  h `prefix_of` ((fun h => let '(v, h1) := build answer h in (h1, Ok (A := value) v)) h).1.
Proof.
  destruct (build_prefix answer h) as [Hpre _]. by destruct (build answer h).
Qed.

(** X7.  One pass of the read loop over a feature, whether it returns
    or throws, puts nothing on [Object.prototype] and keeps every cell
    the heap had: the feature keeps all its properties but [geometry],
    which is the only one reassigned, and every other object or array
    is unchanged (the geometry read, the properties of the feature).
    For a feature whose [geometry] is [null], [undefined] or otherwise
    falsy the pass does nothing at all. *)
Theorem process_feature_frame (sourceCRS : option jsstring) (f : loc) (s : State) :
  let run := process_feature w sourceCRS (VRef f) s in
  prototype_of run.1 = prototype_of s /\
  reassigning f (lit "geometry") s run.1 /\
  (forall geometry,
     get_prop (heap_of s) (VRef f) (lit "geometry") = Ok geometry ->
     truthy geometry = false ->
     run = (s, Ok tt)).
Proof.
  intros run. subst run. split; [|split].
  - apply (process_feature_same_prototype w sourceCRS (VRef f) s).
  - assert (H : respects (reassigning f (lit "geometry")) (process_feature w sourceCRS (VRef f))).
    { unfold process_feature.
      repeat first
        [ apply respects_bind; [apply _ | | intros ?]
        | apply reassigning_assign_prop
        | apply reassigning_emit
        | apply reassigning_on_heap; intros ?;
            first [apply transformGeometry_prefix | apply build_on_heap_prefix]
        | solve [eauto with respects]
        | match goal with |- respects _ (if ?b then _ else _) => destruct b end
        | match goal with |- respects _ (match ?r with _ => _ end) => destruct r end ]. }
    apply H.
  - intros geometry Hget Hfalsy. unfold process_feature.
    rewrite bind_get_heap, bind_call, Hget, Hfalsy. done.
Qed.

(** X15.  When a pass of the read loop returns for a feature whose
    [geometry] is an object: [transformGeometry] returned for that
    geometry and the CRS of the set, and its result was assigned to
    [feature.geometry] before anything else.  For a type that is
    simplified, [simplify] was then called on the feature in that
    state, so on the reprojected coordinates, and [feature.geometry]
    ends as the [geometry] of what [simplify] handed back; for any
    other type the heap ends as the assignment left it. *)
Theorem process_feature_geometry (sourceCRS : option jsstring) (s s' : State)
    (f g : loc) (fps gps : props value) :
  heap_of s !! f = Some (CObject fps) ->
  obj_lookup fps (lit "geometry") = Some (VRef g) ->
  heap_of s !! g = Some (CObject gps) ->
  process_feature w sourceCRS (VRef f) s = (s', Ok tt) ->
  exists h1 transformed,
    transformGeometry w (VRef g) (Some (or_default sourceCRS UTM_ZONE_47N)) (heap_of s)
    = (h1, Ok transformed) /\
    let reprojected := set_prop h1 f (lit "geometry") transformed in
    get_prop reprojected (VRef f) (lit "geometry") = Ok transformed /\
    if simplify_guard (default VUndefined (obj_lookup gps (lit "type"))) then
      exists answer geometry,
        simplify w reprojected (VRef f) SIMPLIFY_TOLERANCE true = Ok answer /\
        get_prop (build answer reprojected).2 (build answer reprojected).1 (lit "geometry")
        = Ok geometry /\
        get_prop (heap_of s') (VRef f) (lit "geometry") = Ok geometry
    else heap_of s' = reprojected.
Proof.
  intros Hf Hgeom Hg. rewrite (process_feature_run w sourceCRS s f g fps gps Hf Hgeom Hg).
  pose proof (transformGeometry_prefix w (VRef g) (Some (or_default sourceCRS UTM_ZONE_47N))
                (heap_of s)) as Hpre.
  destruct (transformGeometry w (VRef g) (Some (or_default sourceCRS UTM_ZONE_47N)) (heap_of s))
    as [h1 [transformed|e]] eqn:Hrun; [|done].
  simpl in Hpre. cbv zeta.
  destruct (reprojected_type w _ _ _ _ _ _ _ _ Hf Hg Hrun) as [Hread _].
  destruct (stringify_length w (set_prop h1 f (lit "geometry") transformed) transformed)
    as [n|e]; [|done].
  intros Hrest. exists h1, transformed. split; [done |]. split; [done |].
  destruct (simplify_guard (default VUndefined (obj_lookup gps (lit "type")))).
  - destruct (simplify w (set_prop h1 f (lit "geometry") transformed) (VRef f)
                SIMPLIFY_TOLERANCE true) as [answer|e]; [|done].
    pose proof (build_prefix answer (set_prop h1 f (lit "geometry") transformed)) as [Hbuild _].
    destruct (get_prop (build answer (set_prop h1 f (lit "geometry") transformed)).2
                (build answer (set_prop h1 f (lit "geometry") transformed)).1 (lit "geometry"))
      as [geometry|e] eqn:Hsimplified; [|done].
    injection Hrest as <- _.
    exists answer, geometry. split; [done |]. split; [done |]. cbn [heap_of simplifying].
    assert (Hf1 : h1 !! f = Some (CObject fps)) by by eapply prefix_lookup_Some.
    eapply get_set_prop, prefix_lookup_Some; [|exact Hbuild].
    rewrite (set_prop_object _ _ _ _ _ Hf1).
    apply list_lookup_insert_eq. by eapply lookup_lt_Some.
  - by injection Hrest as <-.
Qed.

(** A loop that returns has pushed one feature for every read, and every
    read answered. *)
Lemma read_loop_features sourceCRS reads features s s' out :
  read_loop w sourceCRS reads features s = (s', Ok out) ->
  Forall (fun read => is_Ok read = true) reads /\
  exists new, out = features ++ new /\ length new = length reads.
Proof.
  revert features s. induction reads as [|read reads IH]; intros features s; simpl.
  - rewrite run_ret. intros [= <- <-]. split; [done |]. exists []. by rewrite app_nil_r.
  - rewrite bind_call. destruct read as [answer|e]; [|done].
    rewrite bind_on_heap. destruct (build answer (heap_of s)) as [feature h1].
    rewrite run_bind.
    destruct (process_feature w sourceCRS feature (with_heap s h1)) as [s2 [[]|e]]; [|done].
    intros Hrest. destruct (IH _ _ Hrest) as (Hreads & new & -> & Hlen).
    split; [by constructor |]. exists (feature :: new).
    split; [by rewrite <- app_assoc |]. simpl. by rewrite Hlen.
Qed.

(** X6.  For a complete set that the shapefile library opens: when a
    read throws, the conversion of the set throws; when the conversion
    returns, every read answered and [results] has one more entry, the
    name of the set with a new FeatureCollection object whose
    [features] array has exactly one element per record read, records
    without geometry included. *)
Theorem convert_set_features (results : list (jsstring * value)) (name : jsstring)
    (fs : fileSet) (s : State) (reads : list (result tree)) :
  is_complete (prototype_of s) fs = true ->
  shapefile_open w (default [] (fileSet_get (prototype_of s) fs (lit ".shp")))
    (default [] (fileSet_get (prototype_of s) fs (lit ".dbf"))) (lit "tis-620") = Ok reads ->
  let run := convert_set w results (name, fs) s in
  (Exists (fun read => is_Ok read = false) reads -> is_Ok run.2 = false) /\
  (forall results',
     run.2 = Ok results' ->
     Forall (fun read => is_Ok read = true) reads /\
     exists geojson array features,
       results' = results ++ [(name, VRef geojson)] /\
       heap_of s !! geojson = None /\
       heap_of run.1 !! geojson =
         Some (CObject [(lit "type", VString (lit "FeatureCollection"));
                        (lit "features", VRef array)]) /\
       heap_of run.1 !! array = Some (CArray features) /\
       length features = length reads).
Proof.
  intros Hcomplete Hopen run. subst run. unfold convert_set.
  rewrite bind_get_prototype, Hcomplete, bind_call, Hopen, run_bind.
  pose proof (read_loop_keeping w (heap_of s)
                (parsePrjFile w (fileSet_get (prototype_of s) fs (lit ".prj"))) reads [] s)
    as Hkeeps.
  destruct (read_loop w _ reads [] s) as [s1 [features|e]] eqn:Hloop.
  - apply read_loop_features in Hloop as (Hreads & new & -> & Hlen).
    rewrite !bind_new_cell, run_ret. unfold with_heap. simpl. split.
    + intros Hthrows. apply Exists_exists in Hthrows as (read & Hin & Hread).
      rewrite Forall_forall in Hreads. rewrite (Hreads _ Hin) in Hread. done.
    + intros results' [= <-]. split; [done |].
      exists (length (heap_of s1 ++ [CArray new])), (length (heap_of s1)), new.
      split; [done |]. split.
      { apply lookup_ge_None_2. rewrite length_app. simpl.
        specialize (Hkeeps (fun l c Hl => Hl)). apply keeps_length in Hkeeps.
        simpl in Hkeeps. lia. }
      split; [by apply list_lookup_middle |].
      split; [rewrite <- app_assoc; by apply list_lookup_middle | done].
  - simpl. split; [done | done].
Qed.

End ReadLoop.

(** A feature without geometry is left alone. *)
Lemma process_feature_frame_witness :
  process_feature sample_world None (VRef 1) sample_null_state = (sample_null_state, Ok tt).
Proof.
  destruct (process_feature_frame sample_world None 1 sample_null_state) as (_ & _ & Hnull).
  exact (Hnull VNull eq_refl eq_refl).
Defined.

(** The sample line string under the default CRS. *)
Lemma process_feature_geometry_witness :
  let run := process_feature sample_world None (VRef 5) sample_feature_state in
  run.2 = Ok tt /\
  exists transformed answer geometry,
    get_prop (set_prop (transformGeometry sample_world (VRef 4) (Some UTM_ZONE_47N)
                          (heap_of sample_feature_state)).1 5 (lit "geometry") transformed)
      (VRef 5) (lit "geometry") = Ok transformed /\
    simplify sample_world
      (set_prop (transformGeometry sample_world (VRef 4) (Some UTM_ZONE_47N)
                   (heap_of sample_feature_state)).1 5 (lit "geometry") transformed)
      (VRef 5) SIMPLIFY_TOLERANCE true = Ok answer /\
    get_prop (heap_of run.1) (VRef 5) (lit "geometry") = Ok geometry.
Proof.
  intros run. split; [reflexivity |].
  destruct (process_feature_geometry sample_world None sample_feature_state run.1 5 4 _ _
              eq_refl eq_refl eq_refl eq_refl)
    as (h1 & transformed & Hrun & Hread & answer & geometry & Hanswer & _ & Hfinal).
  exists transformed, answer, geometry.
  assert (Hh1 : (transformGeometry sample_world (VRef 4) (Some UTM_ZONE_47N)
                   (heap_of sample_feature_state)).1 = h1).
  { change (Some UTM_ZONE_47N) with (Some (or_default None UTM_ZONE_47N)). by rewrite Hrun. }
  rewrite Hh1. split; [exact Hread |]. split; [exact Hanswer | exact Hfinal].
Defined.

(** The set with a point and a record without geometry: two features. *)
Lemma convert_set_features_witness :
  let run := convert_set sample_world [] (lit "a", sample_fileSet) initial_state in
  exists geojson array features,
    run.2 = Ok [(lit "a", VRef geojson)] /\
    heap_of run.1 !! array = Some (CArray features) /\
    length features = 2.
Proof.
  intros run.
  destruct (convert_set_features sample_world [] (lit "a") sample_fileSet initial_state
              [Ok (sample_feature sample_point); Ok (sample_feature TNull)] eq_refl eq_refl)
    as [_ Hfeatures].
  subst run.
  destruct (convert_set sample_world [] (lit "a", sample_fileSet) initial_state).2
    as [results'|e] eqn:Hrun; [|vm_compute in Hrun; discriminate Hrun].
  destruct (Hfeatures results' eq_refl)
    as (_ & geojson & array & features & -> & _ & _ & Harray & Hlength).
  exists geojson, array, features. split; [reflexivity |]. split; [exact Harray | exact Hlength].
Defined.

(* --------------------------------------------------------------------- *)
(** ** What a run does to the outside *)
(* --------------------------------------------------------------------- *)

#[local] Instance adding_preorder (P : effect -> Prop) : PreOrder (adding P).
Proof.
  split.
  - intros s. exists []. by rewrite app_nil_r.
  - intros s1 s2 s3 (a12 & H12 & HP12) (a23 & H23 & HP23). exists (a12 ++ a23).
    split; [by rewrite H23, H12, app_assoc | by apply Forall_app].
Qed.

Lemma adding_on_heap P {A} (g : heap -> heap * result A) : respects (adding P) (on_heap g).
Proof.
  intros s. unfold on_heap. destruct (g (heap_of s)). exists []. simpl. by rewrite app_nil_r.
Qed.

Lemma adding_assign_prop P target k v : respects (adding P) (assign_prop target k v).
Proof. destruct target; first [apply respects_throw; apply _ | apply adding_on_heap]. Qed.

Lemma adding_emit (P : effect -> Prop) e : P e -> respects (adding P) (emit e).
Proof. intros He s. exists [e]. split; [done | by constructor]. Qed.

Lemma writes_app es1 es2 : writes (es1 ++ es2) = writes es1 ++ writes es2.
Proof. apply omap_app. Qed.

Lemma writes_simplify es : Forall is_simplify es -> writes es = [].
Proof. induction 1 as [|[] es He _ IH]; simpl; done. Qed.

Section Outside.

Variable w : World.

Lemma process_feature_adding sourceCRS feature :
  respects (adding is_simplify) (process_feature w sourceCRS feature).
Proof.
  unfold process_feature.
  repeat first
    [ apply respects_bind; [apply _ | | intros ?]
    | apply adding_assign_prop
    | apply adding_on_heap
    | apply adding_emit; exact I
    | solve [eauto with respects]
    | match goal with |- respects _ (if ?b then _ else _) => destruct b end
    | match goal with |- respects _ (match ?r with _ => _ end) => destruct r end ].
Qed.

Lemma read_loop_adding sourceCRS reads features :
  respects (adding is_simplify) (read_loop w sourceCRS reads features).
Proof.
  revert features. induction reads as [|read reads IH]; intros features; simpl.
  - apply respects_ret; apply _.
  - repeat first
      [ apply process_feature_adding
      | apply IH
      | apply respects_bind; [apply _ | | intros ?]
      | apply adding_on_heap
      | solve [eauto with respects] ].
Qed.

Lemma convert_set_adding results entry :
  respects (adding is_simplify) (convert_set w results entry).
Proof.
  destruct entry as [name fs]. unfold convert_set, new_cell.
  repeat first
    [ apply read_loop_adding
    | apply respects_bind; [apply _ | | intros ?]
    | apply adding_on_heap
    | solve [eauto with respects]
    | match goal with |- respects _ (if ?b then _ else _) => destruct b end ].
Qed.

Lemma convert_sets_adding entries results :
  respects (adding is_simplify) (convert_sets w entries results).
Proof.
  revert results. induction entries as [|entry entries IH]; intros results.
  - apply respects_ret; apply _.
  - change (convert_sets w (entry :: entries) results)
      with (convert_set w results entry ≫= convert_sets w entries).
    apply respects_bind; [apply _ | apply convert_set_adding | intros ?; apply IH].
Qed.

(** Up to the output: the scratch directory is made once the archive
    has been extracted, and nothing else happens but calls of
    [simplify]. *)
Lemma convert_archive_effects (rarPath : jsstring) (s : State) :
  let run := convert_archive w rarPath s in
  exists made simplified,
    effects_of run.1 = effects_of s ++ made ++ simplified /\
    (made = [] /\ simplified = [] \/ made = [EMkdir (lit "./temp_extracted")]) /\
    Forall is_simplify simplified /\
    (is_Ok run.2 = true -> made = [EMkdir (lit "./temp_extracted")]).
Proof.
  intros run. subst run.
  destruct (convert_archive w rarPath s) as [s' r] eqn:Hrun. simpl.
  unfold convert_archive in Hrun. rewrite run_bind in Hrun.
  pose proof (load_archive_state w rarPath s) as Hload.
  destruct (load_archive w rarPath s) as [s0 [rarData|e]]; simpl in Hload; subst s0.
  2: { injection Hrun as <- <-. exists [], []. simpl. rewrite app_nil_r.
       split; [done |]. split; [by left |]. split; [constructor | done]. }
  rewrite bind_call in Hrun.
  destruct (createExtractorFromData w rarData) as [extracted|e].
  2: { injection Hrun as <- <-. exists [], []. simpl. rewrite app_nil_r.
       split; [done |]. split; [by left |]. split; [constructor | done]. }
  unfold do_mkdir in Hrun. rewrite run_bind, bind_call in Hrun.
  destruct (mkdir w (lit "./temp_extracted")) as [[]|e].
  2: { injection Hrun as <- <-. exists [], []. simpl. rewrite app_nil_r.
       split; [done |]. split; [by left |]. split; [constructor | done]. }
  unfold emit at 1 in Hrun. cbn iota beta in Hrun. rewrite bind_call in Hrun.
  destruct extracted as [files|e].
  2: { injection Hrun as <- <-. exists [EMkdir (lit "./temp_extracted")], []. simpl.
       split; [done |]. split; [by right |]. split; [constructor | done]. }
  rewrite bind_get_prototype in Hrun. cbn [prototype_of] in Hrun.
  destruct (group_files files (prototype_of s)) as [shapeFiles prototype1].
  rewrite run_bind in Hrun. unfold set_prototype at 1 in Hrun. cbn iota beta in Hrun.
  cbn [heap_of prototype_of effects_of] in Hrun.
  match type of Hrun with convert_sets w shapeFiles [] ?s0 = _ =>
    destruct (convert_sets_adding shapeFiles [] s0) as (simplified & Heffects & Hsimplified)
  end.
  rewrite Hrun in Heffects. simpl in Heffects.
  exists [EMkdir (lit "./temp_extracted")], simplified.
  rewrite Heffects, <- app_assoc. split; [done |]. split; [by right |]. by split.
Qed.

(** The output: one file, written when [JSON.stringify] and [writeFile]
    return. *)
Lemma write_output_effects (outputJsonPath : jsstring) (results : list (jsstring * value))
    (s : State) :
  let run := write_output w outputJsonPath results s in
  match run.2 with
  | Ok _ => exists data, effects_of run.1 = effects_of s ++ [EWriteFile outputJsonPath data]
  | Throw _ => effects_of run.1 = effects_of s
  end.
Proof.
  assert (Hwrite : forall (target : value) (s2 : State),
    effects_of s2 = effects_of s ->
    let run := (get_heap ≫= fun h =>
                call (JSON_stringify w h target 2) ≫= fun data =>
                do_writeFile w outputJsonPath data) s2 in
    match run.2 with
    | Ok _ => exists data, effects_of run.1 = effects_of s ++ [EWriteFile outputJsonPath data]
    | Throw _ => effects_of run.1 = effects_of s
    end).
  { intros target s2 Hs2 run. subst run. rewrite bind_get_heap, bind_call.
    destruct (JSON_stringify w (heap_of s2) target 2) as [data|e]; [|done].
    unfold do_writeFile. rewrite bind_call.
    destruct (writeFile w outputJsonPath data) as [[]|e]; [|done].
    exists data. simpl. by rewrite Hs2. }
  intros run. subst run. destruct results as [|[name geojson] [|r0 results]].
  - cbn [write_output]. rewrite bind_new_cell. by apply Hwrite.
  - cbn [write_output]. by apply Hwrite.
  - cbn [write_output]. rewrite bind_new_cell. by apply Hwrite.
Qed.

(** X8.  Whatever the libraries answer, what one run of
    [extractRarAndConvert] does to the outside is, in this order: at
    most one [mkdir], of "./temp_extracted", without which there is no
    call of [simplify]; calls of [simplify]; and at most one
    [writeFile].  A run that returns has made the directory and
    written exactly one file, at the output path, as its last act; a
    run that throws has written no file, so a failed conversion leaves
    no partial output. *)
Theorem extractRarAndConvert_effects (rarPath outputJsonPath : jsstring) (s : State) :
  let run := extractRarAndConvert w rarPath outputJsonPath s in
  exists made simplified written,
    effects_of run.1 = effects_of s ++ made ++ simplified ++ written /\
    (made = [] /\ simplified = [] \/ made = [EMkdir (lit "./temp_extracted")]) /\
    Forall is_simplify simplified /\
    match run.2 with
    | Ok _ =>
        made = [EMkdir (lit "./temp_extracted")] /\
        exists data, written = [EWriteFile outputJsonPath data]
    | Throw _ => written = []
    end.
Proof.
  intros run. subst run. rewrite extractRarAndConvert_body, run_bind.
  destruct (convert_archive_effects rarPath s) as (made & simplified & Heffects & Hmade & Hs & Hok).
  destruct (convert_archive w rarPath s) as [s1 [results|e]]; simpl in Heffects, Hok.
  - pose proof (write_output_effects outputJsonPath results s1) as Hwrite. simpl in Hwrite.
    destruct (write_output w outputJsonPath results s1) as [s2 [[]|e]]; simpl in *.
    + destruct Hwrite as [data Hwrite]. exists made, simplified, [EWriteFile outputJsonPath data].
      rewrite Hwrite, Heffects, <- !app_assoc. split; [done |]. split; [done |].
      split; [done |]. split; [by apply Hok | by eexists].
    + exists made, simplified, []. rewrite Hwrite, Heffects, app_nil_r. done.
  - exists made, simplified, []. simpl. by rewrite Heffects, app_nil_r.
Qed.

(** The files a run writes: the output file when it returns, none when
    it throws. *)
Lemma extractRarAndConvert_writes (rarPath outputJsonPath : jsstring) (s : State) :
  let run := extractRarAndConvert w rarPath outputJsonPath s in
  effects_of s `prefix_of` effects_of run.1 /\
  map fst (writes (effects_of run.1)) =
  map fst (writes (effects_of s)) ++ (if is_Ok run.2 then [outputJsonPath] else []).
Proof.
  intros run. subst run. rewrite extractRarAndConvert_body, run_bind.
  destruct (convert_archive_effects rarPath s) as (made & simplified & Heffects & Hmade & Hs & _).
  assert (Hnone : writes (made ++ simplified) = []).
  { rewrite writes_app, (writes_simplify _ Hs). by destruct Hmade as [[-> _]| ->]. }
  destruct (convert_archive w rarPath s) as [s1 [results|e]]; simpl in Heffects.
  - pose proof (write_output_effects outputJsonPath results s1) as Hwrite. simpl in Hwrite.
    destruct (write_output w outputJsonPath results s1) as [s2 [[]|e]]; simpl in *.
    + destruct Hwrite as [data ->]. split.
      { rewrite Heffects, <- app_assoc. by apply prefix_app_r. }
      rewrite Heffects, writes_app, writes_app, Hnone, app_nil_r. simpl.
      by rewrite map_app.
    + rewrite Hwrite, Heffects, writes_app, Hnone. split; [by apply prefix_app_r |].
      by rewrite !app_nil_r.
  - simpl. rewrite Heffects, writes_app, Hnone. split; [by apply prefix_app_r |].
    by rewrite !app_nil_r.
Qed.

(** The files a batch writes. *)
Lemma batchConvert_written (sources : list Source) (s s' : State) (outcomes : list Outcome) :
  batchConvert w sources s = (s', Ok outcomes) ->
  effects_of s `prefix_of` effects_of s' /\
  map fst (writes (effects_of s')) =
    map fst (writes (effects_of s)) ++ map outcome_outputPath (succeeded outcomes).
Proof.
  revert s outcomes. induction sources as [|source sources IH]; intros s outcomes.
  - intros [= <- <-]. split; [done | by rewrite app_nil_r].
  - pose proof (extractRarAndConvert_writes (url source) (outputPath source) s) as Hwrites.
    destruct (extractRarAndConvert w (url source) (outputPath source) s) as [s1 r] eqn:Hrun.
    simpl in Hwrites. destruct Hwrites as [Hgrow Hwrites].
    destruct (batchConvert_returns w sources s1) as (s2 & outcomes2 & Hrest).
    rewrite (batchConvert_cons w _ _ _ _ _ _ _ Hrun Hrest). intros [= <- <-].
    destruct (IH _ _ Hrest) as [Hgrow2 Hpaths]. split; [by etrans |].
    rewrite Hpaths, Hwrites, <- app_assoc. unfold succeeded. rewrite filter_cons.
    destruct r as [[]|e].
    + by rewrite decide_True by done.
    + by rewrite decide_False by (simpl; intros Heq; vm_compute in Heq; discriminate Heq).
Qed.

(** X9.  [batchConvert] returns for every list of sources, and the files
    written during the batch are, in order, exactly the output paths of
    the outcomes recorded as "success": one file per success, none for
    a failure.  Every outcome is either "success" without an [error]
    property or "failed" with one. *)
Theorem batchConvert_writes (sources : list Source) (s : State) :
  exists s' outcomes,
    batchConvert w sources s = (s', Ok outcomes) /\
    map fst (writes (effects_of s')) =
      map fst (writes (effects_of s)) ++ map outcome_outputPath (succeeded outcomes) /\
    Forall (fun o => status o = lit "success" /\ error o = None \/
                     status o = lit "failed" /\ is_Some (error o)) outcomes.
Proof.
  destruct (batchConvert_returns w sources s) as (s' & outcomes & Hbatch).
  exists s', outcomes. split; [done |].
  split; [by apply (batchConvert_written _ _ _ _ Hbatch) |].
  clear -Hbatch. revert s outcomes Hbatch.
  induction sources as [|source sources IH]; intros s outcomes.
  - intros [= <- <-]. constructor.
  - destruct (extractRarAndConvert w (url source) (outputPath source) s) as [s1 r] eqn:Hrun.
    destruct (batchConvert_returns w sources s1) as (s2 & outcomes2 & Hrest).
    rewrite (batchConvert_cons w _ _ _ _ _ _ _ Hrun Hrest). intros [= <- <-].
    constructor; [|by eapply IH].
    destruct r as [[]|e]; [by left | right; split; [done | by eexists]].
Qed.

(** X10.  Batches compose: converting [before] and then, from the state
    that leaves, [after], gives the outcomes and the final state of
    converting [before ++ after] in one batch, with one outcome per
    source. *)
Theorem batchConvert_sequence (before after : list Source) (s : State) :
  exists s1 outcomes1 s2 outcomes2,
    batchConvert w before s = (s1, Ok outcomes1) /\
    batchConvert w after s1 = (s2, Ok outcomes2) /\
    batchConvert w (before ++ after) s = (s2, Ok (outcomes1 ++ outcomes2)) /\
    length outcomes1 = length before /\ length outcomes2 = length after.
Proof.
  destruct (batchConvert_returns w before s) as (s1 & outcomes1 & Hbefore).
  destruct (batchConvert_returns w after s1) as (s2 & outcomes2 & Hafter).
  exists s1, outcomes1, s2, outcomes2. split; [done |]. split; [done |].
  split; [by eapply batchConvert_app |].
  split; by eapply batchConvert_length.
Qed.

(** X11.  A source whose URL is answered with a response that is not
    [ok] is recorded as "failed" with the message "HTTP error! status: "
    followed by the status code, and the batch leaves the state as it
    found it: no directory is made, [simplify] is not called and no
    file is written. *)
Theorem batchConvert_http_error (source : Source) (response : Response) (s : State) :
  is_url (url source) = true ->
  fetch w (url source) = Ok response ->
  resp_ok response = false ->
  batchConvert w [source] s =
  (s, Ok [{| outcome_url := url source;
             outcome_outputPath := outputPath source;
             status := lit "failed";
             error := Some (VString (lit "HTTP error! status: " ++
                                     number_toString (resp_status response))) |}]).
Proof.
  intros Hhttp Hfetch Hok.
  pose proof (extractRarAndConvert_http_error w (url source) (outputPath source) response s
                Hhttp Hfetch Hok) as Hrun.
  by rewrite (batchConvert_cons w source [] s s _ s [] Hrun).
Qed.

(** X12.  When the conversion of an archive returns, the archive was
    loaded and extracted and the sets converted are exactly the complete
    ones, those for which [fileSet[".shp"] && fileSet[".dbf"]] holds, in
    the order of [Object.entries(shapeFiles)]: [results] has their
    names, each once, each with a FeatureCollection object; and
    [Object.prototype] is as the grouping loop left it. *)
Theorem convert_archive_complete_sets (rarPath : jsstring) (s s1 : State)
    (results : list (jsstring * value)) :
  convert_archive w rarPath s = (s1, Ok results) ->
  exists rarData files,
    (load_archive w rarPath s).2 = Ok rarData /\
    createExtractorFromData w rarData = Ok (Ok files) /\
    map fst results = map fst (complete_sets files s) /\
    NoDup (map fst results) /\
    Forall (fun r => is_feature_collection (heap_of s1) r.2) results /\
    prototype_of s1 = (archive_sets files s).2.
Proof.
  intros Hrun.
  destruct (convert_archive_results w _ _ _ _ Hrun)
    as (rarData & files & Hload & Hextract & Hmkdir & Hnames & Hnd & Hfc).
  exists rarData, files. repeat (split; [done |]).
  revert Hrun. unfold convert_archive. rewrite run_bind.
  pose proof (load_archive_state w rarPath s) as Hstate.
  destruct (load_archive w rarPath s) as [s0 r]. simpl in *. subst s0 r.
  rewrite bind_call, Hextract. unfold do_mkdir. rewrite run_bind, bind_call, Hmkdir.
  unfold emit at 1. cbn iota beta. rewrite bind_call, bind_get_prototype. cbn [prototype_of].
  unfold archive_sets.
  destruct (group_files files (prototype_of s)) as [shapeFiles prototype1].
  rewrite run_bind. unfold set_prototype at 1. cbn iota beta.
  intros Hsets. apply convert_sets_results in Hsets as (_ & Hproto & _); [|by constructor].
  by rewrite Hproto.
Qed.

(** X13.  The top level of the script: when "./output" cannot be made
    the module throws and nothing is converted; otherwise "./output" is
    made before anything else, the module then runs [batchConvert] on
    the four sources and ends in the state the batch ends in; the batch
    returns one outcome for each of the four sources, in their order,
    and the files written are exactly the output paths of the outcomes
    it recorded as "success", each of them under "output/". *)
Theorem main_output (s : State) :
  match mkdir w (lit "./output") with
  | Throw e => main w s = (s, Throw e)
  | Ok _ =>
      let made :=
        {| heap_of := heap_of s; prototype_of := prototype_of s;
           effects_of := effects_of s ++ [EMkdir (lit "./output")] |} in
      exists s' outcomes rest,
        batchConvert w sources made = (s', Ok outcomes) /\
        main w s = (s', Ok tt) /\
        effects_of s' = effects_of s ++ EMkdir (lit "./output") :: rest /\
        map (fun o => (outcome_url o, outcome_outputPath o)) outcomes =
          map (fun source => (url source, outputPath source)) sources /\
        map fst (writes rest) = map outcome_outputPath (succeeded outcomes) /\
        Forall (fun path => startsWith path (lit "output/") = true) (map fst (writes rest))
  end.
Proof.
  unfold main, do_mkdir. rewrite run_bind, bind_call.
  destruct (mkdir w (lit "./output")) as [[]|e]; [|done].
  unfold emit at 1. cbn iota beta. rewrite run_bind.
  set (s0 := {| heap_of := heap_of s; prototype_of := prototype_of s;
                effects_of := effects_of s ++ [EMkdir (lit "./output")] |}).
  destruct (batchConvert_returns w sources s0) as (s' & outcomes & Hbatch).
  destruct (batchConvert_written _ _ _ _ Hbatch) as [[rest Hrest] Hwrites].
  rewrite Hbatch. simpl in Hrest.
  exists s', outcomes, rest. split; [done |]. split; [done |].
  split; [by rewrite Hrest, <- app_assoc |].
  split; [by eapply batchConvert_order |].
  assert (Hpaths : map fst (writes rest) = map outcome_outputPath (succeeded outcomes)).
  { rewrite Hrest, writes_app, map_app in Hwrites. by apply app_inv_head in Hwrites. }
  split; [done |]. rewrite Hpaths.
  pose proof (batchConvert_order w _ _ _ _ Hbatch) as Horder.
  apply (f_equal (map snd)) in Horder. rewrite !map_map in Horder. simpl in Horder.
  assert (Hout : map outcome_outputPath outcomes = map outputPath sources) by exact Horder.
  assert (Hall : Forall (fun path => startsWith path (lit "output/") = true)
                   (map outcome_outputPath outcomes)).
  { rewrite Hout. repeat constructor. }
  apply Forall_fmap. apply Forall_fmap in Hall. unfold succeeded.
  rewrite Forall_forall in Hall |- *. intros o Ho. apply Hall.
  by apply list_elem_of_filter in Ho as [_ Ho].
Qed.

(** *** The variant *)

Lemma part_000_load_archive (rarPath : jsstring) :
  is_url rarPath = true -> Part000.load_archive w rarPath = load_archive w rarPath.
Proof. unfold is_url, Part000.load_archive, load_archive. by intros ->. Qed.

(** A pass of the read loop of [src/index.js] that returns is a pass of
    the variant. *)
Lemma part_000_process_feature sourceCRS feature s s' :
  process_feature w sourceCRS feature s = (s', Ok tt) ->
  Part000.process_feature w sourceCRS feature s = (s', Ok tt).
Proof.
  unfold process_feature, Part000.process_feature.
  rewrite !bind_get_heap, !bind_call.
  destruct (get_prop (heap_of s) feature (lit "geometry")) as [geometry|e]; [|done].
  destruct (truthy geometry); [|done].
  rewrite !bind_on_heap.
  destruct (transformGeometry w geometry (Some (or_default sourceCRS UTM_ZONE_47N)) (heap_of s))
    as [h1 [transformed|e]]; [|done].
  rewrite !(run_bind (assign_prop _ _ _)).
  destruct (assign_prop feature (lit "geometry") transformed (with_heap s h1))
    as [s1 [[]|e]]; [|done].
  rewrite !bind_get_heap, !bind_call.
  destruct (get_prop (heap_of s1) feature (lit "geometry")) as [geometry1|e]; [|done].
  rewrite ?bind_call.
  destruct (stringify_length w (heap_of s1) geometry1) as [n|e]; [|done].
  rewrite ?bind_call.
  destruct (get_prop (heap_of s1) geometry1 (lit "type")) as [type|e]; [|done].
  rewrite run_bind.
  match goal with |- match ?m s1 with _ => _ end = _ -> _ =>
    destruct (m s1) as [s2 [[]|e]] end; [|done].
  rewrite bind_get_heap, bind_call.
  destruct (get_prop (heap_of s2) feature (lit "geometry")) as [geometry2|e]; [|done].
  rewrite run_bind. unfold call at 1.
  destruct (stringify_length w (heap_of s2) geometry2) as [m|e]; [|done].
  rewrite run_ret. by intros [= <-].
Qed.

Lemma part_000_read_loop sourceCRS reads features s s' out :
  read_loop w sourceCRS reads features s = (s', Ok out) ->
  Part000.read_loop w sourceCRS reads features s = (s', Ok out).
Proof.
  revert features s. induction reads as [|read reads IH]; intros features s; [done |].
  cbn [read_loop Part000.read_loop]. rewrite !bind_call.
  destruct read as [answer|e]; [|done].
  rewrite !bind_on_heap. destruct (build answer (heap_of s)) as [feature h1].
  rewrite !run_bind.
  destruct (process_feature w sourceCRS feature (with_heap s h1)) as [s2 [[]|e]] eqn:Hpass;
    [|done].
  rewrite (part_000_process_feature _ _ _ _ Hpass). apply IH.
Qed.

Lemma part_000_convert_set results entry s s' results' :
  convert_set w results entry s = (s', Ok results') ->
  Part000.convert_set w results entry s = (s', Ok results').
Proof.
  destruct entry as [name fs]. unfold convert_set, Part000.convert_set.
  rewrite !bind_get_prototype. destruct (is_complete (prototype_of s) fs); [|done].
  rewrite !bind_call.
  destruct (shapefile_open w _ _ (lit "tis-620")) as [reads|e]; [|done].
  rewrite !run_bind.
  destruct (read_loop w (parsePrjFile w (fileSet_get (prototype_of s) fs (lit ".prj")))
              reads [] s) as [s1 [features|e]] eqn:Hloop; [|done].
  by rewrite (part_000_read_loop _ _ _ _ _ _ Hloop).
Qed.

Lemma part_000_convert_sets entries results s s' results' :
  convert_sets w entries results s = (s', Ok results') ->
  Part000.convert_sets w entries results s = (s', Ok results').
Proof.
  revert results s. induction entries as [|entry entries IH]; intros results s; [done |].
  cbn [convert_sets Part000.convert_sets]. rewrite !run_bind.
  destruct (convert_set w results entry s) as [s1 [results1|e]] eqn:Hset; [|done].
  rewrite (part_000_convert_set _ _ _ _ _ Hset). apply IH.
Qed.

Lemma part_000_convert_archive rarPath s s' results :
  is_url rarPath = true ->
  convert_archive w rarPath s = (s', Ok results) ->
  Part000.convert_archive w rarPath s = (s', Ok results).
Proof.
  intros Hurl. unfold convert_archive, Part000.convert_archive.
  rewrite (part_000_load_archive _ Hurl), !run_bind.
  destruct (load_archive w rarPath s) as [s0 [rarData|e]]; [|done].
  rewrite !bind_call. destruct (createExtractorFromData w rarData) as [extracted|e]; [|done].
  rewrite !run_bind. destruct (do_mkdir w (lit "./temp_extracted") s0) as [s1 [[]|e]]; [|done].
  rewrite !bind_call. destruct extracted as [files|e]; [|done].
  rewrite !bind_get_prototype.
  destruct (group_files files (prototype_of s1)) as [shapeFiles prototype1].
  rewrite !run_bind.
  destruct (set_prototype prototype1 s1) as [s2 [[]|e]]; [|done].
  apply part_000_convert_sets.
Qed.

Lemma part_000_extractRarAndConvert rarPath outputJsonPath s s' :
  is_url rarPath = true ->
  extractRarAndConvert w rarPath outputJsonPath s = (s', Ok tt) ->
  Part000.extractRarAndConvert w rarPath outputJsonPath s = (s', Ok tt).
Proof.
  intros Hurl. unfold extractRarAndConvert, Part000.extractRarAndConvert, try_catch.
  rewrite !run_bind.
  destruct (convert_archive w rarPath s) as [s1 [results|e]] eqn:Harchive; [|done].
  by rewrite (part_000_convert_archive _ _ _ _ Hurl Harchive).
Qed.

(** A batch of [src/index.js] in which every conversion returned is a
    run of the loop of the variant. *)
Lemma part_000_batch_loop sources results s s' new :
  Forall (fun source => is_url (url source) = true) sources ->
  batch_loop w sources results s = (s', Ok (results ++ new)) ->
  Forall (fun o => status o = lit "success") new ->
  Part000.batch_loop w sources results s = (s', Ok (results ++ new)).
Proof.
  intros Hsources. revert results s new.
  induction Hsources as [|source sources Hurl _ IH]; intros results s new; [done |].
  cbn [batch_loop Part000.batch_loop]. rewrite !run_bind, batch_step_outcome.
  destruct (extractRarAndConvert w (url source) (outputPath source) s) as [s0 r] eqn:Hrun.
  destruct (batch_loop_returns w sources (results ++ [outcome_of source r]) s0)
    as (s1 & outcomes & Hloop & _).
  rewrite Hloop. intros [= <- Hnew]. rewrite <- app_assoc in Hnew.
  apply app_inv_head in Hnew. subst new. intros Hsuccess.
  apply Forall_cons in Hsuccess as [Hfirst Hrest].
  destruct r as [[]|e]; [|vm_compute in Hfirst; discriminate Hfirst].
  unfold Part000.batch_step, try_catch. rewrite run_bind.
  rewrite (part_000_extractRarAndConvert _ _ _ _ Hurl Hrun), run_ret.
  rewrite (app_assoc results [_] outcomes). apply IH; [|done].
  by rewrite Hloop, <- app_assoc.
Qed.

Lemma sources_of_urls (soilgroup : props jsstring) :
  Forall (fun source => is_url (url source) = true) (Part000.sources_of soilgroup).
Proof.
  unfold Part000.sources_of. apply Forall_fmap, Forall_forall. intros [code provinceSlug] _.
  unfold is_url. simpl. reflexivity.
Qed.

(** One pass of the read loop of the variant over a feature whose
    [geometry] is an object, step by step. *)
Lemma part_000_process_feature_run (sourceCRS : option jsstring) (s : State)
    (f g : loc) (fps gps : props value) :
  heap_of s !! f = Some (CObject fps) ->
  obj_lookup fps (lit "geometry") = Some (VRef g) ->
  heap_of s !! g = Some (CObject gps) ->
  Part000.process_feature w sourceCRS (VRef f) s =
  match transformGeometry w (VRef g) (Some (or_default sourceCRS UTM_ZONE_47N)) (heap_of s) with
  | (h1, Throw e) => (with_heap s h1, Throw e)
  | (h1, Ok transformed) =>
      let reprojected := set_prop h1 f (lit "geometry") transformed in
      if simplify_guard (default VUndefined (obj_lookup gps (lit "type"))) then
        match simplify w reprojected (VRef f) SIMPLIFY_TOLERANCE true with
        | Throw e => (simplifying s reprojected f, Throw e)
        | Ok answer =>
            let built := build answer reprojected in
            match get_prop built.2 built.1 (lit "geometry") with
            | Throw e => (simplifying s built.2 f, Throw e)
            | Ok geometry => (simplifying s (set_prop built.2 f (lit "geometry") geometry) f, Ok tt)
            end
        end
      else (with_heap s reprojected, Ok tt)
  end.
Proof.
  intros Hf Hgeom Hg. unfold Part000.process_feature.
  rewrite bind_get_heap, bind_call, (get_prop_object _ _ _ _ Hf), Hgeom.
  cbn [default from_option id truthy]. rewrite bind_on_heap.
  destruct (transformGeometry w (VRef g) (Some (or_default sourceCRS UTM_ZONE_47N)) (heap_of s))
    as [h1 [transformed|e]] eqn:Hrun; [|done].
  destruct (reprojected_type w _ _ _ _ _ _ _ _ Hf Hg Hrun) as [Hread Htype].
  cbn [assign_prop]. rewrite bind_on_heap, bind_get_heap.
  rewrite !heap_of_with_heap, with_heap_with_heap.
  rewrite bind_call, Hread, bind_call, Htype. cbv zeta.
  destruct (simplify_guard (default VUndefined (obj_lookup gps (lit "type")))); [|done].
  rewrite bind_emit, bind_call.
  destruct (simplify w (set_prop h1 f (lit "geometry") transformed) (VRef f)
              SIMPLIFY_TOLERANCE true) as [answer|e]; [|done].
  rewrite bind_on_heap. cbn [heap_of with_heap].
  destruct (build answer (set_prop h1 f (lit "geometry") transformed)) as [simplified h3].
  cbn [fst snd]. rewrite bind_get_heap.
  cbn [heap_of prototype_of effects_of with_heap]. rewrite bind_call.
  by destruct (get_prop h3 simplified (lit "geometry")) as [geometry|e].
Qed.

(** X14.  The variant and [src/index.js].  Whatever entries the object
    [soilgroup] has, the sources the variant computes from it are all
    https URLs, one per entry in the order of the entries, written to
    "output/" followed by the value of the entry and ".json".  On a URL
    the variant does what [src/index.js] does whenever the conversion of
    [src/index.js] returns: the same final state, the same file written;
    a batch of [src/index.js] all of whose outcomes are "success" is a
    run of the loop of the variant with the same outcomes, and so for
    the top level.  The converse fails, the variant taking no size of
    what it converts: when [simplify] hands back a feature without
    [geometry], a pass of the read loop of [src/index.js] throws a
    TypeError at the second [JSON.stringify(feature.geometry).length]
    where the pass of the variant returns, in the same state. *)
Theorem part_000_agrees (soilgroup : props jsstring) (s : State) :
  Forall (fun source => is_url (url source) = true) (Part000.sources_of soilgroup) /\
  map outputPath (Part000.sources_of soilgroup) =
    map (fun entry => lit "output/" ++ entry.2 ++ lit ".json") soilgroup /\
  (forall rarPath outputJsonPath s',
     is_url rarPath = true ->
     extractRarAndConvert w rarPath outputJsonPath s = (s', Ok tt) ->
     Part000.extractRarAndConvert w rarPath outputJsonPath s = (s', Ok tt)) /\
  (forall sources s' outcomes,
     Forall (fun source => is_url (url source) = true) sources ->
     batchConvert w sources s = (s', Ok outcomes) ->
     Forall (fun o => status o = lit "success") outcomes ->
     Part000.batch_loop w sources [] s = (s', Ok outcomes)) /\
  (forall s' outcomes,
     (do_mkdir w (lit "./output");; batchConvert w (Part000.sources_of soilgroup)) s
     = (s', Ok outcomes) ->
     Forall (fun o => status o = lit "success") outcomes ->
     Part000.main_of w soilgroup s = (s', Ok outcomes)) /\
  (forall sourceCRS f g fps gps h1 transformed size answer,
     heap_of s !! f = Some (CObject fps) ->
     obj_lookup fps (lit "geometry") = Some (VRef g) ->
     heap_of s !! g = Some (CObject gps) ->
     simplify_guard (default VUndefined (obj_lookup gps (lit "type"))) = true ->
     transformGeometry w (VRef g) (Some (or_default sourceCRS UTM_ZONE_47N)) (heap_of s)
     = (h1, Ok transformed) ->
     let reprojected := set_prop h1 f (lit "geometry") transformed in
     stringify_length w reprojected transformed = Ok size ->
     simplify w reprojected (VRef f) SIMPLIFY_TOLERANCE true = Ok answer ->
     let built := build answer reprojected in
     get_prop built.2 built.1 (lit "geometry") = Ok VUndefined ->
     let s' := simplifying s (set_prop built.2 f (lit "geometry") VUndefined) f in
     Part000.process_feature w sourceCRS (VRef f) s = (s', Ok tt) /\
     process_feature w sourceCRS (VRef f) s =
       (s', Throw (JsTypeError (lit "Cannot read properties of undefined (reading 'length')")))).
Proof.
  split; [apply sources_of_urls |]. split.
  { unfold Part000.sources_of. rewrite map_map. apply map_ext. by intros [code slug]. }
  split; [intros ? ? ?; apply part_000_extractRarAndConvert |].
  split; [|split].
  - intros sources s' outcomes Hsources Hbatch Hsuccess.
    by apply (part_000_batch_loop sources [] s s' outcomes).
  - intros s' outcomes. unfold Part000.main_of. rewrite !run_bind.
    destruct (do_mkdir w (lit "./output") s) as [s1 [[]|e]]; [|done].
    intros Hbatch Hsuccess.
    by apply (part_000_batch_loop _ [] s1 s' outcomes (sources_of_urls soilgroup)).
  - intros sourceCRS f g fps gps h1 transformed size answer Hf Hgeom Hg Hguard Hrun
      reprojected Hsize Hanswer built Hbare s'.
    rewrite (part_000_process_feature_run sourceCRS s f g fps gps Hf Hgeom Hg).
    rewrite (process_feature_run w sourceCRS s f g fps gps Hf Hgeom Hg).
    rewrite Hrun. cbv zeta. fold reprojected. rewrite Hsize, Hguard, Hanswer.
    fold built. by rewrite Hbare.
Qed.

End Outside.

(** The archive with two sets, which both scripts convert alike; and a
    [simplify] that hands back a feature without [geometry], where the
    pass of [src/index.js] throws and the pass of the variant returns. *)
Lemma part_000_agrees_witness :
  (let run :=
     extractRarAndConvert sample_world (lit "https://example.org/two.rar")
       (lit "output/two.json") initial_state in
   Part000.extractRarAndConvert sample_world (lit "https://example.org/two.rar")
     (lit "output/two.json") initial_state = (run.1, Ok tt)) /\
  (let run := Part000.process_feature bare_simplify_world None (VRef 5) sample_feature_state in
   run.2 = Ok tt /\
   get_prop (heap_of run.1) (VRef 5) (lit "geometry") = Ok VUndefined /\
   process_feature bare_simplify_world None (VRef 5) sample_feature_state =
     (run.1, Throw (JsTypeError (lit "Cannot read properties of undefined (reading 'length')")))).
Proof.
  split.
  - intros run. subst run.
    destruct (part_000_agrees sample_world [] initial_state) as (_ & _ & Hextract & _).
    apply Hextract; [reflexivity |].
    destruct (extractRarAndConvert sample_world (lit "https://example.org/two.rar")
                (lit "output/two.json") initial_state) as [s' [[]|e]] eqn:Hrun;
      [reflexivity | vm_compute in Hrun; discriminate Hrun].
  - intros run. subst run.
    destruct (part_000_agrees bare_simplify_world [] sample_feature_state)
      as (_ & _ & _ & _ & _ & Hdiverge).
    cbv zeta in Hdiverge.
    edestruct (Hdiverge None 5 4) as [Hvariant Hpass];
      [reflexivity | reflexivity | reflexivity | reflexivity
      | vm_compute; reflexivity | vm_compute; reflexivity | vm_compute; reflexivity
      | vm_compute; reflexivity |].
    rewrite Hvariant. split; [reflexivity |]. split; [reflexivity | exact Hpass].
Defined.

(** The source that is answered 404. *)
Lemma batchConvert_http_error_witness :
  batchConvert sample_world [sample_source "missing"] initial_state =
  (initial_state,
   Ok [{| outcome_url := lit "https://example.org/missing.rar";
          outcome_outputPath := lit "output/missing.json";
          status := lit "failed";
          error := Some (VString (lit "HTTP error! status: 404")) |}]).
Proof.
  exact (batchConvert_http_error sample_world (sample_source "missing")
           {| resp_ok := false; resp_status := 404;
              resp_arrayBuffer := Throw (JsError (lit "body unavailable")) |}
           initial_state eq_refl eq_refl eq_refl).
Defined.

(** The archive with the set [a] and the lone [b.shx]. *)
Lemma convert_archive_complete_sets_witness :
  let run := convert_archive sample_world (lit "https://example.org/one.rar") initial_state in
  exists results,
    run.2 = Ok results /\ map fst results = [lit "a"] /\ NoDup (map fst results).
Proof.
  intros run. subst run.
  destruct (convert_archive sample_world (lit "https://example.org/one.rar") initial_state)
    as [s1 [results|e]] eqn:Hrun; [|vm_compute in Hrun; discriminate Hrun].
  destruct (convert_archive_complete_sets sample_world _ _ _ _ Hrun)
    as (rarData & files & Hload & Hextract & Hnames & Hnd & _).
  vm_compute in Hload. injection Hload as <-.
  vm_compute in Hextract. injection Hextract as <-.
  exists results. split; [reflexivity |]. split; [|exact Hnd].
  rewrite Hnames. vm_compute. reflexivity.
Defined.

(* --------------------------------------------------------------------- *)
(** ** The order of properties *)
(* --------------------------------------------------------------------- *)

Lemma obj_set_keys_present {A} (ps : props A) (k : jsstring) (v : A) :
  is_Some (obj_lookup ps k) -> map fst (obj_set ps k v) = map fst ps.
Proof. intros [v0 Hk]. unfold obj_set. rewrite Hk. apply obj_replace_keys. Qed.

Lemma obj_set_keys_absent {A} (ps : props A) (k : jsstring) (v : A) :
  obj_lookup ps k = None -> array_index k = None -> obj_set ps k v = ps ++ [(k, v)].
Proof. intros Hk Hindex. unfold obj_set. by rewrite Hk, Hindex. Qed.

Section PropertyOrder.

Variable w : World.

(** X16.  The object [transformGeometry] returns for a geometry object
    and a source CRS that asks for a transform has the property names
    of the input in the order of the input, so the geometry is
    serialised with its members in the order the reader produced them;
    only when the input of one of the six kinds has no [coordinates]
    property is one added, at the end. *)
Theorem transformGeometry_keys (g : loc) (ps : props value) (sourceCRS : option jsstring)
    (h h' : heap) (out : value) :
  h !! g = Some (CObject ps) ->
  no_transform sourceCRS = false ->
  transformGeometry w (VRef g) sourceCRS h = (h', Ok out) ->
  exists transformed ps',
    out = VRef transformed /\
    h' !! transformed = Some (CObject ps') /\
    map fst ps' =
      match switch_depth (default VUndefined (obj_lookup ps (lit "type"))),
            obj_lookup ps (lit "coordinates") with
      | Some _, None => map fst ps ++ [lit "coordinates"]
      | _, _ => map fst ps
      end.
Proof.
  intros Hg Hcrs. unfold transformGeometry. rewrite Hcrs.
  destruct (proj4 w (default [] sourceCRS) WGS84) as [transform|e]; [|done].
  rewrite alloc_spec. simpl. rewrite (deref_Some _ _ _ Hg).
  assert (Hg' : deref (h ++ [CObject ps]) g = CObject ps).
  { apply deref_Some. by apply lookup_app_l_Some. }
  rewrite Hg'.
  destruct (switch_depth (default VUndefined (obj_lookup ps (lit "type")))) as [depth|].
  - destruct (transformCoords transform depth (h ++ [CObject ps]) _)
      as [h2 [coordinates|e]] eqn:Hcoords; [|done].
    apply transformCoords_prefix in Hcoords as [ext ->].
    intros [= <- <-]. rewrite <- app_assoc. simpl. rewrite set_prop_new_object.
    exists (length h), (obj_set ps (lit "coordinates") coordinates).
    split; [done |]. split; [by apply list_lookup_middle |].
    destruct (obj_lookup ps (lit "coordinates")) as [old|] eqn:Hold.
    + apply obj_set_keys_present. by eexists.
    + rewrite obj_set_keys_absent by done. by rewrite map_app.
  - intros [= <- <-]. exists (length h), ps.
    split; [done |]. split; [by apply list_lookup_middle |].
    by destruct (obj_lookup ps (lit "coordinates")).
Qed.

End PropertyOrder.

(** The sample line string keeps [type] before [coordinates]. *)
Lemma transformGeometry_keys_witness :
  let run :=
    transformGeometry sample_world (VRef sample_line_ref) (Some UTM_ZONE_47N) sample_line_heap in
  exists transformed ps',
    run.2 = Ok (VRef transformed) /\
    run.1 !! transformed = Some (CObject ps') /\
    map fst ps' = [lit "type"; lit "coordinates"].
Proof.
  intros run.
  destruct (transformGeometry_keys sample_world sample_line_ref
              [(lit "type", VString (lit "LineString")); (lit "coordinates", VRef 2)]
              (Some UTM_ZONE_47N) sample_line_heap run.1 (VRef 4) eq_refl eq_refl eq_refl)
    as (transformed & ps' & Hout & Hcell & Hkeys).
  exists transformed, ps'. split; [by rewrite <- Hout |]. split; [exact Hcell | exact Hkeys].
Defined.

(** The loop [combined[name] = geojson] from an object that has none of
    the names. *)
Lemma combine_from (results : list (jsstring * value)) (acc : props value) :
  Forall (fun r => array_index r.1 = None) results ->
  NoDup (map fst acc ++ map fst results) ->
  fold_left (fun combined '(name, geojson) => obj_set combined name geojson) results acc =
  acc ++ results.
Proof.
  revert acc. induction results as [|[name geojson] results IH]; intros acc Hindex Hnd; simpl.
  - by rewrite app_nil_r.
  - apply Forall_cons in Hindex as [Hname Hindex]. simpl in Hname.
    rewrite obj_set_keys_absent; [| |done].
    + rewrite IH; [by rewrite <- app_assoc | done |].
      rewrite map_app. simpl. by rewrite <- app_assoc.
    + apply obj_lookup_None. simpl in Hnd.
      apply NoDup_app in Hnd as (_ & Hdisjoint & _).
      intros Hin. apply (Hdisjoint _ Hin). by left.
Qed.

(** X17.  For converted sets with distinct names none of which is an
    array index (the canonical decimal form of an integer), the object
    [combined] that is written in the multi-set case has exactly the
    entries of [results] in the order of [results]: each name with its
    collection, in the order the sets were converted. *)
Theorem combine_order (results : list (jsstring * value)) :
  Forall (fun r => array_index r.1 = None) results ->
  NoDup (map fst results) ->
  combine results = results.
Proof.
  intros Hindex Hnd. unfold combine.
  rewrite combine_from; [done | done |]. by simpl.
Qed.

Lemma combine_order_witness :
  combine [(lit "b", VNull); (lit "a", VNull)] = [(lit "b", VNull); (lit "a", VNull)].
Proof.
  apply combine_order.
  - repeat constructor.
  - apply (bool_decide_unpack _). vm_compute. reflexivity.
Defined.

(* --------------------------------------------------------------------- *)
(** ** Names that meet Object.prototype *)
(* --------------------------------------------------------------------- *)

(** [shapeFiles] never gets an own property "__proto__". *)
Lemma group_file_no_proto (acc : props fileSet * props Buffer) (file : ArchiveFile) :
  obj_lookup acc.1 (lit "__proto__") = None ->
  obj_lookup (group_file acc file).1 (lit "__proto__") = None.
Proof.
  intros Hnone. rewrite group_file_entry.
  destruct (member_entry file) as [[[b e] data]|]; [|done].
  destruct acc as [shapeFiles prototype]. cbn [fst snd] in *. unfold shapeFiles_get.
  destruct (obj_lookup shapeFiles b) as [fs|] eqn:Hb; cbn [fst snd].
  - rewrite obj_lookup_set. destruct (str_eqb b (lit "__proto__")) eqn:Heq; [|done].
    apply str_eqb_eq in Heq. subst b. congruence.
  - destruct (str_eqb b (lit "__proto__")) eqn:Heq; [done |].
    destruct (str_in b Object_prototype_methods); [done |].
    destruct (bool_decide (is_Some (obj_lookup prototype b))); [done |]. cbn [fst snd].
    by rewrite obj_lookup_set, Heq.
Qed.

(** X18.  What the grouping loop puts on [Object.prototype] is exactly
    what the members with the base name "__proto__" bring: starting from
    the properties it had, for each such member in order the property
    named by its extension is set to its contents.  An archive without
    such a member leaves [Object.prototype] as it was, and [shapeFiles]
    never has an own property "__proto__", so such members form no set
    of their own. *)
Theorem group_files_prototype (files : list ArchiveFile) (prototype : props Buffer) :
  (group_files files prototype).2 =
    fold_left (fun proto '(ext, data) => obj_set proto ext data) (proto_entries files) prototype /\
  obj_lookup (group_files files prototype).1 (lit "__proto__") = None /\
  (proto_entries files = [] -> (group_files files prototype).2 = prototype).
Proof.
  assert (Hmain :
    (group_files files prototype).2 =
      fold_left (fun proto '(ext, data) => obj_set proto ext data) (proto_entries files) prototype /\
    obj_lookup (group_files files prototype).1 (lit "__proto__") = None).
  { induction files as [|file files [IHproto IHnone]] using rev_ind; [done |].
    rewrite group_files_snoc. split; [|by apply group_file_no_proto].
    unfold proto_entries. rewrite omap_app, fold_left_app. fold (proto_entries files).
    rewrite <- IHproto. rewrite group_file_entry. simpl.
    destruct (member_entry file) as [[[b e] data]|]; [|done].
    destruct (group_files files prototype) as [shapeFiles prototype1]. cbn [fst snd] in *.
    unfold shapeFiles_get.
    destruct (str_eqb b (lit "__proto__")) eqn:Heq.
    - apply str_eqb_eq in Heq. subst b. by rewrite IHnone.
    - cbn [fold_left]. destruct (obj_lookup shapeFiles b); [done |].
      destruct (str_in b Object_prototype_methods); [done |].
      by destruct (bool_decide (is_Some (obj_lookup prototype1 b))). }
  destruct Hmain as [Hproto Hnone]. split; [done |]. split; [done |].
  intros Hnil. by rewrite Hproto, Hnil.
Qed.

(** A member with the base name "__proto__": its contents become the
    property [.shp] of [Object.prototype]. *)
Lemma group_files_prototype_witness :
  proto_entries example_files = [] /\
  (group_files example_files []).2 = [] /\
  (group_files proto_name_files []).2 =
    [(lit ".shp", bytes_of "points"); (lit ".dbf", bytes_of "rows")].
Proof.
  split; [vm_compute; reflexivity |]. split.
  - apply (group_files_prototype example_files []). vm_compute. reflexivity.
  - rewrite (proj1 (group_files_prototype proto_name_files [])). vm_compute. reflexivity.
Defined.

Lemma method_name_not_proto (b : jsstring) :
  str_in b Object_prototype_methods = true -> str_eqb b (lit "__proto__") = false.
Proof.
  intros Hin. destruct (str_eqb b (lit "__proto__")) eqn:Heq; [|done].
  apply str_eqb_eq in Heq. subst b. vm_compute in Hin. discriminate Hin.
Qed.

(** [shapeFiles] never gets an own property named like a method of
    [Object.prototype]. *)
Lemma group_file_no_method (acc : props fileSet * props Buffer) (file : ArchiveFile) :
  (forall m, str_in m Object_prototype_methods = true -> obj_lookup acc.1 m = None) ->
  forall m, str_in m Object_prototype_methods = true ->
    obj_lookup (group_file acc file).1 m = None.
Proof.
  intros Hnone m Hm. rewrite group_file_entry.
  destruct (member_entry file) as [[[b e] data]|]; [|by apply Hnone].
  destruct acc as [shapeFiles prototype]. cbn [fst snd] in *. unfold shapeFiles_get.
  destruct (obj_lookup shapeFiles b) as [fs|] eqn:Hb; cbn [fst snd].
  - rewrite obj_lookup_set. destruct (str_eqb b m) eqn:Heq; [|by apply Hnone].
    apply str_eqb_eq in Heq. subst b. rewrite (Hnone _ Hm) in Hb. done.
  - destruct (str_eqb b (lit "__proto__")); [by apply Hnone |].
    destruct (str_in b Object_prototype_methods) eqn:Hmethod; [by apply Hnone |].
    destruct (bool_decide (is_Some (obj_lookup prototype b))); [by apply Hnone |].
    cbn [fst snd]. rewrite obj_lookup_set. destruct (str_eqb b m) eqn:Heq; [|by apply Hnone].
    apply str_eqb_eq in Heq. subst b. congruence.
Qed.

(** X19.  Members whose base name is the name of a method of
    [Object.prototype] ("constructor", "toString", "valueOf",
    "hasOwnProperty", ...) are dropped by the grouping loop without an
    error: [shapeFiles[baseName]] is the inherited method, no set is
    made, and the archive gives the same sets, and the same
    [Object.prototype], as the archive without these members. *)
Theorem group_files_drops_method_names (files : list ArchiveFile) (prototype : props Buffer) :
  group_files (filter (fun file => method_named file = false) files) prototype =
  group_files files prototype.
Proof.
  unfold group_files.
  assert (H : forall acc,
    (forall m, str_in m Object_prototype_methods = true -> obj_lookup acc.1 m = None) ->
    fold_left group_file (filter (fun file => method_named file = false) files) acc =
    fold_left group_file files acc); [|by apply H].
  induction files as [|file files IH]; intros acc Hnone; [done |].
  rewrite filter_cons. simpl.
  destruct (decide (method_named file = false)) as [Hplain|Hmethod].
  - simpl. apply IH. by apply group_file_no_method.
  - rewrite IH by done. f_equal. apply not_false_is_true in Hmethod.
    unfold method_named in Hmethod. rewrite group_file_entry.
    destruct (member_entry file) as [[[b e] data]|]; [|done].
    destruct acc as [shapeFiles prototype1]. cbn [fst snd] in *. unfold shapeFiles_get.
    by rewrite (Hnone _ Hmethod), (method_name_not_proto _ Hmethod), Hmethod.
Qed.

(** [toString.shp] and [toString.dbf] are lost; the set [a] is made. *)
Lemma group_files_drops_method_names_witness :
  group_files method_named_files [] =
  ([(lit "a", [(lit ".shp", bytes_of "points"); (lit ".dbf", bytes_of "rows")])], []).
Proof. rewrite <- group_files_drops_method_names. vm_compute. reflexivity. Defined.
